(** * TrendPulse backend: the trend-analysis pipeline of [main.py]

    A shallow embedding of the analysis service: the retrying series
    fetcher, the series cleaner, the numeric classifier on binary64
    floats, the related-terms lookup, the process-wide cache and the
    [analyze] operation with its failure taxonomy.

    Conventions.
    - Python [int] is [Z]; Python [float] is an IEEE 754 binary64 value,
      represented by [spec_float] with the operations of the standard
      library's [SpecFloat] at precision 53 and maximal exponent 1024.
    - Python [str] is [string], the bytes of its UTF-8 encoding. The
      builtins [str.strip], [str.lower] and the text of a [KeyError] are
      Python's own, defined over all of Unicode: the program is modelled
      over any such operations ([StrOps]), and run on ASCII text with
      [ascii_ops].
    - Exceptions are values of [exn]; a computation that may raise returns a
      [result]; a computation with effects is a function of the [World].
    - The trends provider is an external collaborator: its answers are given
      by a [Provider], a function of the history of effects so far. *)

From Stdlib Require Import ZArith List String Ascii Bool Lia SpecFloat.
From stdpp Require Import gmap strings pretty.

Open Scope string_scope.
Open Scope list_scope.
Open Scope Z_scope.
Import ListNotations.

(** ** Exceptions and results *)

(** [HTTPException] is FastAPI's; every other exception is kept by the text
    [str(e)] it prints as, which is all the code ever inspects. *)
Inductive exn : Type :=
| HTTPException (status_code : Z) (detail : string)
| Exception (msg : string).

Inductive result (A : Type) : Type :=
| OK (a : A)
| Raise (e : exn).
Arguments OK {A} a.
Arguments Raise {A} e.

Definition rbind {A B : Type} (r : result A) (k : A -> result B) : result B :=
  match r with
  | OK a => k a
  | Raise e => Raise e
  end.

Fixpoint rmap_list {A B : Type} (f : A -> result B) (l : list A) : result (list B) :=
  match l with
  | [] => OK []
  | a :: l' => rbind (f a) (fun b => rbind (rmap_list f l') (fun bs => OK (b :: bs)))
  end.

(** ** Binary64 floats *)

Module F64.

Definition prec : Z := 53.
Definition emax : Z := 1024.

Definition float : Type := spec_float.

Definition mul : float -> float -> float := SFmul prec emax.
Definition add : float -> float -> float := SFadd prec emax.
Definition div : float -> float -> float := SFdiv prec emax.
Definition ltb : float -> float -> bool := SFltb.
Definition leb : float -> float -> bool := SFleb.
Definition neg : float -> float := SFopp.
Definition abs : float -> float := SFabs.
Definition valid : float -> bool := valid_binary prec emax.

(** [float(z)] for an integer that a binary64 holds exactly. *)
Definition of_int (z : Z) : float := binary_normalize prec emax z 0 false.

(** An integer as an unrounded operand of a correctly rounded division. *)
Definition exact_int (z : Z) : float :=
  match z with
  | Z0 => S754_zero false
  | Zpos p => S754_finite false p 0
  | Zneg p => S754_finite true p 0
  end.

Definition is_nan (f : float) : bool :=
  match f with S754_nan => true | _ => false end.

(** The literals of the source. *)
Definition zero : float := S754_zero false.                      (* 0.0 *)
Definition f0_8 : float := S754_finite false 7205759403792794 (-53).   (* 0.8 *)
Definition f1_2 : float := S754_finite false 5404319552844595 (-52).   (* 1.2 *)
Definition f0_6 : float := S754_finite false 5404319552844595 (-53).   (* 0.6 *)

(** Quotient of [m] by [2^n] rounded to the nearest integer, ties to the
    even one. *)
Definition round_half_even_shift (m n : Z) : Z :=
  let q := Z.shiftr m n in
  let r := m - Z.shiftl q n in
  match Z.compare (2 * r) (Z.shiftl 1 n) with
  | Lt => q
  | Gt => q + 1
  | Eq => if Z.even q then q else q + 1
  end.

End F64.

Abbreviation float := F64.float.

(** ** Python numbers and builtins *)

(** [max(0, min(100, score))] mixes [int] and [float] operands. *)
Inductive num : Type :=
| PyInt (z : Z)
| PyFloat (f : float).

Definition num_to_float (a : num) : float :=
  match a with
  | PyInt z => F64.of_int z
  | PyFloat f => f
  end.

(** [a < b]; an [int] operand is compared by its value, which for the
    integers of this program is its binary64 image. *)
Definition num_lt (a b : num) : bool :=
  match a, b with
  | PyInt x, PyInt y => x <? y
  | _, _ => F64.ltb (num_to_float a) (num_to_float b)
  end.

(** [min(a, b)] keeps [a] unless [b < a]; [max(a, b)] keeps [a] unless
    [b > a]. *)
Definition py_min (a b : num) : num := if num_lt b a then b else a.
Definition py_max (a b : num) : num := if num_lt a b then b else a.

(** [round(x)] with one argument: the integer itself, or the float rounded
    to the nearest integer, ties to even. *)
Definition py_round (a : num) : result Z :=
  match a with
  | PyInt z => OK z
  | PyFloat (S754_zero _) => OK 0
  | PyFloat (S754_finite s m e) =>
      let k := if 0 <=? e then Z.shiftl (Zpos m) e
               else F64.round_half_even_shift (Zpos m) (- e) in
      OK (if s then - k else k)
  | PyFloat S754_nan => Raise (Exception "cannot convert float NaN to integer")
  | PyFloat (S754_infinity _) =>
      Raise (Exception "cannot convert float infinity to integer")
  end.

(** [int(x)] of a float: truncation toward zero. *)
Definition float_to_int (f : float) : result Z :=
  match f with
  | S754_zero _ => OK 0
  | S754_finite s m e =>
      let k := if 0 <=? e then Z.shiftl (Zpos m) e else Z.shiftr (Zpos m) (- e) in
      OK (if s then - k else k)
  | S754_nan => Raise (Exception "cannot convert float NaN to integer")
  | S754_infinity _ => Raise (Exception "cannot convert float infinity to integer")
  end.

(** [a / b] on integers: the quotient correctly rounded to binary64. *)
Definition py_truediv (a b : Z) : result float :=
  if b =? 0 then Raise (Exception "division by zero")
  else
    match F64.div (F64.exact_int a) (F64.exact_int b) with
    | S754_infinity _ =>
        Raise (Exception "integer division result too large for a float")
    | q => OK q
    end.

(** [sub in s] on strings. *)
Fixpoint contains (sub s : string) : bool :=
  String.prefix sub s ||
  match s with
  | EmptyString => false
  | String _ s' => contains sub s'
  end.

(** ** Builtins of [str]

    [str.strip()], [str.lower()] and [str(KeyError(key))], which is
    [repr(key)], belong to Python, not to this program, and are defined over
    all of Unicode. The program is modelled over any three such
    operations. *)
Class StrOps : Type := {
  strip : string -> string;
  lower : string -> string;
  repr : string -> string
}.

(** The three operations on ASCII text, on which the examples run:
    whitespace is the characters 9 to 13 and 28 to 32, the cased letters are
    A to Z, and a text of printable characters without quote or backslash
    prints between single quotes. *)
Definition is_space (c : ascii) : bool :=
  let n := nat_of_ascii c in
  ((9 <=? n) && (n <=? 13) || (28 <=? n) && (n <=? 32))%nat.

Fixpoint lstrip (s : list ascii) : list ascii :=
  match s with
  | c :: s' => if is_space c then lstrip s' else s
  | [] => []
  end.

Definition ascii_strip (s : string) : string :=
  string_of_list_ascii
    (rev (lstrip (rev (lstrip (list_ascii_of_string s))))).

Definition lower_char (c : ascii) : ascii :=
  let n := nat_of_ascii c in
  if ((65 <=? n) && (n <=? 90))%nat then ascii_of_nat (n + 32) else c.

Definition ascii_lower (s : string) : string :=
  string_of_list_ascii (map lower_char (list_ascii_of_string s)).

Definition ascii_repr (s : string) : string :=
  String.append "'" (String.append s "'").

#[global] Instance ascii_ops : StrOps | 10 :=
  {| strip := ascii_strip; lower := ascii_lower; repr := ascii_repr |}.

Definition sum (l : list Z) : Z := fold_left Z.add l 0.

(** [range(n)]. *)
Definition range (n : nat) : list nat := seq 0 n.

(** ** SeriesCleaner: [clean_data] *)

(** A cell of a pandas column after [tolist()]. *)
Inductive cell : Type :=
| CInt (z : Z)
| CFloat (f : float)
| CBool (b : bool).

(** The provider's table: a time index and named columns. *)
Record DataFrame : Type := {
  index : list Z;
  columns : gmap string (list cell)
}.

(** [data.empty]: one of the axes has length 0. *)
Definition df_empty (data : DataFrame) : bool :=
  bool_decide (index data = []) || bool_decide (columns data = ∅).

(** [data.drop(columns=[c])]. *)
Definition df_drop (c : string) (data : DataFrame) : DataFrame :=
  {| index := index data; columns := delete c (columns data) |}.

(** [data[keyword].tolist()]; a missing column is a [KeyError], which prints
    as the [repr] of the key. *)
Definition df_getitem `{StrOps} (data : DataFrame) (keyword : string)
  : result (list cell) :=
  match columns data !! keyword with
  | Some values => OK values
  | None => Raise (Exception (repr keyword))
  end.

(** [int(v)]. *)
Definition py_int (v : cell) : result Z :=
  match v with
  | CInt z => OK z
  | CFloat f => float_to_int f
  | CBool b => OK (if b then 1 else 0)
  end.

Definition clean_data `{StrOps} (data : option DataFrame) (keyword : string)
  : result (list Z) :=
  match data with
  | None => OK []
  | Some data =>
      if df_empty data then OK []
      else
        let data :=
          if bool_decide (is_Some (columns data !! "isPartial"))
          then df_drop "isPartial" data else data in
        rbind (df_getitem data keyword) (fun values =>
        let last_7 :=
          if (7 <=? length values)%nat
          then skipn (length values - 7) values else values in
        rmap_list py_int last_7)
  end.

(** ** TrendClassifier *)

Definition calculate_slope (data_points : list Z) : result float :=
  let n := length data_points in
  if (n <? 2)%nat then OK F64.zero
  else
    let x := map Z.of_nat (range n) in
    let y := data_points in
    let sum_x := sum x in
    let sum_y := sum y in
    let sum_xy := sum (map (fun i => nth i x 0 * nth i y 0) (range n)) in
    let sum_x_squared := sum (map (fun xi => xi ^ 2) x) in
    let denominator := Z.of_nat n * sum_x_squared - sum_x ^ 2 in
    if denominator =? 0 then OK F64.zero
    else py_truediv (Z.of_nat n * sum_xy - sum_x * sum_y) denominator.

Definition classify_trend (slope : float) : string :=
  if F64.ltb F64.f0_8 slope then "Rising"
  else if F64.ltb slope (F64.neg F64.f0_8) then "Declining"
  else "Stable".

Definition calculate_score (slope : float) : result Z :=
  let score := F64.add (F64.mul slope (F64.of_int 12)) (F64.of_int 50) in
  let score := py_max (PyInt 0) (py_min (PyInt 100) (PyFloat score)) in
  py_round score.

Definition determine_confidence (slope : float) : string :=
  let abs_slope := F64.abs slope in
  if F64.ltb F64.f1_2 abs_slope then "High"
  else if F64.ltb F64.f0_6 abs_slope then "Medium"
  else "Low".

Definition get_best_posting_time (trend : string) : string :=
  let posting_times : gmap string string :=
    <["Rising" := "7 PM – 10 PM"]>
      (<["Stable" := "12 PM – 3 PM"]>
         (<["Declining" := "9 AM – 12 PM"]> ∅)) in
  default "12 PM – 3 PM" (posting_times !! trend).

(** ** The world: cache, provider handle, history of effects *)

Record AnalyzeResponse : Type := {
  trend : string;
  score : Z;
  confidence : string;
  related_keywords : list string;
  best_posting_time : string;
  graph_data : list Z
}.

(** What the process does to the outside, in the order it does it. The
    client of a provider call is the handle [pytrend] held at that time. *)
Inductive event : Type :=
| Sleep (seconds : nat)
| InterestOverTime (client : nat) (keyword : string)
| Suggestions (client : nat) (keyword : string)
| GetPytrend (client : nat).

Record World : Type := {
  cache : gmap string AnalyzeResponse;
  pytrend : nat;
  log : list event
}.

(** The provider answers a call from the history so far, the client used and
    the keyword: it raises an exception printed as [inl msg], or returns. *)
Record Provider : Type := {
  interest_over_time : list event -> nat -> string -> string + option DataFrame;
  suggestions : list event -> nat -> string -> string + list (gmap string string)
}.

Definition M (A : Type) : Type := World -> result A * World.

Definition ret {A : Type} (a : A) : M A := fun w => (OK a, w).

Definition raise {A : Type} (e : exn) : M A := fun w => (Raise e, w).

Definition bind {A B : Type} (m : M A) (k : A -> M B) : M B :=
  fun w =>
    match m w with
    | (OK a, w') => k a w'
    | (Raise e, w') => (Raise e, w')
    end.

(** [try: m  except Exception as e: h e]. *)
Definition try_except {A : Type} (m : M A) (h : exn -> M A) : M A :=
  fun w =>
    match m w with
    | (OK a, w') => (OK a, w')
    | (Raise e, w') => h e w'
    end.

Definition lift {A : Type} (r : result A) : M A := fun w => (r, w).

Declare Scope m_scope.
Delimit Scope m_scope with M.
Notation "x <- m ;; k" := (bind m (fun x => k))
  (at level 100, m at next level, right associativity) : m_scope.
Notation "m ;;; k" := (bind m (fun _ => k))
  (at level 100, right associativity) : m_scope.

Definition emit (ev : event) : M unit :=
  fun w => (OK tt, {| cache := cache w; pytrend := pytrend w; log := log w ++ [ev] |}).

(** [time.sleep(seconds)]. *)
Definition sleep (seconds : nat) : M unit := emit (Sleep seconds).

(** [get_pytrend()]: a fresh client; building one is taken not to fail. *)
Definition get_pytrend : M nat :=
  fun w => let c := S (pytrend w) in
           (OK c, {| cache := cache w; pytrend := pytrend w; log := log w ++ [GetPytrend c] |}).

(** [pytrend = c] on the global handle. *)
Definition set_pytrend (c : nat) : M unit :=
  fun w => (OK tt, {| cache := cache w; pytrend := c; log := log w |}).

(** [cache[keyword] = response]. *)
Definition cache_put (keyword : string) (response : AnalyzeResponse) : M unit :=
  fun w => (OK tt, {| cache := <[keyword := response]> (cache w);
                      pytrend := pytrend w; log := log w |}).

Definition of_provider {A : Type} (r : string + A) : result A :=
  match r with
  | inl msg => Raise (Exception msg)
  | inr a => OK a
  end.

(** [pytrend.build_payload([keyword], timeframe='now 7-d')] followed by
    [pytrend.interest_over_time()]: one query of the provider. *)
Definition query_interest (P : Provider) (keyword : string) : M (option DataFrame) :=
  fun w =>
    (of_provider (interest_over_time P (log w) (pytrend w) keyword),
     {| cache := cache w; pytrend := pytrend w;
        log := log w ++ [InterestOverTime (pytrend w) keyword] |}).

(** [pytrend.suggestions(keyword=keyword)]. *)
Definition query_suggestions (P : Provider) (keyword : string)
  : M (list (gmap string string)) :=
  fun w =>
    (of_provider (suggestions P (log w) (pytrend w) keyword),
     {| cache := cache w; pytrend := pytrend w;
        log := log w ++ [Suggestions (pytrend w) keyword] |}).

(** [str(e)]. *)
Definition exn_str (e : exn) : string :=
  match e with
  | HTTPException status_code detail =>
      String.append (pretty status_code) (String.append ": " detail)
  | Exception msg => msg
  end.

Open Scope m_scope.

(** ** SeriesFetcher: [fetch_trends_data] *)

(** The body of the [for attempt in range(max_retries)] loop, over the
    attempts still to run. *)
Fixpoint fetch_attempts (P : Provider) (keyword : string) (max_retries : nat)
    (attempts : list nat) : M (option DataFrame) :=
  match attempts with
  | [] => ret None
  | attempt :: rest =>
      try_except
        (sleep 2 ;;; query_interest P keyword)
        (fun e =>
           if contains "429" (exn_str e) && (attempt <? max_retries - 1)%nat
           then
             let wait_time := ((attempt + 1) * 10)%nat in
             sleep wait_time ;;;
             c <- get_pytrend ;;
             set_pytrend c ;;;
             fetch_attempts P keyword max_retries rest
           else raise e)
  end.

Definition fetch_trends_data (P : Provider) (keyword : string) (max_retries : nat)
  : M (option DataFrame) :=
  fetch_attempts P keyword max_retries (range max_retries).

(** ** RelatedTermsFetcher: [fetch_related_keywords] *)

Fixpoint titles (l : list (gmap string string)) : list string :=
  match l with
  | [] => []
  | suggestion :: l' =>
      match suggestion !! "title" with
      | Some t => t :: titles l'
      | None => titles l'
      end
  end.

Definition fetch_related_keywords (P : Provider) (keyword : string) (limit : nat)
  : M (list string) :=
  try_except
    (sleep 1 ;;;
     suggestions <- query_suggestions P keyword ;;
     ret (titles (firstn limit suggestions)))
    (fun _ => ret []).

(** ** AnalysisService: [analyze] *)

(** The body of the [try] block. *)
Definition analyze_try `{StrOps} (P : Provider) (keyword : string)
  : M AnalyzeResponse :=
  raw_data <- fetch_trends_data P keyword 3 ;;
  if match raw_data with None => true | Some d => df_empty d end then
    raise (HTTPException 404
             (String.append "No trend data found for keyword: " keyword))
  else
    graph_data <- lift (clean_data raw_data keyword) ;;
    if (length graph_data <? 2)%nat then
      raise (HTTPException 400 "Insufficient data points for analysis")
    else
      slope <- lift (calculate_slope graph_data) ;;
      let trend := classify_trend slope in
      score <- lift (calculate_score slope) ;;
      let confidence := determine_confidence slope in
      let best_posting_time := get_best_posting_time trend in
      related_keywords <- fetch_related_keywords P keyword 3 ;;
      let response :=
        {| trend := trend; score := score; confidence := confidence;
           related_keywords := related_keywords;
           best_posting_time := best_posting_time;
           graph_data := graph_data |} in
      cache_put keyword response ;;;
      ret response.

(** The two [except] clauses: [except HTTPException: raise] and
    [except Exception as e]. *)
Definition analyze_except (e : exn) : M AnalyzeResponse :=
  match e with
  | HTTPException _ _ => raise e
  | Exception error_msg =>
      if contains "429" error_msg then
        raise (HTTPException 429
          "Google Trends rate limit reached. Please try again in a few minutes.")
      else
        raise (HTTPException 500
          (String.append "Error analyzing keyword: " error_msg))
  end.

Definition analyze `{StrOps} (P : Provider) (request_keyword : string)
  : M AnalyzeResponse :=
  let keyword := lower (strip request_keyword) in
  if bool_decide (keyword = "") then
    raise (HTTPException 400 "Keyword cannot be empty")
  else fun w =>
    match cache w !! keyword with
    | Some cached => (OK cached, w)
    | None => try_except (analyze_try P keyword) analyze_except w
    end.

Close Scope m_scope.

(** ** Vocabulary of the properties *)

(** [0.8000000000000002], the next binary64 above the literal [0.8]. *)
Definition f0_8_succ : float := S754_finite false 7205759403792795 (-53).

(** The values the cleaner keeps: the final seven, or all when fewer. *)
Definition last_seven {A : Type} (l : list A) : list A := skipn (length l - 7) l.

Definition coffee_frame : DataFrame :=
  {| index := [1; 2; 3; 4; 5; 6; 7; 8; 9; 10];
     columns :=
       <["coffee" := map CInt [1; 2; 3; 10; 20; 30; 40; 50; 60; 70]]>
         (<["isPartial" := map CBool
              [false; false; false; false; false; false; false; false; false; true]]>
            ∅) |}.

(** The world after further effects, and after the handle is replaced. *)
Definition logged (w : World) (evs : list event) : World :=
  {| cache := cache w; pytrend := pytrend w; log := log w ++ evs |}.

Definition with_client (c : nat) (w : World) : World :=
  {| cache := cache w; pytrend := c; log := log w |}.

(** The answer the provider gives to an attempt started in world [w]. *)
Definition attempt_answer (P : Provider) (keyword : string) (w : World)
  : string + option DataFrame :=
  interest_over_time P (log w ++ [Sleep 2]) (pytrend w) keyword.

(** The effects of a run of attempts: every attempt sleeps 2 and queries;
    between two attempts lie the escalating wait and a fresh client. *)
Inductive attempt_trace (keyword : string) : nat -> nat -> list event -> Prop :=
| trace_last (attempt c : nat) :
    attempt_trace keyword attempt c [Sleep 2; InterestOverTime c keyword]
| trace_retry (attempt c : nat) (tr : list event) :
    attempt_trace keyword (S attempt) (S c) tr ->
    attempt_trace keyword attempt c
      ([Sleep 2; InterestOverTime c keyword;
        Sleep ((attempt + 1) * 10); GetPytrend (S c)] ++ tr).

(** The number of series queries in a history. *)
Fixpoint count_interest (h : list event) : nat :=
  match h with
  | [] => 0
  | InterestOverTime _ _ :: h' => S (count_interest h')
  | _ :: h' => count_interest h'
  end.

(** A provider that answers the series queries from a script, in order, and
    every suggestions query by the same answer. *)
Definition scripted (answers : list (string + option DataFrame))
    (suggested : string + list (gmap string string)) : Provider :=
  {| interest_over_time :=
       fun h _ _ => nth (count_interest h) answers (inl "no answer");
     suggestions := fun _ _ _ => suggested |}.

(** The process at start-up: empty cache, first client, nothing done yet. *)
Definition initial_world : World := {| cache := ∅; pytrend := 0; log := [] |}.

(** Rate-limited twice, then served. *)
Definition limited_twice : Provider :=
  scripted [inl "The request failed: Google returned a response with code 429";
            inl "The request failed: Google returned a response with code 429";
            inr (Some coffee_frame)]
           (inr [ {["title" := "Coffee bean"]}; ∅; {["title" := "Cafe"]};
                  {["title" := "Tea"]} ]).

(** Rate-limited once, then served. *)
Definition limited_once : Provider :=
  scripted [inl "The request failed: Google returned a response with code 429";
            inr (Some coffee_frame)]
           (inr [ {["title" := "Coffee bean"]} ]).

(** Never rate-limited, and nothing known about the keyword. *)
Definition no_data : Provider := scripted [inr None] (inr []).


(** A result raises at most a plain exception, never an [HTTPException]. *)
Definition plain {A : Type} (r : result A) : Prop :=
  match r with
  | Raise (HTTPException _ _) => False
  | _ => True
  end.

(** The failure taxonomy of [analyze]. *)
Definition InvalidInput : exn := HTTPException 400 "Keyword cannot be empty".
Definition NotFound (keyword : string) : exn :=
  HTTPException 404 (String.append "No trend data found for keyword: " keyword).
Definition InsufficientData : exn :=
  HTTPException 400 "Insufficient data points for analysis".
Definition RateLimited : exn :=
  HTTPException 429
    "Google Trends rate limit reached. Please try again in a few minutes.".
Definition Internal (msg : string) : exn :=
  HTTPException 500 (String.append "Error analyzing keyword: " msg).

(** [strip] then [lower], the key of the cache. *)
Definition normalize `{StrOps} (keyword : string) : string := lower (strip keyword).

(** The sum of [f i] over the indices [0 <= i < n]. *)
Fixpoint big_sum (f : nat -> Z) (n : nat) : Z :=
  match n with
  | O => 0
  | S k => big_sum f k + f k
  end.

(** The least-squares slope of the points [(i, y_i)], as a fraction:
    [n * Sxy - Sx * Sy] over [n * Sxx - Sx ^ 2]. *)
Definition ols_numerator (y : list Z) : Z :=
  let n := length y in
  Z.of_nat n * big_sum (fun i => Z.of_nat i * nth i y 0) n
  - big_sum (fun i => Z.of_nat i) n * big_sum (fun i => nth i y 0) n.

Definition ols_denominator (n : nat) : Z :=
  Z.of_nat n * big_sum (fun i => Z.of_nat i ^ 2) n
  - big_sum (fun i => Z.of_nat i) n ^ 2.


(** The binary64 values [0.125] and [0.375], and [k + 0.5] for an integer. *)
Definition f0_125 : float := S754_finite false 4503599627370496 (-55).
Definition f0_375 : float := S754_finite false 6755399441055744 (-54).
Definition half_after (k : Z) : float :=
  binary_normalize F64.prec F64.emax (2 * k + 1) (-1) false.

(** [round] read as rounding halves up: the floor of the value plus 1/2. *)
Definition py_round_half_up (a : num) : result Z :=
  match a with
  | PyInt z => OK z
  | PyFloat (S754_zero _) => OK 0
  | PyFloat (S754_finite s m e) =>
      let sm := if s then Zneg m else Zpos m in
      OK (if 0 <=? e then Z.shiftl sm e
          else Z.shiftr (2 * sm + Z.shiftl 1 (- e)) (- e + 1))
  | PyFloat S754_nan => Raise (Exception "cannot convert float NaN to integer")
  | PyFloat (S754_infinity _) =>
      Raise (Exception "cannot convert float infinity to integer")
  end.

Definition calculate_score_half_up (slope : float) : result Z :=
  let score := F64.add (F64.mul slope (F64.of_int 12)) (F64.of_int 50) in
  let score := py_max (PyInt 0) (py_min (PyInt 100) (PyFloat score)) in
  py_round_half_up score.

(** The clamp and rounding steps of [calculate_score], on the float sum. *)
Definition clamp_round (round : num -> result Z) (x : float) : result Z :=
  round (py_max (PyInt 0) (py_min (PyInt 100) (PyFloat x))).

Definition result_is (r : result Z) (z : Z) : bool :=
  match r with
  | OK v => v =? z
  | Raise _ => false
  end.

(** ** Vocabulary of binary64 rounding *)

(** The quotient of [N] by [2 ^ j] rounded to the nearest integer, ties to
    the even one: the mathematical reading of [round_half_even_shift]. *)
Definition rhe (N j : Z) : Z :=
  let q := N / 2 ^ j in
  let r := N mod 2 ^ j in
  match 2 * r ?= 2 ^ j with
  | Lt => q
  | Gt => q + 1
  | Eq => if Z.even q then q else q + 1
  end.

(** What the shift record holds after [j] one-bit shifts of [M]: the
    quotient, the round bit and the sticky bit. *)
Definition shr_inv (M j : Z) (mrs : shr_record) : Prop :=
  shr_m mrs = M / 2 ^ j /\
  (shr_r mrs = true <-> 2 ^ j <= 2 * (M mod 2 ^ j)) /\
  (shr_s mrs = true <-> M mod 2 ^ j <> 0 /\ 2 * (M mod 2 ^ j) <> 2 ^ j).

(** The exponent of the last place of binary64. *)
Abbreviation fexp64 := (fexp F64.prec F64.emax).

(** The tail of [binary_round_aux]: renormalise the rounded mantissa and
    detect overflow. *)
Definition finish (sx : bool) (q e1 : Z) : spec_float :=
  let '(mrs, e2) := shr_fexp F64.prec F64.emax q e1 loc_Exact in
  match shr_m mrs with
  | Z0 => S754_zero sx
  | Zpos m => if e2 <=? F64.emax - F64.prec then S754_finite sx m e2
              else S754_infinity sx
  | Zneg _ => S754_nan
  end.

(** The same rounding from a quotient [q] and a remainder [r] modulo [t]. *)
Definition rhe_of (t q r : Z) : Z :=
  match 2 * r ?= t with
  | Lt => q
  | Gt => q + 1
  | Eq => if Z.even q then q else q + 1
  end.

(** Values scaled by [2 ^ K]: a float is the integer [m * 2 ^ (e + K)], an
    infinity is [2 ^ (1024 + K)], below which all finite floats lie. With
    [K = scale] every float, and every exact product by 12, is an integer. *)
Definition scale : Z := 1123.

Definition big (K : Z) : Z := 2 ^ (1024 + K).

Definition sval (K : Z) (f : float) : Z :=
  match f with
  | S754_zero _ => 0
  | S754_nan => 0
  | S754_infinity s => cond_Zopp s (big K)
  | S754_finite s m e => cond_Zopp s (Zpos m * 2 ^ (e + K))
  end.

(** Rounding to nearest-even of a scaled exact value, with overflow. *)
Definition round_pos (K N : Z) : Z :=
  let sh := Z.max (Z.log2 N + 1 - 53) (K - 1074) in
  Z.min (rhe N sh * 2 ^ sh) (big K).

Definition round_scaled (K N : Z) : Z :=
  match N with
  | Z0 => 0
  | Zpos _ => round_pos K N
  | Zneg p => - round_pos K (Zpos p)
  end.

(** The operands [12.0], [50.0] and [100.0]. *)
Definition twelve : float := S754_finite false 6755399441055744 (-49).
Definition fifty : float := S754_finite false 7036874417766400 (-47).
Definition hundred : float := S754_finite false 7036874417766400 (-46).

(** Saturation at the infinities around a rounded operation. *)
Definition saturate (K : Z) (g : Z -> Z) (v : Z) : Z :=
  if big K <=? v then big K
  else if v <=? - big K then - big K
  else g v.

(** [x * 12], [x + 50] and the clamp-and-round step, on scaled values. *)
Definition mul_sem (K v : Z) : Z := saturate K (fun v => round_scaled K (12 * v)) v.
Definition add_sem (K v : Z) : Z :=
  saturate K (fun v => round_scaled K (v + 50 * 2 ^ K)) v.
Definition final_sem (K v : Z) : Z :=
  if v <=? 0 then 0 else if 100 * 2 ^ K <=? v then 100 else rhe v K.

(** ** Vocabulary of the further properties *)

(** The label of the opposite direction. *)
Definition mirror (trend : string) : string :=
  if bool_decide (trend = "Rising") then "Declining"
  else if bool_decide (trend = "Declining") then "Rising"
  else trend.

(** The order Low < Medium < High of the confidence labels. *)
Definition confidence_rank (confidence : string) : Z :=
  if bool_decide (confidence = "High") then 2
  else if bool_decide (confidence = "Medium") then 1
  else 0.

(** Seconds slept, and suggestion queries made, in a history. *)
Fixpoint total_sleep (h : list event) : nat :=
  match h with
  | [] => 0
  | Sleep seconds :: h' => seconds + total_sleep h'
  | _ :: h' => total_sleep h'
  end.

Fixpoint count_suggestions (h : list event) : nat :=
  match h with
  | [] => 0
  | Suggestions _ _ :: h' => S (count_suggestions h')
  | _ :: h' => count_suggestions h'
  end.

(** The longest a run of attempts can sleep, from attempt [a] with [n] more
    attempts after it: 2 seconds before each query and [(i + 1) * 10] after
    each failed attempt [i] but the last. *)
Fixpoint sleep_budget (a n : nat) : nat :=
  match n with
  | O => 2
  | S n' => 2 + (a + 1) * 10 + sleep_budget (S a) n'
  end.

(** A provider that rate-limits every series query. *)
Definition always_rate_limited (P : Provider) : Prop :=
  forall h c k, exists msg,
    interest_over_time P h c k = inl msg /\ contains "429" msg = true.

Definition throttled : Provider :=
  {| interest_over_time := fun _ _ _ => inl "Google returned a response with code 429";
     suggestions := fun _ _ _ => inr [] |}.

(** What a response owes to its series: every field but the related keywords
    is computed from [graph_data]. *)
Definition coherent (r : AnalyzeResponse) : Prop :=
  exists slope,
    calculate_slope (graph_data r) = OK slope /\
    trend r = classify_trend slope /\
    calculate_score slope = OK (score r) /\
    confidence r = determine_confidence slope /\
    best_posting_time r = get_best_posting_time (trend r) /\
    (2 <= length (graph_data r) <= 7)%nat /\
    (length (related_keywords r) <= 3)%nat.

(** A series that never falls, and one that never rises. *)
Definition non_decreasing (y : list Z) : Prop :=
  forall i j, (i <= j < length y)%nat -> nth i y 0 <= nth j y 0.

Definition non_increasing (y : list Z) : Prop :=
  forall i j, (i <= j < length y)%nat -> nth j y 0 <= nth i y 0.
(** * Properties *)

(** ** Comparison of binary64 values *)

Lemma ltb_pos_pos (m1 m2 : positive) (e1 e2 : Z) :
  F64.ltb (S754_finite false m1 e1) (S754_finite false m2 e2) = true <->
  e1 < e2 \/ (e1 = e2 /\ (m1 < m2)%positive).
Proof.
  unfold F64.ltb, SFltb; cbn.
  destruct (Z.compare_spec e1 e2) as [He|He|He].
  - rewrite Pos.compare_cont_spec; cbn.
    destruct (Pos.compare_spec m1 m2) as [Hm|Hm|Hm]; split; intros Hx;
      try lia; try discriminate; reflexivity.
  - split; [lia | reflexivity].
  - split; [discriminate | lia].
Qed.

Lemma ltb_neg_neg (m1 m2 : positive) (e1 e2 : Z) :
  F64.ltb (S754_finite true m1 e1) (S754_finite true m2 e2) = true <->
  e2 < e1 \/ (e1 = e2 /\ (m2 < m1)%positive).
Proof.
  unfold F64.ltb, SFltb; cbn.
  destruct (Z.compare_spec e1 e2) as [He|He|He].
  - rewrite Pos.compare_cont_spec; cbn.
    destruct (Pos.compare_spec m1 m2) as [Hm|Hm|Hm]; split; intros Hx;
      cbn in *; try lia; try discriminate; reflexivity.
  - split; [discriminate | lia].
  - split; [lia | reflexivity].
Qed.

(** No float is both above [0.8] and below [-0.8]. *)
Lemma above_not_below (s : float) :
  F64.ltb F64.f0_8 s = true -> F64.ltb s (F64.neg F64.f0_8) = false.
Proof.
  destruct s as [[]|[]| |[] m e];
    unfold F64.ltb, SFltb, SFcompare, F64.f0_8, F64.neg, SFopp, negb;
    lazy beta iota; congruence.
Qed.

(** ** TrendClassifier: direction *)

Lemma f0_8_literal :
  OK F64.f0_8 = py_truediv 4 5 /\ OK F64.f1_2 = py_truediv 6 5 /\
  OK F64.f0_6 = py_truediv 3 5.
Proof. repeat split; vm_compute; reflexivity. Qed.

(** C6. [classify_trend] returns exactly one of the three labels: "Rising"
    exactly when the slope is above 0.8, "Declining" exactly when it is
    below -0.8, "Stable" in every other case; the boundaries are exclusive:
    0.8 and -0.8 themselves are "Stable", the next float above 0.8 is
    "Rising". *)
Theorem classify_trend_thresholds :
  (forall s : float,
      (classify_trend s = "Rising" <-> F64.ltb F64.f0_8 s = true) /\
      (classify_trend s = "Declining" <-> F64.ltb s (F64.neg F64.f0_8) = true) /\
      (classify_trend s = "Stable" <->
         F64.ltb F64.f0_8 s = false /\ F64.ltb s (F64.neg F64.f0_8) = false) /\
      (classify_trend s = "Rising" \/ classify_trend s = "Stable" \/
       classify_trend s = "Declining")) /\
  classify_trend F64.f0_8 = "Stable" /\
  classify_trend (F64.neg F64.f0_8) = "Stable" /\
  classify_trend f0_8_succ = "Rising".
Proof.
  split; [| repeat split; vm_compute; reflexivity].
  intros s. unfold classify_trend.
  destruct (F64.ltb F64.f0_8 s) eqn:Hup.
  - rewrite (above_not_below s Hup).
    repeat split; try tauto; try discriminate; intros []; discriminate.
  - destruct (F64.ltb s (F64.neg F64.f0_8)) eqn:Hdown;
      repeat split; try tauto; try discriminate; intros []; discriminate.
Qed.

(** ** TrendClassifier: confidence against direction *)

Lemma rising_confident (s : float) :
  F64.ltb F64.f0_8 s = true -> F64.ltb F64.f0_6 (F64.abs s) = true.
Proof.
  destruct s as [[]|[]| |[] m e];
    try (unfold F64.ltb, SFltb, SFcompare, F64.f0_8, F64.f0_6, F64.abs, SFabs;
         lazy beta iota; congruence).
  unfold F64.f0_8, F64.f0_6, F64.abs, SFabs. rewrite !ltb_pos_pos. lia.
Qed.

Lemma declining_confident (s : float) :
  F64.ltb s (F64.neg F64.f0_8) = true -> F64.ltb F64.f0_6 (F64.abs s) = true.
Proof.
  destruct s as [[]|[]| |[] m e];
    try (unfold F64.ltb, SFltb, SFcompare, F64.f0_8, F64.f0_6, F64.neg,
           F64.abs, SFabs, SFopp, negb;
         lazy beta iota; congruence).
  unfold F64.f0_8, F64.f0_6, F64.neg, F64.abs, SFabs, SFopp, negb.
  rewrite ltb_neg_neg, ltb_pos_pos. lia.
Qed.

(** C9. A slope that is not classified "Stable" has confidence "Medium" or
    "High", never "Low": the direction threshold 0.8 lies above the
    confidence breakpoint 0.6. *)
Theorem direction_implies_confidence (s : float) :
  classify_trend s <> "Stable" ->
  determine_confidence s = "Medium" \/ determine_confidence s = "High".
Proof.
  intros Hns.
  assert (H6 : F64.ltb F64.f0_6 (F64.abs s) = true).
  { unfold classify_trend in Hns.
    destruct (F64.ltb F64.f0_8 s) eqn:Hup; [now apply rising_confident |].
    destruct (F64.ltb s (F64.neg F64.f0_8)) eqn:Hdown;
      [now apply declining_confident | congruence]. }
  unfold determine_confidence.
  destruct (F64.ltb F64.f1_2 (F64.abs s)); [now right |].
  rewrite H6. now left.
Qed.

Lemma direction_implies_confidence_witness :
  classify_trend (F64.of_int 1) <> "Stable" /\
  (determine_confidence (F64.of_int 1) = "Medium" \/
   determine_confidence (F64.of_int 1) = "High").
Proof.
  split.
  - vm_compute. discriminate.
  - apply (direction_implies_confidence (F64.of_int 1)). vm_compute. discriminate.
Defined.

(** ** SeriesCleaner *)

Lemma rmap_list_Forall2 {A B : Type} (f : A -> result B) (l : list A) (bs : list B) :
  Forall2 (fun a b => f a = OK b) l bs -> rmap_list f l = OK bs.
Proof.
  induction 1 as [|a b l bs Hab _ IH]; [reflexivity |].
  cbn [rmap_list]. rewrite Hab. cbn [rbind]. rewrite IH. reflexivity.
Qed.

Lemma rmap_list_length {A B : Type} (f : A -> result B) (l : list A) (bs : list B) :
  rmap_list f l = OK bs -> length bs = length l.
Proof.
  revert bs. induction l as [|a l IH]; intros bs; cbn [rmap_list].
  - intros [= <-]. reflexivity.
  - destruct (f a) as [b|]; cbn [rbind]; [| discriminate].
    destruct (rmap_list f l) as [bs'|]; cbn [rbind]; [| discriminate].
    intros [= <-]. cbn [length]. now rewrite (IH bs' eq_refl).
Qed.

(** [int(f)] is the value of [f] cut toward zero: the truncating quotient of
    the signed mantissa scaled by the exponent. *)
Lemma float_to_int_truncates (s : bool) (m : positive) (e : Z) :
  float_to_int (S754_finite s m e) =
  OK (Z.quot (cond_Zopp s (Zpos m) * 2 ^ Z.max e 0) (2 ^ Z.max (- e) 0)).
Proof.
  unfold float_to_int. f_equal.
  destruct (Z.leb_spec 0 e) as [He|He].
  - rewrite (Z.max_l e 0), (Z.max_r (- e) 0) by lia.
    rewrite Z.pow_0_r, Z.quot_1_r, Z.shiftl_mul_pow2 by lia.
    destruct s; unfold cond_Zopp; lia.
  - rewrite (Z.max_r e 0), (Z.max_l (- e) 0) by lia.
    rewrite Z.pow_0_r, Z.mul_1_r, Z.shiftr_div_pow2 by lia.
    assert (Hp : 0 < 2 ^ (- e)) by (apply Z.pow_pos_nonneg; lia).
    destruct s; unfold cond_Zopp.
    + rewrite Z.quot_opp_l by lia. rewrite Z.quot_div_nonneg by lia. reflexivity.
    + rewrite Z.quot_div_nonneg by lia. reflexivity.
Qed.

Lemma last_seven_length {A : Type} (l : list A) :
  length (last_seven l) = Nat.min 7 (length l).
Proof. unfold last_seven. rewrite length_skipn. lia. Qed.

Lemma clean_data_column `{StrOps} (data : DataFrame) (keyword : string) (values : list cell) :
  df_empty data = false ->
  keyword <> "isPartial" ->
  columns data !! keyword = Some values ->
  clean_data (Some data) keyword = rmap_list py_int (last_seven values).
Proof.
  intros Hne Hkw Hcol. unfold clean_data. rewrite Hne.
  assert (Hget : df_getitem
            (if bool_decide (is_Some (columns data !! "isPartial"))
             then df_drop "isPartial" data else data) keyword = OK values).
  { unfold df_getitem. case_bool_decide.
    - cbn [df_drop columns]. rewrite lookup_delete_ne by congruence.
      now rewrite Hcol.
    - now rewrite Hcol. }
  rewrite Hget. cbn [rbind]. unfold last_seven.
  destruct (Nat.leb_spec 7 (length values)) as [H7|H7]; [reflexivity |].
  replace (length values - 7)%nat with 0%nat by lia. reflexivity.
Qed.

(** On a table that is not empty, [clean_data] reads the keyword's column in
    the table without its partial-data column. *)
Lemma clean_data_dropped `{StrOps} (data : DataFrame) (keyword : string) :
  df_empty data = false ->
  clean_data (Some data) keyword =
  match delete "isPartial" (columns data) !! keyword with
  | Some values => rmap_list py_int (last_seven values)
  | None => Raise (Exception (repr keyword))
  end.
Proof.
  intros Hne. unfold clean_data. rewrite Hne.
  assert (Hget : df_getitem
            (if bool_decide (is_Some (columns data !! "isPartial"))
             then df_drop "isPartial" data else data) keyword =
            match delete "isPartial" (columns data) !! keyword with
            | Some values => OK values
            | None => Raise (Exception (repr keyword))
            end).
  { unfold df_getitem. case_bool_decide as Hp.
    - reflexivity.
    - rewrite delete_id; [reflexivity |].
      destruct (columns data !! "isPartial") eqn:Hl; [| reflexivity].
      exfalso. apply Hp. now eexists. }
  rewrite Hget.
  destruct (delete "isPartial" (columns data) !! keyword) as [values|];
    cbn [rbind]; [| reflexivity].
  unfold last_seven.
  destruct (Nat.leb_spec 7 (length values)) as [H7|H7]; [reflexivity |].
  replace (length values - 7)%nat with 0%nat by lia. reflexivity.
Qed.

(** C8. [clean_data] returns the empty list on an absent or empty table;
    otherwise it drops the partial-data column if the table has one, takes
    the keyword's column, keeps its last seven values in order (all of them
    when there are fewer than seven) and converts each with [int], which on
    a float cuts toward zero; a column of ten values yields its last seven.
    The drop comes before the lookup: the column read is the keyword's
    column of the table without its partial-data column, so that asking for
    the partial-data column itself is a [KeyError] even when the table has
    it. *)
Theorem clean_data_last_seven `{StrOps} (keyword : string) :
  clean_data None keyword = OK [] /\
  (forall data, df_empty data = true -> clean_data (Some data) keyword = OK []) /\
  (forall data values ints,
      df_empty data = false ->
      keyword <> "isPartial" ->
      columns data !! keyword = Some values ->
      Forall2 (fun v z => py_int v = OK z) (last_seven values) ints ->
      clean_data (Some data) keyword = OK ints /\
      clean_data (Some (df_drop "isPartial" data)) keyword = OK ints /\
      length ints = Nat.min 7 (length values)) /\
  (forall s m e,
      py_int (CFloat (S754_finite s m e)) =
      OK (Z.quot (cond_Zopp s (Zpos m) * 2 ^ Z.max e 0) (2 ^ Z.max (- e) 0))) /\
  (forall data z0 z1 z2 z3 z4 z5 z6 z7 z8 z9,
      df_empty data = false ->
      keyword <> "isPartial" ->
      columns data !! keyword =
        Some (map CInt [z0; z1; z2; z3; z4; z5; z6; z7; z8; z9]) ->
      clean_data (Some data) keyword = OK [z3; z4; z5; z6; z7; z8; z9]) /\
  (forall data,
      df_empty data = false ->
      clean_data (Some data) keyword =
      match delete "isPartial" (columns data) !! keyword with
      | Some values => rmap_list py_int (last_seven values)
      | None => Raise (Exception (repr keyword))
      end) /\
  (forall data partial,
      df_empty data = false ->
      columns data !! "isPartial" = Some partial ->
      clean_data (Some data) "isPartial" = Raise (Exception (repr "isPartial"))).
Proof.
  split; [reflexivity |].
  split; [intros data He; unfold clean_data; now rewrite He |].
  split.
  - intros data values ints Hne Hkw Hcol Hints.
    pose proof (rmap_list_Forall2 _ _ _ Hints) as Hmap.
    split; [| split].
    + rewrite (clean_data_column data keyword values); assumption.
    + rewrite (clean_data_column (df_drop "isPartial" data) keyword values);
        try assumption.
      * unfold df_empty in *. cbn [df_drop index columns].
        apply orb_false_iff in Hne as [Hi Hc]. rewrite Hi. cbn [orb].
        apply bool_decide_eq_false. intros Hdel.
        assert (Hl : delete "isPartial" (columns data) !! keyword = Some values)
          by (rewrite lookup_delete_ne by congruence; exact Hcol).
        rewrite Hdel, lookup_empty in Hl. discriminate.
      * cbn [df_drop columns]. rewrite lookup_delete_ne by congruence. exact Hcol.
    + rewrite (rmap_list_length _ _ _ Hmap). apply last_seven_length.
  - split; [intros s m e; apply float_to_int_truncates |].
    split; [| split].
    + intros data z0 z1 z2 z3 z4 z5 z6 z7 z8 z9 Hne Hkw Hcol.
      rewrite (clean_data_column data keyword _ Hne Hkw Hcol). reflexivity.
    + intros data Hne. now apply clean_data_dropped.
    + intros data partial Hne _.
      rewrite (clean_data_dropped data "isPartial" Hne).
      now rewrite lookup_delete_eq.
Qed.

Lemma clean_data_last_seven_witness :
  clean_data (Some coffee_frame) "coffee" = OK [10; 20; 30; 40; 50; 60; 70] /\
  is_Some (columns coffee_frame !! "isPartial") /\
  clean_data (Some coffee_frame) "isPartial" = Raise (Exception "'isPartial'").
Proof.
  destruct (clean_data_last_seven "coffee") as (_ & _ & _ & _ & Hten & _ & Hdrop).
  assert (Hne : df_empty coffee_frame = false) by (vm_compute; reflexivity).
  split; [| split].
  - apply (Hten coffee_frame 1 2 3 10 20 30 40 50 60 70).
    + exact Hne.
    + discriminate.
    + vm_compute. reflexivity.
  - eexists. vm_compute. reflexivity.
  - eapply Hdrop; [exact Hne |]. vm_compute. reflexivity.
Defined.

(** ** SeriesFetcher *)

Lemma logged_logged (w : World) (a b : list event) :
  logged (logged w a) b = logged w (a ++ b).
Proof. unfold logged; cbn [cache pytrend log]. now rewrite <- app_assoc. Qed.

Lemma logged_with_client (c : nat) (w : World) (a : list event) :
  logged (with_client c w) a = with_client c (logged w a).
Proof. reflexivity. Qed.

Section FetchStep.

Variables (P : Provider) (keyword : string) (max_retries : nat).

Lemma fetch_attempt_success (attempt : nat) (rest : list nat) (w : World)
    (data : option DataFrame) :
  attempt_answer P keyword w = inr data ->
  fetch_attempts P keyword max_retries (attempt :: rest) w =
  (OK data, logged w [Sleep 2; InterestOverTime (pytrend w) keyword]).
Proof.
  unfold attempt_answer. intros Ha.
  cbn [fetch_attempts]. unfold try_except, bind, sleep, emit, query_interest.
  cbn [log pytrend cache]. rewrite Ha. cbn [of_provider].
  unfold logged. now rewrite <- app_assoc.
Qed.

Lemma fetch_attempt_retry (attempt : nat) (rest : list nat) (w : World)
    (msg : string) :
  attempt_answer P keyword w = inl msg ->
  contains "429" msg = true ->
  (attempt < max_retries - 1)%nat ->
  fetch_attempts P keyword max_retries (attempt :: rest) w =
  fetch_attempts P keyword max_retries rest
    (with_client (S (pytrend w))
       (logged w [Sleep 2; InterestOverTime (pytrend w) keyword;
                  Sleep ((attempt + 1) * 10); GetPytrend (S (pytrend w))])).
Proof.
  unfold attempt_answer. intros Ha Hc Hlt.
  cbn [fetch_attempts]. unfold try_except at 1. unfold bind at 1.
  unfold sleep at 1, emit at 1. unfold query_interest at 1.
  cbn [log pytrend cache]. rewrite Ha. cbn [of_provider exn_str].
  rewrite Hc. apply Nat.ltb_lt in Hlt. rewrite Hlt. cbn [andb].
  unfold bind, sleep, emit, get_pytrend, set_pytrend. cbn [log pytrend cache].
  f_equal. unfold with_client, logged. cbn [log pytrend cache].
  now rewrite <- !app_assoc.
Qed.

Lemma fetch_attempt_raise (attempt : nat) (rest : list nat) (w : World)
    (msg : string) :
  attempt_answer P keyword w = inl msg ->
  contains "429" msg = false \/ (max_retries - 1 <= attempt)%nat ->
  fetch_attempts P keyword max_retries (attempt :: rest) w =
  (Raise (Exception msg), logged w [Sleep 2; InterestOverTime (pytrend w) keyword]).
Proof.
  unfold attempt_answer. intros Ha Hc.
  cbn [fetch_attempts]. unfold try_except, bind, sleep, emit, query_interest.
  cbn [log pytrend cache]. rewrite Ha. cbn [of_provider exn_str].
  assert (Hb : contains "429" msg && (attempt <? max_retries - 1)%nat = false).
  { apply andb_false_iff. destruct Hc as [Hc|Hc]; [now left | right].
    now apply Nat.ltb_ge. }
  rewrite Hb. unfold raise, logged. now rewrite <- app_assoc.
Qed.

Lemma fetch_attempts_trace (n : nat) :
  forall (attempt : nat) (w w' : World) (r : result (option DataFrame)),
    (attempt + S n = max_retries)%nat ->
    fetch_attempts P keyword max_retries (seq attempt (S n)) w = (r, w') ->
    exists tr, attempt_trace keyword attempt (pytrend w) tr /\
               log w' = log w ++ tr /\ cache w' = cache w.
Proof.
  induction n as [|n IH]; intros attempt w w' r Hmax Hrun.
  - change (seq attempt 1) with [attempt] in Hrun.
    destruct (attempt_answer P keyword w) as [msg|data] eqn:Ha.
    + rewrite (fetch_attempt_raise attempt [] w msg Ha) in Hrun by (right; lia).
      injection Hrun as _ <-. eexists; split; [apply trace_last |].
      split; reflexivity.
    + rewrite (fetch_attempt_success attempt [] w data Ha) in Hrun.
      injection Hrun as _ <-. eexists; split; [apply trace_last |].
      split; reflexivity.
  - change (seq attempt (S (S n))) with (attempt :: seq (S attempt) (S n)) in Hrun.
    destruct (attempt_answer P keyword w) as [msg|data] eqn:Ha.
    + destruct (contains "429" msg) eqn:Hc.
      * rewrite (fetch_attempt_retry attempt _ w msg Ha Hc) in Hrun by lia.
        apply IH in Hrun; [| lia].
        destruct Hrun as (tr & Htr & Hlog & Hcache).
        eexists; split; [apply trace_retry; exact Htr |].
        split; [| exact Hcache].
        rewrite Hlog. cbn [with_client logged log]. now rewrite <- app_assoc.
      * rewrite (fetch_attempt_raise attempt _ w msg Ha) in Hrun by (now left).
        injection Hrun as _ <-. eexists; split; [apply trace_last |].
        split; reflexivity.
    + rewrite (fetch_attempt_success attempt _ w data Ha) in Hrun.
      injection Hrun as _ <-. eexists; split; [apply trace_last |].
      split; reflexivity.
Qed.

End FetchStep.

(** C4. [fetch_trends_data] with three retries sleeps 2 before every
    attempt; an answer ends the loop; a failure whose text has "429", when
    an attempt remains, is followed by a wait of [(attempt + 1) * 10], a
    fresh client, and the next attempt; any other failure, or a failure of
    the last attempt, is raised to the caller. Rate-limited twice and then
    served, it returns the data after exactly three attempts, with waits of
    10 and 20 between them. *)
Theorem fetch_trends_data_retry (P : Provider) (keyword : string) :
  (forall attempt w, (attempt < 3)%nat ->
     let attempts := seq attempt (3 - attempt) in
     let attempted := logged w [Sleep 2; InterestOverTime (pytrend w) keyword] in
     match attempt_answer P keyword w with
     | inr data => fetch_attempts P keyword 3 attempts w = (OK data, attempted)
     | inl msg =>
         if contains "429" msg && (attempt <? 2)%nat then
           fetch_attempts P keyword 3 attempts w =
           fetch_attempts P keyword 3 (seq (S attempt) (3 - S attempt))
             (with_client (S (pytrend w))
                (logged attempted
                   [Sleep ((attempt + 1) * 10); GetPytrend (S (pytrend w))]))
         else
           fetch_attempts P keyword 3 attempts w = (Raise (Exception msg), attempted)
     end) /\
  (forall w r w',
     fetch_trends_data P keyword 3 w = (r, w') ->
     exists tr, attempt_trace keyword 0 (pytrend w) tr /\
                log w' = log w ++ tr /\ cache w' = cache w) /\
  (forall w m1 m2 data,
     let c := pytrend w in
     let first := [Sleep 2; InterestOverTime c keyword; Sleep 10; GetPytrend (S c)] in
     let second :=
       [Sleep 2; InterestOverTime (S c) keyword; Sleep 20; GetPytrend (S (S c))] in
     interest_over_time P (log w ++ [Sleep 2]) c keyword = inl m1 ->
     contains "429" m1 = true ->
     interest_over_time P (log w ++ first ++ [Sleep 2]) (S c) keyword = inl m2 ->
     contains "429" m2 = true ->
     interest_over_time P (log w ++ first ++ second ++ [Sleep 2]) (S (S c)) keyword
       = inr data ->
     fetch_trends_data P keyword 3 w =
     (OK data,
      with_client (S (S c))
        (logged w (first ++ second ++ [Sleep 2; InterestOverTime (S (S c)) keyword])))).
Proof.
  split; [| split].
  - intros attempt w Hlt attempts attempted.
    assert (Hseq : attempts = attempt :: seq (S attempt) (3 - S attempt)).
    { subst attempts. replace (3 - attempt)%nat with (S (3 - S attempt)) by lia.
      reflexivity. }
    rewrite Hseq. subst attempted.
    destruct (attempt_answer P keyword w) as [msg|data] eqn:Ha.
    + destruct (contains "429" msg) eqn:Hc; cbn [andb].
      * destruct (Nat.ltb_spec attempt 2) as [H2|H2].
        -- rewrite (fetch_attempt_retry P keyword 3 attempt _ w msg Ha Hc) by (cbn; lia).
           rewrite logged_logged. reflexivity.
        -- apply fetch_attempt_raise; [exact Ha | right; cbn; lia].
      * apply fetch_attempt_raise; [exact Ha | now left].
    + now apply fetch_attempt_success.
  - intros w r w' Hrun. unfold fetch_trends_data, range in Hrun.
    apply (fetch_attempts_trace P keyword 3 2 0%nat w w' r); [reflexivity | exact Hrun].
  - intros w m1 m2 data c first second H1 Hc1 H2 Hc2 H3.
    unfold fetch_trends_data, range. change (seq 0 3) with [0%nat; 1%nat; 2%nat].
    rewrite (fetch_attempt_retry P keyword 3 0 _ w m1 H1 Hc1) by (cbn; lia).
    change ((0 + 1) * 10)%nat with 10%nat. fold c.
    set (w1 := with_client (S c) (logged w first)).
    assert (Ha1 : attempt_answer P keyword w1 = inl m2).
    { unfold attempt_answer, w1. cbn [with_client logged log pytrend].
      rewrite <- H2. f_equal. now rewrite <- app_assoc. }
    rewrite (fetch_attempt_retry P keyword 3 1 _ w1 m2 Ha1 Hc2) by (cbn; lia).
    change ((1 + 1) * 10)%nat with 20%nat.
    change (pytrend w1) with (S c).
    set (w2 := with_client (S (S c)) (logged w1 second)).
    assert (Ha2 : attempt_answer P keyword w2 = inr data).
    { unfold attempt_answer, w2, w1. cbn [with_client logged log pytrend].
      rewrite <- H3. f_equal. now rewrite <- !app_assoc. }
    rewrite (fetch_attempt_success P keyword 3 2 _ w2 data Ha2).
    f_equal. unfold w2, w1, logged, with_client. cbn [log pytrend cache].
    now rewrite <- !app_assoc.
Qed.

Lemma fetch_trends_data_retry_witness :
  fetch_trends_data limited_twice "coffee" 3 initial_world =
  (OK (Some coffee_frame),
   {| cache := ∅; pytrend := 2;
      log := [Sleep 2; InterestOverTime 0 "coffee"; Sleep 10; GetPytrend 1;
              Sleep 2; InterestOverTime 1 "coffee"; Sleep 20; GetPytrend 2;
              Sleep 2; InterestOverTime 2 "coffee"] |}).
Proof.
  destruct (fetch_trends_data_retry limited_twice "coffee") as (_ & _ & Hrun).
  apply (Hrun initial_world
           "The request failed: Google returned a response with code 429"
           "The request failed: Google returned a response with code 429"
           (Some coffee_frame)); reflexivity.
Defined.

(** ** What a fetch leaves behind *)

Lemma count_interest_app (a b : list event) :
  count_interest (a ++ b) = (count_interest a + count_interest b)%nat.
Proof.
  induction a as [|ev a IH]; [reflexivity |].
  destruct ev; cbn [count_interest app]; rewrite IH; reflexivity.
Qed.

Lemma fetch_attempts_step (P : Provider) (keyword : string) (max_retries : nat)
    (attempt : nat) (rest : list nat) (w : World) :
  let attempted := logged w [Sleep 2; InterestOverTime (pytrend w) keyword] in
  fetch_attempts P keyword max_retries (attempt :: rest) w =
  match attempt_answer P keyword w with
  | inr data => (OK data, attempted)
  | inl msg =>
      if contains "429" msg && (attempt <? max_retries - 1)%nat then
        fetch_attempts P keyword max_retries rest
          (with_client (S (pytrend w))
             (logged attempted
                [Sleep ((attempt + 1) * 10); GetPytrend (S (pytrend w))]))
      else (Raise (Exception msg), attempted)
  end.
Proof.
  intros attempted. subst attempted.
  destruct (attempt_answer P keyword w) as [msg|data] eqn:Ha.
  - destruct (contains "429" msg) eqn:Hc; cbn [andb].
    + destruct (Nat.ltb_spec attempt (max_retries - 1)) as [Hlt|Hge].
      * rewrite (fetch_attempt_retry P keyword max_retries attempt rest w msg Ha Hc Hlt).
        now rewrite logged_logged.
      * apply fetch_attempt_raise; [exact Ha | now right].
    + apply fetch_attempt_raise; [exact Ha | now left].
  - now apply fetch_attempt_success.
Qed.

Lemma fetch_attempts_facts (P : Provider) (keyword : string) (max_retries : nat)
    (attempts : list nat) :
  forall w r w',
    fetch_attempts P keyword max_retries attempts w = (r, w') ->
    cache w' = cache w /\ plain r /\
    (count_interest (log w') <= count_interest (log w) + length attempts)%nat.
Proof.
  induction attempts as [|attempt rest IH]; intros w r w' Hrun.
  - cbn in Hrun. injection Hrun as <- <-. cbn. repeat split; lia.
  - rewrite fetch_attempts_step in Hrun.
    destruct (attempt_answer P keyword w) as [msg|data].
    + destruct (contains "429" msg && (attempt <? max_retries - 1)%nat).
      * apply IH in Hrun as (Hc & Hp & Hn). split; [exact Hc |]. split; [exact Hp |].
        cbn [with_client logged log] in Hn.
        rewrite !count_interest_app in Hn. cbn [count_interest length] in *. lia.
      * injection Hrun as <- <-. cbn [logged cache log plain length].
        rewrite count_interest_app. cbn [count_interest]. repeat split; lia.
    + injection Hrun as <- <-. cbn [logged cache log plain length].
      rewrite count_interest_app. cbn [count_interest]. repeat split; lia.
Qed.

Lemma fetch_related_keywords_total (P : Provider) (keyword : string) (limit : nat)
    (w : World) :
  exists related,
    fetch_related_keywords P keyword limit w =
    (OK related, logged w [Sleep 1; Suggestions (pytrend w) keyword]).
Proof.
  unfold fetch_related_keywords, try_except, bind, sleep, emit, query_suggestions, ret.
  cbn [log pytrend cache].
  destruct (suggestions P (log w ++ [Sleep 1]) (pytrend w) keyword) as [msg|l];
    cbn [of_provider]; eexists; unfold logged; rewrite <- app_assoc; reflexivity.
Qed.

(** ** Results of the pure stages raise plain exceptions only *)

Lemma rmap_list_plain {A B : Type} (f : A -> result B) (l : list A) :
  (forall a, plain (f a)) -> plain (rmap_list f l).
Proof.
  intros Hf. induction l as [|a l IH]; [exact I |].
  cbn [rmap_list]. specialize (Hf a).
  destruct (f a) as [b|e]; cbn [rbind]; [| exact Hf].
  destruct (rmap_list f l) as [bs|e]; cbn [rbind]; [exact I | exact IH].
Qed.

Lemma py_int_plain (v : cell) : plain (py_int v).
Proof. destruct v as [z|[]|b]; exact I. Qed.

Lemma clean_data_plain `{StrOps} (data : option DataFrame) (keyword : string) :
  plain (clean_data data keyword).
Proof.
  unfold clean_data. destruct data as [data|]; [| exact I].
  destruct (df_empty data); [exact I |].
  set (d := if bool_decide _ then _ else _). clearbody d.
  unfold df_getitem. destruct (columns d !! keyword); cbn [rbind]; [| exact I].
  apply rmap_list_plain, py_int_plain.
Qed.

Lemma py_truediv_plain (a b : Z) : plain (py_truediv a b).
Proof.
  unfold py_truediv. destruct (b =? 0); [exact I |].
  destruct (F64.div _ _); exact I.
Qed.

Lemma calculate_slope_plain (data_points : list Z) : plain (calculate_slope data_points).
Proof.
  unfold calculate_slope. destruct (_ <? _)%nat; [exact I |].
  destruct (_ =? 0); [exact I | apply py_truediv_plain].
Qed.

Lemma py_round_plain (a : num) : plain (py_round a).
Proof. destruct a as [z|[]]; exact I. Qed.

Lemma calculate_score_plain (slope : float) : plain (calculate_score slope).
Proof. apply py_round_plain. Qed.

(** ** AnalysisService *)

Lemma analyze_try_outcome `{StrOps} (P : Provider) (keyword : string) (w : World) :
  forall r w',
    analyze_try P keyword w = (r, w') ->
    (count_interest (log w') <= count_interest (log w) + 3)%nat /\
    match r with
    | Raise e =>
        cache w' = cache w /\
        (e = NotFound keyword \/ e = InsufficientData \/ exists msg, e = Exception msg)
    | OK response => cache w' = <[keyword := response]> (cache w)
    end.
Proof.
  intros r w'. unfold analyze_try, bind at 1.
  destruct (fetch_trends_data P keyword 3 w) as [[raw|e] w1] eqn:Hf;
    apply fetch_attempts_facts in Hf as (Hc & Hp & Hn);
    change (length (range 3)) with 3%nat in Hn.
  2:{ intros [= <- <-]. split; [exact Hn |]. split; [exact Hc |].
      destruct e as [c d|msg]; [destruct Hp | eauto]. }
  destruct (match raw with None => true | Some d => df_empty d end).
  { intros [= <- <-]. split; [exact Hn |]. split; [exact Hc | now left]. }
  unfold bind at 1, lift at 1.
  pose proof (clean_data_plain raw keyword) as Hpc.
  destruct (clean_data raw keyword) as [graph|e].
  2:{ intros [= <- <-]. split; [exact Hn |]. split; [exact Hc |].
      destruct e as [c d|msg]; [destruct Hpc | eauto]. }
  destruct (length graph <? 2)%nat.
  { intros [= <- <-]. split; [exact Hn |]. split; [exact Hc | right; now left]. }
  unfold bind at 1, lift at 1.
  pose proof (calculate_slope_plain graph) as Hps.
  destruct (calculate_slope graph) as [slope|e].
  2:{ intros [= <- <-]. split; [exact Hn |]. split; [exact Hc |].
      destruct e as [c d|msg]; [destruct Hps | eauto]. }
  unfold bind at 1, lift at 1.
  pose proof (calculate_score_plain slope) as Hpr.
  destruct (calculate_score slope) as [sc|e].
  2:{ intros [= <- <-]. split; [exact Hn |]. split; [exact Hc |].
      destruct e as [c d|msg]; [destruct Hpr | eauto]. }
  unfold bind at 1.
  destruct (fetch_related_keywords_total P keyword 3 w1) as [related ->].
  unfold bind, cache_put, ret. cbn [logged cache pytrend log].
  intros [= <- <-]. cbn [cache log]. rewrite Hc. split; [| reflexivity].
  rewrite count_interest_app. cbn [count_interest]. lia.
Qed.

Lemma analyze_empty `{StrOps} (P : Provider) (request_keyword : string) (w : World) :
  normalize request_keyword = "" ->
  analyze P request_keyword w = (Raise InvalidInput, w).
Proof.
  unfold analyze, normalize. intros ->. reflexivity.
Qed.

Lemma analyze_miss `{StrOps} (P : Provider) (request_keyword : string) (w : World) :
  normalize request_keyword <> "" ->
  cache w !! normalize request_keyword = None ->
  analyze P request_keyword w =
  try_except (analyze_try P (normalize request_keyword)) analyze_except w.
Proof.
  unfold analyze, normalize. intros Hne Hmiss.
  rewrite bool_decide_eq_false_2 by exact Hne. now rewrite Hmiss.
Qed.

Lemma analyze_hit `{StrOps} (P : Provider) (request_keyword : string) (w : World)
    (cached : AnalyzeResponse) :
  normalize request_keyword <> "" ->
  cache w !! normalize request_keyword = Some cached ->
  analyze P request_keyword w = (OK cached, w).
Proof.
  unfold analyze, normalize. intros Hne Hhit.
  rewrite bool_decide_eq_false_2 by exact Hne. now rewrite Hhit.
Qed.

(** Every failure of [analyze] is one of the five kinds, and leaves the cache
    as it was. *)
Lemma analyze_raise `{StrOps} (P : Provider) (request_keyword : string) (w w' : World) (e : exn) :
  analyze P request_keyword w = (Raise e, w') ->
  cache w' = cache w /\
  (e = InvalidInput \/ e = NotFound (normalize request_keyword) \/
   e = InsufficientData \/ e = RateLimited \/ exists msg, e = Internal msg) /\
  (normalize request_keyword <> "" -> cache w' !! normalize request_keyword = None).
Proof.
  intros Hrun.
  destruct (decide (normalize request_keyword = "")) as [Hk|Hk].
  { rewrite (analyze_empty P _ w Hk) in Hrun. injection Hrun as <- <-.
    split; [reflexivity |]. split; [now left | congruence]. }
  destruct (cache w !! normalize request_keyword) as [cached|] eqn:Hlook.
  { rewrite (analyze_hit P _ w cached Hk Hlook) in Hrun. discriminate. }
  rewrite (analyze_miss P _ w Hk Hlook) in Hrun. unfold try_except in Hrun.
  destruct (analyze_try P (normalize request_keyword) w) as [[resp|e0] w1] eqn:Htry;
    [discriminate |].
  apply analyze_try_outcome in Htry as (_ & Hc & Hkind).
  assert (Hw : w' = w1 /\
               (e = NotFound (normalize request_keyword) \/ e = InsufficientData \/
                e = RateLimited \/ exists msg, e = Internal msg)).
  { destruct Hkind as [-> | [-> | [msg ->]]]; cbn in Hrun.
    - injection Hrun as <- <-. auto.
    - injection Hrun as <- <-. auto.
    - destruct (contains "429" msg); injection Hrun as <- <-; eauto 6. }
  destruct Hw as [-> Hkinds]. split; [exact Hc |]. split; [tauto |].
  intros _. now rewrite Hc.
Qed.



(** C3. A failing [analyze] leaves the cache exactly as it was; the keyword
    has no entry afterwards, so the next call with it runs the pipeline
    again instead of answering from the cache. *)
Theorem analyze_failure_keeps_cache `{StrOps} (P : Provider) (request_keyword : string)
    (w w' : World) (e : exn) :
  analyze P request_keyword w = (Raise e, w') ->
  cache w' = cache w /\
  (normalize request_keyword <> "" ->
   cache w' !! normalize request_keyword = None /\
   analyze P request_keyword w' =
   try_except (analyze_try P (normalize request_keyword)) analyze_except w').
Proof.
  intros Hrun. apply analyze_raise in Hrun as (Hc & _ & Hnone).
  split; [exact Hc |]. intros Hne. split; [now apply Hnone |].
  apply analyze_miss; [exact Hne | now apply Hnone].
Qed.

Lemma analyze_failure_keeps_cache_witness :
  let failed :=
    {| cache := ∅; pytrend := 0; log := [Sleep 2; InterestOverTime 0 "tea"] |} in
  analyze no_data " Tea " initial_world = (Raise (NotFound "tea"), failed) /\
  cache failed = cache initial_world /\
  cache failed !! "tea" = None.
Proof.
  intros failed.
  assert (Hrun : analyze no_data " Tea " initial_world = (Raise (NotFound "tea"), failed))
    by reflexivity.
  split; [exact Hrun |].
  destruct (analyze_failure_keeps_cache no_data " Tea " initial_world failed
              (NotFound "tea") Hrun) as [Hcache Hnext].
  split; [exact Hcache |].
  destruct Hnext as [Hnone _]; [discriminate | exact Hnone].
Defined.

(** ** Idempotence through the cache *)

Lemma analyze_ok_cached `{StrOps} (P : Provider) (request_keyword : string) (w w1 : World)
    (r : AnalyzeResponse) :
  analyze P request_keyword w = (OK r, w1) ->
  normalize request_keyword <> "" /\
  cache w1 !! normalize request_keyword = Some r /\
  (count_interest (log w1) <= count_interest (log w) + 3)%nat.
Proof.
  intros Hrun.
  destruct (decide (normalize request_keyword = "")) as [Hk|Hk].
  { rewrite (analyze_empty P _ w Hk) in Hrun. discriminate. }
  split; [exact Hk |].
  destruct (cache w !! normalize request_keyword) as [cached|] eqn:Hlook.
  - rewrite (analyze_hit P _ w cached Hk Hlook) in Hrun.
    injection Hrun as <- <-. split; [exact Hlook | lia].
  - rewrite (analyze_miss P _ w Hk Hlook) in Hrun. unfold try_except in Hrun.
    destruct (analyze_try P (normalize request_keyword) w) as [[resp|e0] w2] eqn:Htry.
    + injection Hrun as <- <-.
      apply analyze_try_outcome in Htry as (Hn & Hc).
      split; [| exact Hn]. rewrite Hc. apply lookup_insert_eq.
    + destruct e0 as [c d|msg]; cbn in Hrun; [discriminate |].
      destruct (contains "429" msg); discriminate.
Qed.

(** When the first attempt of a cache miss is answered, the whole call makes
    that one series query. *)
Lemma analyze_first_attempt `{StrOps} (P : Provider) (request_keyword : string) (w w1 : World)
    (r : AnalyzeResponse) (data : option DataFrame) :
  cache w !! normalize request_keyword = None ->
  attempt_answer P (normalize request_keyword) w = inr data ->
  analyze P request_keyword w = (OK r, w1) ->
  log w1 = log w ++ [Sleep 2; InterestOverTime (pytrend w) (normalize request_keyword);
                     Sleep 1; Suggestions (pytrend w) (normalize request_keyword)].
Proof.
  intros Hlook Ha Hrun.
  destruct (analyze_ok_cached P _ _ _ _ Hrun) as (Hk & _).
  rewrite (analyze_miss P _ w Hk Hlook) in Hrun. unfold try_except in Hrun.
  destruct (analyze_try P (normalize request_keyword) w) as [[resp|e0] w2] eqn:Htry.
  2:{ destruct e0 as [c d|msg]; cbn in Hrun; [discriminate |].
      destruct (contains "429" msg); discriminate. }
  injection Hrun as <- <-. revert Htry.
  unfold analyze_try, bind at 1, fetch_trends_data.
  change (range 3) with [0%nat; 1%nat; 2%nat].
  rewrite (fetch_attempt_success P _ 3 0 _ w data Ha).
  destruct (match data with None => true | Some d => df_empty d end); [discriminate |].
  unfold bind at 1, lift at 1.
  destruct (clean_data data (normalize request_keyword)) as [graph|e]; [| discriminate].
  destruct (length graph <? 2)%nat; [discriminate |].
  unfold bind at 1, lift at 1.
  destruct (calculate_slope graph) as [slope|e]; [| discriminate].
  unfold bind at 1, lift at 1.
  destruct (calculate_score slope) as [sc|e]; [| discriminate].
  unfold bind at 1.
  match goal with
  | |- context [fetch_related_keywords ?P ?k ?l ?w] =>
      destruct (fetch_related_keywords_total P k l w) as [related ->]
  end.
  unfold bind, cache_put, ret. cbn [logged cache pytrend log].
  intros [= _ <-]. cbn [log]. now rewrite <- app_assoc.
Qed.

(** C2, as the code has it. Once [analyze] has succeeded for a keyword, a
    further call with any keyword of the same normal form returns the same
    response and changes nothing: no cache write, no new client, no sleep and
    no provider call. The series queries of both calls together are those of
    the first: one when its first attempt is answered, at most three when it
    is rate-limited and retried. *)
Theorem analyze_cached_idempotent `{StrOps} (P : Provider) (k1 k2 : string) (w w1 : World)
    (r : AnalyzeResponse) :
  normalize k1 = normalize k2 ->
  analyze P k1 w = (OK r, w1) ->
  analyze P k2 w1 = (OK r, w1) /\
  analyze P k1 w1 = (OK r, w1) /\
  (count_interest (log w1) <= count_interest (log w) + 3)%nat /\
  (forall data,
      cache w !! normalize k1 = None ->
      attempt_answer P (normalize k1) w = inr data ->
      count_interest (log w1) = (count_interest (log w) + 1)%nat).
Proof.
  intros Hsame Hrun.
  destruct (analyze_ok_cached P k1 w w1 r Hrun) as (Hk & Hhit & Hn).
  split; [| split; [| split]].
  - apply analyze_hit; rewrite <- Hsame; assumption.
  - apply analyze_hit; assumption.
  - exact Hn.
  - intros data Hmiss Ha.
    rewrite (analyze_first_attempt P k1 w w1 r data Hmiss Ha Hrun).
    rewrite count_interest_app. cbn [count_interest]. lia.
Qed.

Lemma analyze_cached_idempotent_witness :
  exists r w1,
    analyze limited_twice "Coffee" initial_world = (OK r, w1) /\
    analyze limited_twice " coffee " w1 = (OK r, w1).
Proof.
  destruct (analyze limited_twice "Coffee" initial_world) as [[r|e] w1] eqn:Hrun;
    [| vm_compute in Hrun; discriminate].
  exists r, w1. split; [reflexivity |].
  apply (analyze_cached_idempotent limited_twice "Coffee" " coffee "
           initial_world w1 r); [reflexivity | exact Hrun].
Defined.

(** C2, as stated, fails: served after one rate-limited attempt, the two
    calls return the same response, and the provider has been queried for
    the series twice. *)
Lemma analyze_queried_once_counterexample :
  normalize "Coffee" = normalize " coffee " /\
  exists r w1,
    analyze limited_once "Coffee" initial_world = (OK r, w1) /\
    analyze limited_once " coffee " w1 = (OK r, w1) /\
    count_interest (log w1) = 2%nat /\
    ~ (count_interest (log w1) <= 1)%nat.
Proof.
  split; [reflexivity |].
  eexists; eexists. split; [vm_compute; reflexivity |].
  split; [vm_compute; reflexivity |].
  split; [vm_compute; reflexivity | vm_compute; lia].
Qed.

(** ** TrendClassifier: slope *)

Lemma sum_snoc (l : list Z) (x : Z) : sum (l ++ [x]) = sum l + x.
Proof. unfold sum. now rewrite fold_left_app. Qed.

Lemma sum_map_seq (f : nat -> Z) (n : nat) : sum (map f (seq 0 n)) = big_sum f n.
Proof.
  induction n as [|n IH]; [reflexivity |].
  rewrite seq_S, map_app. cbn [map]. rewrite sum_snoc, IH. reflexivity.
Qed.

Lemma big_sum_ext (f g : nat -> Z) (n : nat) :
  (forall i, (i < n)%nat -> f i = g i) -> big_sum f n = big_sum g n.
Proof.
  induction n as [|n IH]; intros Hfg; [reflexivity |].
  cbn [big_sum]. rewrite IH, Hfg by (intros; try apply Hfg; lia). reflexivity.
Qed.

Lemma sum_big_sum (y : list Z) : sum y = big_sum (fun i => nth i y 0) (length y).
Proof.
  induction y as [|x l IH] using rev_ind; [reflexivity |].
  rewrite sum_snoc, length_app, Nat.add_1_r. cbn [big_sum].
  rewrite app_nth2, Nat.sub_diag by lia. cbn [nth]. f_equal.
  rewrite IH. apply big_sum_ext. intros i Hi. now rewrite app_nth1.
Qed.

Lemma nth_range (n i : nat) :
  (i < n)%nat -> nth i (map Z.of_nat (range n)) 0 = Z.of_nat i.
Proof.
  intros Hi. unfold range.
  rewrite (nth_indep _ 0 (Z.of_nat 0)) by (rewrite length_map, length_seq; exact Hi).
  rewrite map_nth, seq_nth by exact Hi. reflexivity.
Qed.

Lemma sum_indices (n : nat) : 2 * big_sum (fun i => Z.of_nat i) n = Z.of_nat n * (Z.of_nat n - 1).
Proof. induction n as [|n IH]; [reflexivity |]. cbn [big_sum]. nia. Qed.

Lemma sum_squares (n : nat) :
  6 * big_sum (fun i => Z.of_nat i ^ 2) n =
  (Z.of_nat n - 1) * Z.of_nat n * (2 * Z.of_nat n - 1).
Proof. induction n as [|n IH]; [reflexivity |]. cbn [big_sum]. nia. Qed.

Lemma ols_denominator_closed (n : nat) :
  12 * ols_denominator n = Z.of_nat n ^ 2 * (Z.of_nat n ^ 2 - 1).
Proof.
  unfold ols_denominator.
  pose proof (sum_indices n) as H1. pose proof (sum_squares n) as H2.
  set (a := big_sum (fun i => Z.of_nat i) n) in *.
  set (b := big_sum (fun i => Z.of_nat i ^ 2) n) in *.
  set (k := Z.of_nat n) in *.
  replace (12 * (k * b - a ^ 2)) with (2 * k * (6 * b) - 3 * (2 * a) ^ 2) by ring.
  rewrite H1, H2. ring.
Qed.

Lemma ols_denominator_pos (n : nat) : (2 <= n)%nat -> 0 < ols_denominator n.
Proof.
  intros Hn. pose proof (ols_denominator_closed n) as Hc.
  assert (0 < Z.of_nat n ^ 2 * (Z.of_nat n ^ 2 - 1)) by nia. lia.
Qed.

Lemma calculate_slope_sums (y : list Z) :
  (2 <= length y)%nat ->
  calculate_slope y = py_truediv (ols_numerator y) (ols_denominator (length y)).
Proof.
  intros Hn. unfold calculate_slope.
  destruct (Nat.ltb_spec (length y) 2) as [Hlt|_]; [lia |].
  assert (Hx : sum (map Z.of_nat (range (length y))) =
               big_sum (fun i => Z.of_nat i) (length y)) by apply sum_map_seq.
  assert (Hxx : sum (map (fun xi => xi ^ 2) (map Z.of_nat (range (length y)))) =
                big_sum (fun i => Z.of_nat i ^ 2) (length y)).
  { rewrite map_map. apply sum_map_seq. }
  assert (Hxy : sum (map (fun i => nth i (map Z.of_nat (range (length y))) 0 * nth i y 0)
                       (range (length y))) =
                big_sum (fun i => Z.of_nat i * nth i y 0) (length y)).
  { unfold range at 2. rewrite sum_map_seq. apply big_sum_ext.
    intros i Hi. now rewrite nth_range. }
  rewrite Hx, Hxx, Hxy, (sum_big_sum y).
  fold (ols_denominator (length y)). fold (ols_numerator y).
  pose proof (ols_denominator_pos (length y) Hn) as Hpos.
  destruct (Z.eqb_spec (ols_denominator (length y)) 0) as [H0|_]; [lia | reflexivity].
Qed.






(** ** TrendClassifier: ties of the score *)

Lemma result_is_eq (r : result Z) (z : Z) : result_is r z = true -> r = OK z.
Proof. destruct r as [v|e]; cbn; [| discriminate]. now intros ->%Z.eqb_eq. Qed.

Lemma ties_checked :
  forallb (fun k =>
             result_is (clamp_round py_round (half_after k))
                       (if Z.even k then k else k + 1) &&
             result_is (clamp_round py_round_half_up (half_after k)) (k + 1))
          (map Z.of_nat (seq 0 100)) = true.
Proof. vm_compute. reflexivity. Qed.

Lemma ties (k : Z) :
  0 <= k <= 99 ->
  clamp_round py_round (half_after k) = OK (if Z.even k then k else k + 1) /\
  clamp_round py_round_half_up (half_after k) = OK (k + 1).
Proof.
  intros Hk. pose proof ties_checked as Hall.
  rewrite forallb_forall in Hall. specialize (Hall k).
  apply andb_true_iff in Hall as [H1 H2].
  - split; now apply result_is_eq.
  - apply in_map_iff. exists (Z.to_nat k). split; [lia |].
    apply in_seq. lia.
Qed.

(** C10, as the code has it. Where the sum [slope * 12 + 50] is [k + 0.5]
    with [0 <= k <= 99], the score is the even one of [k] and [k + 1]:
    [calculate_score 0.125 = 52] from 51.5 and [calculate_score 0.375 = 54]
    from 54.5. Rounding halves up would give [k + 1], which differs from the
    score exactly when [k] is even: it differs at 0.375 and agrees at
    0.125. *)
Theorem calculate_score_ties_to_even :
  (forall (slope : float) (k : Z),
      0 <= k <= 99 ->
      F64.add (F64.mul slope (F64.of_int 12)) (F64.of_int 50) = half_after k ->
      calculate_score slope = OK (if Z.even k then k else k + 1) /\
      calculate_score_half_up slope = OK (k + 1) /\
      (calculate_score_half_up slope = calculate_score slope <-> Z.even k = false)) /\
  (F64.add (F64.mul f0_125 (F64.of_int 12)) (F64.of_int 50) = half_after 51 /\
   calculate_score f0_125 = OK 52 /\ calculate_score_half_up f0_125 = OK 52) /\
  (F64.add (F64.mul f0_375 (F64.of_int 12)) (F64.of_int 50) = half_after 54 /\
   calculate_score f0_375 = OK 54 /\ calculate_score_half_up f0_375 = OK 55) /\
  (OK f0_125 = py_truediv 1 8 /\ OK f0_375 = py_truediv 3 8).
Proof.
  split; [| repeat split; vm_compute; reflexivity].
  intros slope k Hk Hsum.
  destruct (ties k Hk) as [Heven Hup].
  unfold calculate_score, calculate_score_half_up. rewrite Hsum.
  fold (clamp_round py_round (half_after k)).
  fold (clamp_round py_round_half_up (half_after k)).
  rewrite Heven, Hup. split; [reflexivity |]. split; [reflexivity |].
  destruct (Z.even k); split; intros H; try reflexivity; try discriminate.
  injection H as H. lia.
Qed.

Lemma calculate_score_ties_to_even_witness :
  calculate_score f0_375 = OK 54.
Proof.
  destruct calculate_score_ties_to_even as (Hall & _).
  destruct (Hall f0_375 54) as (Hscore & _);
    [lia | vm_compute; reflexivity | exact Hscore].
Defined.

(** C10, as stated, fails at its first example: at 0.125, where the sum is
    51.5, rounding halves up gives 52, the very score of the code. *)
Lemma half_up_agrees_counterexample :
  F64.add (F64.mul f0_125 (F64.of_int 12)) (F64.of_int 50) = half_after 51 /\
  calculate_score f0_125 = OK 52 /\
  ~ (calculate_score_half_up f0_125 <> calculate_score f0_125).
Proof.
  split; [vm_compute; reflexivity |]. split; [vm_compute; reflexivity |].
  intros H. apply H. vm_compute. reflexivity.
Qed.

(** ** Rounding of binary64 operations *)

(** *** Powers of two and digit counts *)

Lemma pow2_pos (n : Z) : 0 <= n -> 0 < 2 ^ n.
Proof. intros. apply Z.pow_pos_nonneg; lia. Qed.

Lemma pow2_succ (n : Z) : 0 <= n -> 2 ^ (n + 1) = 2 * 2 ^ n.
Proof. intros. rewrite Z.pow_add_r by lia. lia. Qed.

Lemma digits2_pos_size (p : positive) : digits2_pos p = Pos.size p.
Proof. induction p as [p IH|p IH|]; cbn [digits2_pos Pos.size]; now rewrite ?IH. Qed.

Lemma digits2_log2 (p : positive) : Zpos (digits2_pos p) = Z.log2 (Zpos p) + 1.
Proof.
  rewrite digits2_pos_size.
  destruct p as [p|p|]; cbn [Pos.size Z.log2]; lia.
Qed.

Lemma digits2_bounds (p : positive) :
  2 ^ (Zpos (digits2_pos p) - 1) <= Zpos p < 2 ^ Zpos (digits2_pos p).
Proof.
  rewrite digits2_log2. replace (Z.log2 (Zpos p) + 1 - 1) with (Z.log2 (Zpos p)) by lia.
  replace (Z.log2 (Z.pos p) + 1) with (Z.succ (Z.log2 (Zpos p))) by lia.
  apply Z.log2_spec. lia.
Qed.

(** *** Right shifts with round and sticky bits *)

Lemma iter_pos_invariant {A : Type} (f : A -> A) (Inv : Z -> A -> Prop) :
  (forall j x, 0 <= j -> Inv j x -> Inv (j + 1) (f x)) ->
  forall p j x, 0 <= j -> Inv j x -> Inv (j + Zpos p) (SpecFloat.iter_pos f p x).
Proof.
  intros Hstep. induction p as [p IH|p IH|]; intros j x Hj Hx; cbn [SpecFloat.iter_pos].
  - replace (j + Zpos p~1) with (j + 1 + Zpos p + Zpos p) by lia.
    apply IH; [lia |]. apply IH; [lia |]. now apply Hstep.
  - replace (j + Zpos p~0) with (j + Zpos p + Zpos p) by lia.
    apply IH; [lia |]. now apply IH.
  - now apply Hstep.
Qed.

Lemma shr_1_nonneg (m : Z) (r s : bool) :
  0 <= m ->
  shr_1 (Build_shr_record m r s) = Build_shr_record (m / 2) (Z.odd m) (r || s).
Proof.
  intros Hm. unfold shr_1.
  destruct m as [|[p|p|]|p]; try lia; try reflexivity.
  - (* 2p+1 *) f_equal. change (Zpos p~1) with (2 * Zpos p + 1).
    apply (Z.div_unique _ _ _ 1); lia.
  - f_equal. change (Zpos p~0) with (2 * Zpos p).
    apply (Z.div_unique _ _ _ 0); lia.
Qed.

Lemma mod_pow2_succ (M j : Z) :
  0 <= j -> M mod 2 ^ (j + 1) = M mod 2 ^ j + (M / 2 ^ j) mod 2 * 2 ^ j.
Proof.
  intros Hj. pose proof (pow2_pos j Hj) as Ht.
  rewrite pow2_succ by lia.
  pose proof (Z.div_mod M (2 ^ j) ltac:(lia)) as H1.
  pose proof (Z.mod_pos_bound M (2 ^ j) Ht) as H2.
  pose proof (Z.div_mod (M / 2 ^ j) 2 ltac:(lia)) as H3.
  pose proof (Z.mod_pos_bound (M / 2 ^ j) 2 ltac:(lia)) as H4.
  symmetry. apply (Z.mod_unique _ _ (M / 2 ^ j / 2)); [left; nia | nia].
Qed.

Lemma shr_inv_start (M : Z) : shr_inv M 0 (Build_shr_record M false false).
Proof.
  unfold shr_inv. cbn [shr_m shr_r shr_s]. rewrite Z.pow_0_r, Z.div_1_r, Z.mod_1_r.
  repeat split; intros; try lia; try discriminate.
Qed.

Lemma shr_inv_step (M j : Z) (mrs : shr_record) :
  0 <= M -> 0 <= j -> shr_inv M j mrs -> shr_inv M (j + 1) (shr_1 mrs).
Proof.
  intros HM Hj (Hm & Hr & Hs). destruct mrs as [m r s]. cbn [shr_m shr_r shr_s] in *.
  pose proof (pow2_pos j Hj) as Ht.
  assert (0 <= m) by (subst m; apply Z.div_pos; lia).
  rewrite shr_1_nonneg by assumption. unfold shr_inv. cbn [shr_m shr_r shr_s].
  rewrite mod_pow2_succ, pow2_succ by lia. rewrite <- Hm.
  pose proof (Z.mod_pos_bound M (2 ^ j) Ht) as Hb.
  rewrite Zodd_mod.
  pose proof (Z.mod_pos_bound m 2 ltac:(lia)) as Hc.
  set (b := M mod 2 ^ j) in *. set (t := 2 ^ j) in *.
  split; [| split].
  - rewrite Hm, Z.div_div by lia. f_equal. lia.
  - assert (Hcase : m mod 2 = 0 \/ m mod 2 = 1) by lia.
    destruct Hcase as [-> | ->]; cbn [Z.eqb Pos.eqb]; split; intros; try lia;
      try discriminate; reflexivity.
  - rewrite orb_true_iff, Hr, Hs.
    assert (Hcase : m mod 2 = 0 \/ m mod 2 = 1) by lia.
    destruct Hcase as [-> | ->]; lia.
Qed.

(** Shifting an exact mantissa [n] places leaves its quotient by [2 ^ n]
    with the bits that locate the remainder. *)
Lemma shr_exact (M e n : Z) :
  0 <= M -> 0 < n ->
  exists mrs, shr (Build_shr_record M false false) e n = (mrs, e + n) /\ shr_inv M n mrs.
Proof.
  intros HM Hn. destruct n as [|p|p]; try lia. cbn [shr].
  eexists; split; [reflexivity |].
  change (Zpos p) with (0 + Zpos p).
  apply (iter_pos_invariant shr_1 (shr_inv M)); [| lia | apply shr_inv_start].
  intros j x Hj. now apply shr_inv_step.
Qed.

(** [round_nearest_even] on such a record is [rhe]. *)
Lemma round_shr_inv (M n : Z) (mrs : shr_record) :
  0 <= n -> shr_inv M n mrs ->
  round_nearest_even (shr_m mrs) (loc_of_shr_record mrs) = rhe M n.
Proof.
  intros Hn (Hm & Hr & Hs). pose proof (pow2_pos n Hn) as Ht.
  pose proof (Z.mod_pos_bound M (2 ^ n) Ht) as Hb.
  destruct mrs as [m r s]. cbn [shr_m shr_r shr_s] in *. unfold rhe. rewrite <- Hm.
  destruct r, s; cbn [loc_of_shr_record round_nearest_even];
    destruct (Z.compare_spec (2 * (M mod 2 ^ n)) (2 ^ n)) as [Hc|Hc|Hc];
    try reflexivity; exfalso;
    repeat match goal with
           | H : _ <-> _ |- _ => destruct H
           end;
    try (assert (true = true) by reflexivity); intuition (try lia; try discriminate).
Qed.

(** *** [binary_round_aux] on an exact operand *)

Lemma fexp64_eq (x : Z) : fexp64 x = Z.max (x - 53) (-1074).
Proof. reflexivity. Qed.

Lemma Zdigits2_pos (p : positive) : Zdigits2 (Zpos p) = Z.log2 (Zpos p) + 1.
Proof. cbn [Zdigits2]. apply digits2_log2. Qed.

Lemma Zdigits2_unique (q k : Z) :
  0 < k -> 2 ^ (k - 1) <= q < 2 ^ k -> Zdigits2 q = k.
Proof.
  intros Hk Hq. assert (0 < 2 ^ (k - 1)) by (apply pow2_pos; lia).
  destruct q as [|p|p]; try lia.
  rewrite Zdigits2_pos. rewrite (Z.log2_unique (Zpos p) (k - 1)); [lia | lia |].
  replace (Z.succ (k - 1)) with k by lia. exact Hq.
Qed.

Lemma shr_fexp_noshift (q e1 : Z) :
  fexp64 (Zdigits2 q + e1) - e1 <= 0 ->
  shr_fexp F64.prec F64.emax q e1 loc_Exact = (Build_shr_record q false false, e1).
Proof.
  intros Hle. unfold shr_fexp, shr. cbn [shr_record_of_loc].
  destruct (fexp F64.prec F64.emax (Zdigits2 q + e1) - e1) as [|p|p] eqn:Hs;
    try reflexivity; lia.
Qed.

(** When no left shift is needed, [binary_round_aux] rounds the mantissa at
    the exponent [fexp64] gives and renormalises. *)
Lemma binary_round_aux_exact (sx : bool) (p : positive) (E : Z) :
  let e1 := fexp64 (Zpos (digits2_pos p) + E) in
  0 <= e1 - E ->
  binary_round_aux F64.prec F64.emax sx (Zpos p) E loc_Exact =
  finish sx (rhe (Zpos p) (e1 - E)) e1.
Proof.
  intros e1 Hj. unfold binary_round_aux, finish.
  destruct (Z.eq_dec (e1 - E) 0) as [H0|H0].
  - rewrite (shr_fexp_noshift (Zpos p) E) by (cbn [Zdigits2]; fold e1; lia).
    cbn [shr_m loc_of_shr_record round_nearest_even].
    rewrite H0. replace e1 with E by lia.
    unfold rhe. rewrite Z.pow_0_r, Z.div_1_r, Z.mod_1_r. reflexivity.
  - destruct (shr_exact (Zpos p) E (e1 - E)) as (mrs & Hshr & Hinv); [lia | lia |].
    unfold shr_fexp at 1. cbn [Zdigits2 shr_record_of_loc]. fold e1. rewrite Hshr.
    rewrite (round_shr_inv (Zpos p) (e1 - E) mrs) by (lia || exact Hinv).
    replace (E + (e1 - E)) with e1 by lia. reflexivity.
Qed.

Lemma canonical_iff (m : positive) (e : Z) :
  canonical_mantissa F64.prec F64.emax m e = true <->
  fexp64 (Zdigits2 (Zpos m) + e) = e.
Proof. unfold canonical_mantissa. cbn [Zdigits2]. apply Z.eqb_eq. Qed.

Lemma finish_noshift (sx : bool) (m : positive) (e1 : Z) :
  fexp64 (Zdigits2 (Zpos m) + e1) = e1 ->
  finish sx (Zpos m) e1 =
  (if e1 <=? 971 then S754_finite sx m e1 else S754_infinity sx) /\
  canonical_mantissa F64.prec F64.emax m e1 = true.
Proof.
  intros Hc. split; [| now apply canonical_iff].
  unfold finish. rewrite shr_fexp_noshift by lia. reflexivity.
Qed.

(** The renormalised result is zero, or a canonical mantissa of the same
    value one exponent higher at most, or an overflow. *)
Lemma finish_spec (sx : bool) (q x : Z) :
  let e1 := fexp64 x in
  let w := x - e1 in
  0 <= q -> q <= 2 ^ (Z.max w 0) -> (1 <= w -> 2 ^ (w - 1) <= q) ->
  (q = 0 /\ finish sx q e1 = S754_zero sx) \/
  (0 < q /\ exists m e2,
      finish sx q e1 =
        (if e2 <=? 971 then S754_finite sx m e2 else S754_infinity sx) /\
      canonical_mantissa F64.prec F64.emax m e2 = true /\
      e1 <= e2 <= e1 + 1 /\ Zpos m * 2 ^ (e2 - e1) = q).
Proof.
  intros e1 w Hq0 Hqw Hqlow.
  assert (He1 : e1 = Z.max (x - 53) (-1074)) by reflexivity.
  destruct (Z.eq_dec q 0) as [-> | Hne]; [left | right].
  { split; [reflexivity |]. unfold finish.
    rewrite shr_fexp_noshift; [reflexivity |].
    cbn [Zdigits2]. rewrite fexp64_eq. lia. }
  split; [lia |].
  destruct (Z.lt_ge_cases q (2 ^ Z.max w 0)) as [Hlt|Hge].
  - (* no carry: q has exactly w digits *)
    assert (Hw : 1 <= w).
    { destruct (Z.lt_ge_cases w 1) as [Hw|Hw]; [| exact Hw].
      rewrite Z.max_r, Z.pow_0_r in Hlt by lia. lia. }
    rewrite Z.max_l in Hlt by lia.
    assert (Hd : Zdigits2 q = w) by (apply Zdigits2_unique; lia).
    destruct q as [|m|m]; try lia.
    destruct (finish_noshift sx m e1) as [Hf Hc].
    { rewrite Hd. replace (w + e1) with x by (unfold w; lia). reflexivity. }
    exists m, e1. rewrite Hf, Hc, Z.sub_diag, Z.pow_0_r. repeat split; lia.
  - assert (Hq : q = 2 ^ Z.max w 0) by lia. clear Hge Hqw.
    destruct (Z.lt_ge_cases w 1) as [Hw|Hw].
    + (* the value rounds up to the least subnormal *)
      rewrite Z.max_r, Z.pow_0_r in Hq by lia. subst q.
      destruct (finish_noshift sx 1 e1) as [Hf Hc].
      { cbn [Zdigits2 digits2_pos]. rewrite fexp64_eq. unfold w in Hw. lia. }
      exists 1%positive, e1. rewrite Hf, Hc, Z.sub_diag, Z.pow_0_r. repeat split; lia.
    + rewrite Z.max_l in Hq by lia.
      assert (Hp : 0 < 2 ^ w) by (apply pow2_pos; lia).
      assert (Hd : Zdigits2 q = w + 1).
      { apply Zdigits2_unique; [lia |]. replace (w + 1 - 1) with w by lia.
        rewrite pow2_succ by lia. lia. }
      destruct (Z.lt_ge_cases (x - 53) (-1074)) as [Hsub|Hnorm].
      * (* carry inside the subnormal range *)
        destruct q as [|m|m]; try lia.
        destruct (finish_noshift sx m e1) as [Hf Hc].
        { rewrite Hd, fexp64_eq. unfold w. lia. }
        exists m, e1. rewrite Hf, Hc, Z.sub_diag, Z.pow_0_r. repeat split; lia.
      * (* carry to the next binade *)
        assert (Hw53 : w = 53) by (unfold w; lia).
        assert (Hx : x = e1 + 53) by lia.
        unfold finish, shr_fexp.
        rewrite Hd. replace (fexp F64.prec F64.emax (w + 1 + e1) - e1) with 1
          by (change (fexp F64.prec F64.emax (w + 1 + e1)) with (fexp64 (w + 1 + e1));
              rewrite fexp64_eq; lia).
        cbn [shr_record_of_loc shr SpecFloat.iter_pos].
        rewrite shr_1_nonneg by lia. cbn [shr_m].
        assert (Hhalf : q / 2 = 2 ^ 52).
        { rewrite Hq, Hw53. reflexivity. }
        rewrite Hhalf. change (2 ^ 52) with (Zpos 4503599627370496).
        exists 4503599627370496%positive, (e1 + 1).
        split; [reflexivity |]. split.
        { apply canonical_iff. cbn [Zdigits2]. rewrite fexp64_eq.
          change (Zpos (digits2_pos 4503599627370496)) with 53. lia. }
        split; [lia |]. replace (e1 + 1 - e1) with 1 by lia.
        rewrite Hq, Hw53. reflexivity.
Qed.

(** *** Rounding a quotient to nearest, ties to even *)

Lemma rhe_char (N j q r : Z) :
  0 <= j -> N = 2 ^ j * q + r -> 0 <= r < 2 ^ j -> rhe N j = rhe_of (2 ^ j) q r.
Proof.
  intros Hj HN Hr. unfold rhe, rhe_of.
  assert (Hq : N / 2 ^ j = q) by (symmetry; apply (Z.div_unique_pos N (2 ^ j) q r); lia).
  assert (Hm : N mod 2 ^ j = r) by (symmetry; apply (Z.mod_unique_pos N (2 ^ j) q r); lia).
  now rewrite Hq, Hm.
Qed.

Lemma rhe_decompose (N j : Z) :
  0 <= j ->
  exists q r, N = 2 ^ j * q + r /\ 0 <= r < 2 ^ j /\ rhe N j = rhe_of (2 ^ j) q r.
Proof.
  intros Hj. pose proof (pow2_pos j Hj) as Ht.
  exists (N / 2 ^ j), (N mod 2 ^ j).
  pose proof (Z.div_mod N (2 ^ j) ltac:(lia)).
  pose proof (Z.mod_pos_bound N (2 ^ j) Ht).
  repeat split; try lia; reflexivity.
Qed.

Lemma rhe_of_bounds (t q r : Z) : q <= rhe_of t q r <= q + 1.
Proof.
  unfold rhe_of. destruct (2 * r ?= t); [destruct (Z.even q) | |]; lia.
Qed.

Lemma rhe_of_exact (t q : Z) : 0 < t -> rhe_of t q 0 = q.
Proof.
  intros Ht. unfold rhe_of.
  destruct (Z.compare_spec (2 * 0) t); lia.
Qed.

Lemma rhe_exact (a j : Z) : 0 <= j -> rhe (a * 2 ^ j) j = a.
Proof.
  intros Hj. pose proof (pow2_pos j Hj) as Ht.
  rewrite (rhe_char (a * 2 ^ j) j a 0) by lia. now apply rhe_of_exact.
Qed.

Lemma rhe_mono (N N' j : Z) : 0 <= j -> N <= N' -> rhe N j <= rhe N' j.
Proof.
  intros Hj Hle. pose proof (pow2_pos j Hj) as Ht.
  destruct (rhe_decompose N j Hj) as (q & r & HN & Hr & ->).
  destruct (rhe_decompose N' j Hj) as (q' & r' & HN' & Hr' & ->).
  set (t := 2 ^ j) in *.
  assert (Hqq : q <= q') by nia.
  destruct (Z.eq_dec q q') as [<- | Hne].
  - assert (r <= r') by lia. unfold rhe_of.
    destruct (Z.compare_spec (2 * r) t), (Z.compare_spec (2 * r') t);
      destruct (Z.even q); lia.
  - pose proof (rhe_of_bounds t q r). pose proof (rhe_of_bounds t q' r'). lia.
Qed.

Lemma rhe_scale (N j k : Z) : 0 <= j -> 0 <= k -> rhe (N * 2 ^ k) (j + k) = rhe N j.
Proof.
  intros Hj Hk. pose proof (pow2_pos j Hj) as Ht. pose proof (pow2_pos k Hk) as Hu.
  destruct (rhe_decompose N j Hj) as (q & r & HN & Hr & ->).
  rewrite (rhe_char (N * 2 ^ k) (j + k) q (r * 2 ^ k)); try lia.
  - unfold rhe_of. rewrite Z.pow_add_r by lia.
    set (t := 2 ^ j) in *. set (u := 2 ^ k) in *.
    destruct (Z.compare_spec (2 * r) t), (Z.compare_spec (2 * (r * u)) (t * u));
      try reflexivity; nia.
  - rewrite Z.pow_add_r, HN by lia. ring.
  - rewrite Z.pow_add_r by lia. nia.
Qed.

Lemma rhe_upper (N j a : Z) : 0 <= j -> N < a * 2 ^ j -> rhe N j <= a.
Proof.
  intros Hj Hlt. pose proof (pow2_pos j Hj) as Ht.
  destruct (rhe_decompose N j Hj) as (q & r & HN & Hr & ->).
  pose proof (rhe_of_bounds (2 ^ j) q r). nia.
Qed.

Lemma rhe_lower (N j a : Z) : 0 <= j -> a * 2 ^ j <= N -> a <= rhe N j.
Proof.
  intros Hj Hle. rewrite <- (rhe_exact a j Hj). now apply rhe_mono.
Qed.

Lemma rhe_shift (m n : Z) : 0 <= n -> F64.round_half_even_shift m n = rhe m n.
Proof.
  intros Hn. unfold F64.round_half_even_shift, rhe.
  rewrite Z.shiftr_div_pow2, !Z.shiftl_mul_pow2, Z.mul_1_l by lia.
  pose proof (pow2_pos n Hn).
  replace (m - m / 2 ^ n * 2 ^ n) with (m mod 2 ^ n); [reflexivity |].
  rewrite Z.mod_eq by lia. ring.
Qed.

Lemma pow2_le (a b : Z) : 0 <= a <= b -> 2 ^ a <= 2 ^ b.
Proof. intros. apply Z.pow_le_mono_r; lia. Qed.

Lemma pow2_lt (a b : Z) : 0 <= a < b -> 2 ^ a < 2 ^ b.
Proof. intros. apply Z.pow_lt_mono_r; lia. Qed.

Lemma pow2_split (a b : Z) : 0 <= a -> 0 <= b -> 2 ^ (a + b) = 2 ^ a * 2 ^ b.
Proof. intros. apply Z.pow_add_r; lia. Qed.

(** The rounded mantissa of an exact positive operand. *)
Lemma rhe_mantissa_bounds (p : positive) (E : Z) :
  let x := Zpos (digits2_pos p) + E in
  let e1 := fexp64 x in
  let w := x - e1 in
  0 <= e1 - E ->
  0 <= rhe (Zpos p) (e1 - E) <= 2 ^ Z.max w 0 /\
  (1 <= w -> 2 ^ (w - 1) <= rhe (Zpos p) (e1 - E)).
Proof.
  intros x e1 w Hj. pose proof (digits2_bounds p) as [Hlo Hhi].
  set (d := Zpos (digits2_pos p)) in *. assert (Hd : 1 <= d) by (unfold d; lia).
  set (j := e1 - E) in *. assert (Hw : w = d - j) by (unfold w, x, j; lia).
  split; [split |].
  - apply rhe_lower; [lia |]. lia.
  - apply rhe_upper; [lia |].
    destruct (Z.le_gt_cases 0 w) as [Hw0|Hw0].
    + rewrite Z.max_l by lia. rewrite <- pow2_split by lia.
      replace (w + j) with d by lia. exact Hhi.
    + rewrite Z.max_r, Z.pow_0_r by lia.
      assert (2 ^ d <= 2 ^ j) by (apply pow2_le; lia). lia.
  - intros Hw1. apply rhe_lower; [lia |]. rewrite <- pow2_split by lia.
    replace (w - 1 + j) with (d - 1) by lia. exact Hlo.
Qed.

(** *** The rounded result: validity and value *)

Lemma round_exact_spec (sx : bool) (p : positive) (E : Z) :
  let e1 := fexp64 (Zpos (digits2_pos p) + E) in
  let q := rhe (Zpos p) (e1 - E) in
  let r := binary_round_aux F64.prec F64.emax sx (Zpos p) E loc_Exact in
  0 <= e1 - E ->
  (q = 0 /\ r = S754_zero sx) \/
  (0 < q /\ exists m e2,
      r = (if e2 <=? 971 then S754_finite sx m e2 else S754_infinity sx) /\
      canonical_mantissa F64.prec F64.emax m e2 = true /\
      e1 <= e2 <= e1 + 1 /\ Zpos m * 2 ^ (e2 - e1) = q).
Proof.
  intros e1 q r Hj. subst r. rewrite binary_round_aux_exact by exact Hj.
  destruct (rhe_mantissa_bounds p E Hj) as [Hq Hlow].
  apply (finish_spec sx (rhe (Zpos p) (e1 - E)) (Zpos (digits2_pos p) + E)); tauto.
Qed.

Lemma round_exact_valid (sx : bool) (p : positive) (E : Z) :
  0 <= fexp64 (Zpos (digits2_pos p) + E) - E ->
  F64.valid (binary_round_aux F64.prec F64.emax sx (Zpos p) E loc_Exact) = true /\
  F64.is_nan (binary_round_aux F64.prec F64.emax sx (Zpos p) E loc_Exact) = false.
Proof.
  intros Hj. destruct (round_exact_spec sx p E Hj) as [[_ ->] | [_ (m & e2 & -> & Hc & _)]];
    [split; reflexivity |].
  destruct (Z.leb_spec e2 971) as [He|He]; [| split; reflexivity].
  split; [| reflexivity]. unfold F64.valid, valid_binary, bounded. rewrite Hc.
  apply andb_true_iff; split; [reflexivity |]. apply Z.leb_le. exact He.
Qed.

Lemma canonical_digits (m : positive) (e : Z) :
  canonical_mantissa F64.prec F64.emax m e = true ->
  -1074 <= e /\ Zpos m < 2 ^ 53 /\ (-1074 < e -> 2 ^ 52 <= Zpos m).
Proof.
  intros Hc%canonical_iff. cbn [Zdigits2] in Hc. rewrite fexp64_eq in Hc.
  pose proof (digits2_bounds m) as [Hlo Hhi].
  set (d := Zpos (digits2_pos m)) in *. assert (1 <= d) by (unfold d; lia).
  split; [lia |]. split.
  - assert (2 ^ d <= 2 ^ 53) by (apply pow2_le; lia). lia.
  - intros He. assert (d = 53) by lia.
    assert (2 ^ 52 <= 2 ^ (d - 1)) by (apply pow2_le; lia). lia.
Qed.

Lemma log2_scaled (p : positive) (n : Z) :
  0 <= n -> Z.log2 (Zpos p * 2 ^ n) + 1 = Zpos (digits2_pos p) + n.
Proof.
  intros Hn. rewrite Z.log2_mul_pow2 by lia. rewrite digits2_log2. lia.
Qed.

Section Scaled.

Variable K : Z.
Hypothesis HK : 1123 <= K.

(** The value of the rounded float is the rounding of the exact value. *)
Lemma round_exact_value (sx : bool) (p : positive) (E : Z) :
  0 <= E + K ->
  0 <= fexp64 (Zpos (digits2_pos p) + E) - E ->
  sval K (binary_round_aux F64.prec F64.emax sx (Zpos p) E loc_Exact) =
  cond_Zopp sx (round_pos K (Zpos p * 2 ^ (E + K))).
Proof.
  intros HE Hj. set (e1 := fexp64 (Zpos (digits2_pos p) + E)) in *.
  assert (He1 : e1 = Z.max (Zpos (digits2_pos p) + E - 53) (-1074)) by reflexivity.
  unfold round_pos. rewrite log2_scaled by lia.
  replace (Z.max (Zpos (digits2_pos p) + (E + K) - 53) (K - 1074)) with (e1 + K) by lia.
  replace (e1 + K) with ((e1 - E) + (E + K)) at 1 by lia.
  rewrite rhe_scale by lia.
  destruct (round_exact_spec sx p E Hj) as [[Hq ->] | [Hq (m & e2 & -> & Hc & He2 & Hm)]];
    fold e1 in Hq.
  - rewrite Hq. cbn [sval]. rewrite Z.mul_0_l, Z.min_l.
    + now destruct sx.
    + unfold big. apply Z.lt_le_incl, pow2_pos. lia.
  - fold e1 in Hm. rewrite <- Hm.
    destruct (canonical_digits m e2 Hc) as (Hlo & Hhi & Hnorm).
    assert (Hval : Zpos m * 2 ^ (e2 - e1) * 2 ^ (e1 + K) = Zpos m * 2 ^ (e2 + K)).
    { rewrite <- Z.mul_assoc, <- pow2_split by lia. do 2 f_equal. lia. }
    rewrite Hval.
    assert (Hp : 0 < 2 ^ (e2 + K)) by (apply pow2_pos; lia).
    destruct (Z.leb_spec e2 971) as [He|He]; cbn [sval]; f_equal.
    + rewrite Z.min_l; [reflexivity |]. unfold big.
      assert (2 ^ 53 * 2 ^ (e2 + K) <= 2 ^ (1024 + K)).
      { rewrite <- pow2_split by lia. apply pow2_le. lia. }
      nia.
    + rewrite Z.min_r; [reflexivity |]. unfold big.
      assert (2 ^ (1024 + K) <= 2 ^ 52 * 2 ^ (e2 + K)).
      { rewrite <- pow2_split by lia. apply pow2_le. lia. }
      assert (2 ^ 52 <= Zpos m) by (apply Hnorm; lia). nia.
Qed.

(** *** Monotonicity of rounding *)

Lemma big_pos : 0 < big K.
Proof. unfold big. apply pow2_pos. lia. Qed.

Lemma rhe_nonneg (N j : Z) : 0 <= j -> 0 <= N -> 0 <= rhe N j.
Proof. intros Hj HN. apply rhe_lower; lia. Qed.

Lemma round_pos_bounds (N : Z) : 0 <= N -> 0 <= round_pos K N <= big K.
Proof.
  intros HN. unfold round_pos. pose proof big_pos.
  set (sh := Z.max (Z.log2 N + 1 - 53) (K - 1074)).
  assert (0 <= rhe N sh) by (apply rhe_nonneg; lia).
  assert (0 < 2 ^ sh) by (apply pow2_pos; lia).
  split; [apply Z.min_glb; nia | apply Z.le_min_r].
Qed.

(** Within a binade rounding is monotone because [rhe] is; across binades
    the power of two between the operands is a float that separates the
    results. *)
Lemma round_pos_mono (N1 N2 : Z) :
  0 < N1 -> N1 <= N2 -> round_pos K N1 <= round_pos K N2.
Proof.
  intros Hpos Hle. unfold round_pos.
  pose proof (Z.log2_le_mono N1 N2 Hle) as Hlog.
  pose proof (Z.log2_nonneg N1) as Hl1.
  set (x1 := Z.log2 N1 + 1) in *. set (x2 := Z.log2 N2 + 1) in *.
  set (sh1 := Z.max (x1 - 53) (K - 1074)). set (sh2 := Z.max (x2 - 53) (K - 1074)).
  apply Z.min_le_compat_r.
  assert (Hp1 : 0 < 2 ^ sh1) by (apply pow2_pos; lia).
  assert (Hp2 : 0 < 2 ^ sh2) by (apply pow2_pos; lia).
  destruct (Z.eq_dec sh1 sh2) as [Heq|Hne].
  - rewrite <- Heq. apply Z.mul_le_mono_nonneg_r; [lia |]. apply rhe_mono; lia.
  - assert (Hsh : sh1 < sh2) by lia.
    assert (Hsh2 : sh2 = x2 - 53) by lia.
    set (B := 2 ^ (sh2 + 52)).
    assert (HB2 : B <= N2).
    { unfold B. replace (sh2 + 52) with (Z.log2 N2) by lia.
      apply Z.log2_spec. lia. }
    assert (HB1 : N1 <= B).
    { assert (N1 < 2 ^ x1) by (unfold x1; apply Z.log2_spec; lia).
      assert (2 ^ x1 <= B) by (apply pow2_le; lia). lia. }
    transitivity B.
    + assert (HBs : B = 2 ^ (sh2 + 52 - sh1) * 2 ^ sh1).
      { unfold B. rewrite <- pow2_split by lia. f_equal. lia. }
      rewrite HBs. apply Z.mul_le_mono_nonneg_r; [lia |].
      rewrite <- (rhe_exact (2 ^ (sh2 + 52 - sh1)) sh1) by lia.
      apply rhe_mono; lia.
    + assert (HBs : B = 2 ^ 52 * 2 ^ sh2).
      { unfold B. rewrite <- pow2_split by lia. f_equal. lia. }
      rewrite HBs. apply Z.mul_le_mono_nonneg_r; [lia |].
      apply rhe_lower; lia.
Qed.

Lemma round_scaled_bounds (N : Z) : - big K <= round_scaled K N <= big K.
Proof.
  pose proof big_pos.
  destruct N as [|p|p]; cbn [round_scaled]; [lia | |].
  - pose proof (round_pos_bounds (Zpos p)). lia.
  - pose proof (round_pos_bounds (Zpos p)). lia.
Qed.

Lemma round_scaled_mono (N1 N2 : Z) :
  N1 <= N2 -> round_scaled K N1 <= round_scaled K N2.
Proof.
  intros Hle.
  destruct N1 as [|p1|p1], N2 as [|p2|p2]; cbn [round_scaled]; try lia.
  - pose proof (round_pos_bounds (Zpos p2)). lia.
  - apply round_pos_mono; lia.
  - pose proof (round_pos_bounds (Zpos p1)). lia.
  - pose proof (round_pos_bounds (Zpos p1)). pose proof (round_pos_bounds (Zpos p2)). lia.
  - apply Z.opp_le_mono. rewrite !Z.opp_involutive. apply round_pos_mono; lia.
Qed.

Lemma round_pos_representable (m : positive) (e : Z) :
  canonical_mantissa F64.prec F64.emax m e = true -> e <= 971 ->
  round_pos K (Zpos m * 2 ^ (e + K)) = Zpos m * 2 ^ (e + K).
Proof.
  intros Hc He. destruct (canonical_digits m e Hc) as (Hlo & Hhi & _).
  apply canonical_iff in Hc. cbn [Zdigits2] in Hc. rewrite fexp64_eq in Hc.
  unfold round_pos. rewrite log2_scaled by lia.
  replace (Z.max (Zpos (digits2_pos m) + (e + K) - 53) (K - 1074)) with (e + K) by lia.
  rewrite rhe_exact by lia. apply Z.min_l. unfold big.
  assert (0 < 2 ^ (e + K)) by (apply pow2_pos; lia).
  assert (2 ^ 53 * 2 ^ (e + K) <= 2 ^ (1024 + K)).
  { rewrite <- pow2_split by lia. apply pow2_le. lia. }
  nia.
Qed.

(** *** The order of floats is the order of their values *)

Lemma valid_finite (s : bool) (m : positive) (e : Z) :
  F64.valid (S754_finite s m e) = true ->
  canonical_mantissa F64.prec F64.emax m e = true /\ e <= 971.
Proof.
  unfold F64.valid, valid_binary, bounded. intros [Hc He%Z.leb_le]%andb_true_iff.
  split; [exact Hc | exact He].
Qed.

Lemma sval_finite_bounds (s : bool) (m : positive) (e : Z) :
  F64.valid (S754_finite s m e) = true ->
  0 < Zpos m * 2 ^ (e + K) < big K.
Proof.
  intros [Hc He]%valid_finite. destruct (canonical_digits m e Hc) as (Hlo & Hhi & _).
  assert (0 < 2 ^ (e + K)) by (apply pow2_pos; lia).
  assert (2 ^ 53 * 2 ^ (e + K) <= 2 ^ (1024 + K)).
  { rewrite <- pow2_split by lia. apply pow2_le. lia. }
  unfold big. nia.
Qed.

Lemma canonical_lt (m1 m2 : positive) (e1 e2 : Z) :
  canonical_mantissa F64.prec F64.emax m1 e1 = true ->
  canonical_mantissa F64.prec F64.emax m2 e2 = true ->
  e1 < e2 -> Zpos m1 * 2 ^ (e1 + K) < Zpos m2 * 2 ^ (e2 + K).
Proof.
  intros Hc1 Hc2 Hlt.
  destruct (canonical_digits m1 e1 Hc1) as (Hlo1 & Hhi1 & _).
  destruct (canonical_digits m2 e2 Hc2) as (Hlo2 & _ & Hnorm2).
  assert (2 ^ 52 <= Zpos m2) by (apply Hnorm2; lia).
  assert (0 < 2 ^ (e1 + K)) by (apply pow2_pos; lia).
  assert (0 < 2 ^ (e2 + K)) by (apply pow2_pos; lia).
  assert (2 ^ 53 * 2 ^ (e1 + K) <= 2 ^ 52 * 2 ^ (e2 + K)).
  { rewrite <- !pow2_split by lia. apply pow2_le. lia. }
  nia.
Qed.

Lemma compare_magnitudes (m1 m2 : positive) (e1 e2 : Z) :
  canonical_mantissa F64.prec F64.emax m1 e1 = true ->
  canonical_mantissa F64.prec F64.emax m2 e2 = true ->
  (Zpos m1 * 2 ^ (e1 + K) ?= Zpos m2 * 2 ^ (e2 + K)) =
  match e1 ?= e2 with
  | Lt => Lt
  | Gt => Gt
  | Eq => Pos.compare_cont Eq m1 m2
  end.
Proof.
  intros Hc1 Hc2. destruct (Z.compare_spec e1 e2) as [He|He|He].
  - subst e2. rewrite Pos.compare_cont_spec. cbn [Pos.switch_Eq].
    destruct (canonical_digits m1 e1 Hc1) as (Hlo1 & _).
    rewrite <- Zmult_compare_compat_r by (apply Z.lt_gt, pow2_pos; lia).
    change (Zpos m1 ?= Zpos m2) with (m1 ?= m2)%positive.
    now destruct (m1 ?= m2)%positive.
  - apply Z.compare_lt_iff. now apply canonical_lt.
  - apply Z.compare_gt_iff. now apply canonical_lt.
Qed.

Lemma compare_sval (f1 f2 : float) :
  F64.valid f1 = true -> F64.valid f2 = true ->
  SFcompare f1 f2 =
  if F64.is_nan f1 || F64.is_nan f2 then None else Some (sval K f1 ?= sval K f2).
Proof.
  intros Hv1 Hv2. pose proof big_pos as Hbig.
  destruct f1 as [s1|s1| |s1 m1 e1], f2 as [s2|s2| |s2 m2 e2];
    try reflexivity;
    try (pose proof (sval_finite_bounds _ _ _ Hv1));
    try (pose proof (sval_finite_bounds _ _ _ Hv2));
    cbn [SFcompare sval F64.is_nan orb];
    try destruct s1; try destruct s2; cbn [cond_Zopp];
    try (f_equal; symmetry;
         first [ apply Z.compare_eq_iff; lia
               | apply Z.compare_lt_iff; lia
               | apply Z.compare_gt_iff; lia ]).
  - (* both negative *)
    apply valid_finite in Hv1 as [Hc1 _]. apply valid_finite in Hv2 as [Hc2 _].
    f_equal. rewrite Z.compare_opp, (Z.compare_antisym (Zpos m1 * _)).
    rewrite (compare_magnitudes m1 m2 e1 e2 Hc1 Hc2).
    destruct (e1 ?= e2); reflexivity.
  - (* both positive *)
    apply valid_finite in Hv1 as [Hc1 _]. apply valid_finite in Hv2 as [Hc2 _].
    f_equal. symmetry. now apply compare_magnitudes.
Qed.

Lemma leb_sval (f1 f2 : float) :
  F64.valid f1 = true -> F64.valid f2 = true ->
  F64.leb f1 f2 = true -> sval K f1 <= sval K f2.
Proof.
  intros Hv1 Hv2. unfold F64.leb, SFleb. rewrite (compare_sval f1 f2 Hv1 Hv2).
  destruct (F64.is_nan f1 || F64.is_nan f2); [discriminate |].
  destruct (Z.compare_spec (sval K f1) (sval K f2)); intros; try lia; discriminate.
Qed.

Lemma ltb_sval (f1 f2 : float) :
  F64.valid f1 = true -> F64.valid f2 = true ->
  F64.is_nan f1 = false -> F64.is_nan f2 = false ->
  F64.ltb f1 f2 = (sval K f1 <? sval K f2).
Proof.
  intros Hv1 Hv2 Hn1 Hn2. unfold F64.ltb, SFltb.
  rewrite (compare_sval f1 f2 Hv1 Hv2), Hn1, Hn2. cbn [orb].
  unfold Z.ltb. destruct (sval K f1 ?= sval K f2); reflexivity.
Qed.

(** *** Product by 12 and sum with 50 *)

Lemma round_scaled_pos (N : Z) : 0 < N -> round_scaled K N = round_pos K N.
Proof. destruct N; intros; try lia; reflexivity. Qed.

Lemma round_scaled_neg (N : Z) : N < 0 -> round_scaled K N = - round_pos K (- N).
Proof. destruct N; intros; try lia; reflexivity. Qed.

Lemma round_scaled_signed (sx : bool) (N : Z) :
  0 < N -> cond_Zopp sx (round_pos K N) = round_scaled K (cond_Zopp sx N).
Proof.
  intros HN. destruct sx; cbn [cond_Zopp].
  - rewrite round_scaled_neg by lia. now rewrite Z.opp_involutive.
  - now rewrite round_scaled_pos.
Qed.

Lemma saturate_inside (g : Z -> Z) (v : Z) :
  - big K < v < big K -> saturate K g v = g v.
Proof.
  intros Hv. unfold saturate.
  destruct (Z.leb_spec (big K) v); [lia |].
  destruct (Z.leb_spec v (- big K)); [lia | reflexivity].
Qed.

Lemma saturate_mono (g : Z -> Z) :
  (forall v, - big K <= g v <= big K) ->
  (forall v v', v <= v' -> g v <= g v') ->
  forall v v', v <= v' -> saturate K g v <= saturate K g v'.
Proof.
  intros Hb Hg v v' Hle. pose proof big_pos. unfold saturate.
  pose proof (Hb v). pose proof (Hb v'). pose proof (Hg v v' Hle).
  destruct (Z.leb_spec (big K) v), (Z.leb_spec (big K) v'),
    (Z.leb_spec v (- big K)), (Z.leb_spec v' (- big K)); lia.
Qed.

Lemma mul_sem_mono (v v' : Z) : v <= v' -> mul_sem K v <= mul_sem K v'.
Proof.
  apply saturate_mono.
  - intros u. apply round_scaled_bounds.
  - intros u u' Hu. apply round_scaled_mono. lia.
Qed.

Lemma add_sem_mono (v v' : Z) : v <= v' -> add_sem K v <= add_sem K v'.
Proof.
  apply saturate_mono.
  - intros u. apply round_scaled_bounds.
  - intros u u' Hu. apply round_scaled_mono. lia.
Qed.

Lemma final_sem_bounds (v : Z) : 0 <= final_sem K v <= 100.
Proof.
  unfold final_sem.
  destruct (Z.leb_spec v 0); [lia |].
  destruct (Z.leb_spec (100 * 2 ^ K) v); [lia |].
  split; [apply rhe_nonneg; lia | apply rhe_upper; lia].
Qed.

Lemma final_sem_mono (v v' : Z) : v <= v' -> final_sem K v <= final_sem K v'.
Proof.
  intros Hle. pose proof (final_sem_bounds v). pose proof (final_sem_bounds v').
  unfold final_sem in *.
  destruct (Z.leb_spec v 0), (Z.leb_spec v' 0); try lia;
    destruct (Z.leb_spec (100 * 2 ^ K) v), (Z.leb_spec (100 * 2 ^ K) v'); try lia.
  apply rhe_mono; lia.
Qed.

Lemma product_digits (mx : positive) (ex : Z) :
  0 <= fexp64 (Zpos (digits2_pos (mx * 6755399441055744)) + (ex + -49)) - (ex + -49).
Proof.
  rewrite fexp64_eq. pose proof (digits2_bounds (mx * 6755399441055744)) as [_ Hhi].
  set (d := Zpos (digits2_pos (mx * 6755399441055744))) in *.
  assert (Hd : 52 < d).
  { apply (Z.pow_lt_mono_r_iff 2); [lia | unfold d; lia |].
    rewrite Pos2Z.inj_mul in Hhi.
    assert (2 ^ 52 <= Zpos mx * 6755399441055744) by lia. lia. }
  lia.
Qed.

(** [s * 12] is the correctly rounded product. *)
Lemma mul12_spec (s : float) :
  F64.valid s = true -> F64.is_nan s = false ->
  F64.valid (F64.mul s twelve) = true /\
  F64.is_nan (F64.mul s twelve) = false /\
  sval K (F64.mul s twelve) = mul_sem K (sval K s).
Proof.
  intros Hv Hn. pose proof big_pos as Hbig.
  destruct s as [s0|s0| |sx mx ex]; [| | discriminate |].
  - split; [reflexivity |]. split; [reflexivity |].
    cbn [sval]. unfold mul_sem. rewrite saturate_inside by lia. reflexivity.
  - split; [reflexivity |]. split; [reflexivity |].
    change (F64.mul (S754_infinity s0) twelve) with (S754_infinity (xorb s0 false)).
    rewrite xorb_false_r. cbn [sval]. unfold mul_sem, saturate.
    destruct s0; cbn [cond_Zopp].
    + destruct (Z.leb_spec (big K) (- big K)); [lia |].
      destruct (Z.leb_spec (- big K) (- big K)); [reflexivity | lia].
    + destruct (Z.leb_spec (big K) (big K)); [reflexivity | lia].
  - change (F64.mul (S754_finite sx mx ex) twelve) with
      (binary_round_aux F64.prec F64.emax (xorb sx false)
         (Zpos (mx * 6755399441055744)) (ex + -49) loc_Exact).
    rewrite xorb_false_r. pose proof (product_digits mx ex) as Hj.
    destruct (round_exact_valid sx _ _ Hj) as [Hvx Hnx].
    split; [exact Hvx |]. split; [exact Hnx |].
    pose proof (sval_finite_bounds _ _ _ Hv) as Hb.
    destruct (valid_finite _ _ _ Hv) as [Hc _].
    destruct (canonical_digits mx ex Hc) as (Hlo & _).
    rewrite round_exact_value by (try exact Hj; lia).
    cbn [sval]. unfold mul_sem.
    rewrite saturate_inside by (destruct sx; cbn [cond_Zopp]; lia).
    assert (Hp : 0 < 2 ^ (ex + -49 + K)) by (apply pow2_pos; lia).
    assert (Hval : Zpos (mx * 6755399441055744) * 2 ^ (ex + -49 + K) =
                   12 * (Zpos mx * 2 ^ (ex + K))).
    { replace (ex + K) with (49 + (ex + -49 + K)) by lia.
      rewrite (pow2_split 49 (ex + -49 + K)) by lia. rewrite Pos2Z.inj_mul.
      change (2 ^ 49) with 562949953421312. ring. }
    rewrite Hval. rewrite round_scaled_signed by lia.
    f_equal. destruct sx; cbn [cond_Zopp]; lia.
Qed.

Lemma pos_iter_xO (m d : positive) : Zpos (Pos.iter xO m d) = Zpos m * 2 ^ Zpos d.
Proof.
  induction d as [|d IH] using Pos.peano_ind.
  - cbn [Pos.iter]. rewrite Z.pow_1_r. lia.
  - rewrite Pos.iter_succ, Pos2Z.inj_succ, Z.pow_succ_r by lia.
    rewrite Pos2Z.inj_xO, IH. ring.
Qed.

Lemma shl_align_spec (m : positive) (e e' : Z) :
  snd (shl_align m e e') = Z.min e e' /\
  Zpos (fst (shl_align m e e')) = Zpos m * 2 ^ (e - Z.min e e').
Proof.
  unfold shl_align. destruct (e' - e) as [|d|d] eqn:Hd; cbn [fst snd].
  - rewrite Z.min_l by lia. rewrite Z.sub_diag, Z.pow_0_r. lia.
  - rewrite Z.min_l by lia. rewrite Z.sub_diag, Z.pow_0_r. lia.
  - rewrite Z.min_r by lia. rewrite pos_iter_xO. split; [reflexivity |].
    do 2 f_equal. lia.
Qed.

Lemma binary_round_ok (sx : bool) (p : positive) (E : Z) :
  F64.valid (binary_round F64.prec F64.emax sx p E) = true /\
  F64.is_nan (binary_round F64.prec F64.emax sx p E) = false /\
  (0 <= E + K ->
   sval K (binary_round F64.prec F64.emax sx p E) =
   cond_Zopp sx (round_pos K (Zpos p * 2 ^ (E + K)))).
Proof.
  unfold binary_round.
  set (e1 := fexp F64.prec F64.emax (Zpos (digits2_pos p) + E)).
  assert (He1 : e1 = Z.max (Zpos (digits2_pos p) + E - 53) (-1074)) by reflexivity.
  destruct (shl_align_spec p E e1) as [Hez Hmz].
  destruct (shl_align p E e1) as [mz ez]. cbn [fst snd] in Hez, Hmz.
  assert (Hd : Zpos (digits2_pos mz) = Zpos (digits2_pos p) + (E - ez)).
  { rewrite digits2_log2, Hmz, Hez. apply log2_scaled. lia. }
  assert (Hj : 0 <= fexp64 (Zpos (digits2_pos mz) + ez) - ez).
  { rewrite Hd. replace (Zpos (digits2_pos p) + (E - ez) + ez)
      with (Zpos (digits2_pos p) + E) by lia.
    change (fexp64 (Zpos (digits2_pos p) + E)) with e1. lia. }
  destruct (round_exact_valid sx mz ez Hj) as [Hv Hn].
  split; [exact Hv |]. split; [exact Hn |].
  intros HE. rewrite round_exact_value by (try exact Hj; lia).
  do 2 f_equal. rewrite Hmz, <- Z.mul_assoc, <- pow2_split by lia.
  do 2 f_equal. lia.
Qed.

Lemma add50_finite (sx : bool) (mx : positive) (ex : Z) :
  let total := cond_Zopp sx (Zpos mx * 2 ^ (ex - Z.min ex (-47)))
               + 7036874417766400 * 2 ^ (-47 - Z.min ex (-47)) in
  F64.add (S754_finite sx mx ex) fifty =
  binary_normalize F64.prec F64.emax total (Z.min ex (-47)) false.
Proof.
  intros total. unfold F64.add, fifty, SFadd.
  destruct (shl_align_spec mx ex (Z.min ex (-47))) as [_ H1].
  destruct (shl_align_spec 7036874417766400 (-47) (Z.min ex (-47))) as [_ H2].
  rewrite H1, (Z.min_r ex (Z.min ex (-47))) by lia.
  unfold cond_Zopp at 2. rewrite H2, (Z.min_r (-47) (Z.min ex (-47))) by lia.
  reflexivity.
Qed.

Lemma add50_valid (x : float) : F64.valid (F64.add x fifty) = true.
Proof.
  destruct x as [s0|s0| |sx mx ex]; try reflexivity.
  rewrite add50_finite. cbv zeta.
  destruct (cond_Zopp sx _ + _) as [|p|p]; cbn [binary_normalize];
    [reflexivity | apply binary_round_ok | apply binary_round_ok].
Qed.

Lemma sval_fifty : sval K fifty = 50 * 2 ^ K.
Proof.
  cbn [sval fifty cond_Zopp]. replace K with (47 + (-47 + K)) at 2 by lia.
  rewrite (pow2_split 47 (-47 + K)) by lia.
  change (2 ^ 47) with 140737488355328. ring.
Qed.

Lemma sval_hundred : sval K hundred = 100 * 2 ^ K.
Proof.
  cbn [sval hundred cond_Zopp]. replace K with (46 + (-46 + K)) at 2 by lia.
  rewrite (pow2_split 46 (-46 + K)) by lia.
  change (2 ^ 46) with 70368744177664. ring.
Qed.

(** [x + 50] is the correctly rounded sum. *)
Lemma add50_spec (x : float) :
  F64.valid x = true -> F64.is_nan x = false ->
  F64.is_nan (F64.add x fifty) = false /\
  sval K (F64.add x fifty) = add_sem K (sval K x).
Proof.
  intros Hv Hn. pose proof big_pos as Hbig.
  assert (Hp : 0 < 2 ^ K) by (apply pow2_pos; lia).
  destruct x as [s0|s0| |sx mx ex]; [| | discriminate |].
  - split; [reflexivity |].
    change (F64.add (S754_zero s0) fifty) with fifty.
    change (sval K (S754_zero s0)) with 0.
    unfold add_sem. rewrite saturate_inside by lia.
    rewrite Z.add_0_l, <- sval_fifty.
    cbn [sval fifty cond_Zopp]. rewrite round_scaled_pos.
    + symmetry. apply round_pos_representable; [reflexivity | lia].
    + assert (0 < 2 ^ (-47 + K)) by (apply pow2_pos; lia). lia.
  - split; [reflexivity |].
    change (F64.add (S754_infinity s0) fifty) with (S754_infinity s0).
    cbn [sval]. unfold add_sem, saturate. destruct s0; cbn [cond_Zopp].
    + destruct (Z.leb_spec (big K) (- big K)); [lia |].
      destruct (Z.leb_spec (- big K) (- big K)); [reflexivity | lia].
    + destruct (Z.leb_spec (big K) (big K)); [reflexivity | lia].
  - pose proof (sval_finite_bounds _ _ _ Hv) as Hb.
    destruct (valid_finite _ _ _ Hv) as [Hc _].
    destruct (canonical_digits mx ex Hc) as (Hlo & _).
    rewrite add50_finite. cbv zeta.
    set (ez := Z.min ex (-47)).
    set (total := cond_Zopp sx (Zpos mx * 2 ^ (ex - ez)) + 7036874417766400 * 2 ^ (-47 - ez)).
    assert (Hval : total * 2 ^ (ez + K) = sval K (S754_finite sx mx ex) + 50 * 2 ^ K).
    { rewrite <- sval_fifty. cbn [sval fifty cond_Zopp]. unfold total.
      replace (ex + K) with ((ex - ez) + (ez + K)) by lia.
      replace (-47 + K) with ((-47 - ez) + (ez + K)) by lia.
      rewrite (pow2_split (ex - ez)), (pow2_split (-47 - ez)) by lia.
      destruct sx; cbn [cond_Zopp]; ring. }
    assert (Hpe : 0 < 2 ^ (ez + K)) by (apply pow2_pos; lia).
    unfold add_sem.
    rewrite saturate_inside by (cbn [sval]; destruct sx; cbn [cond_Zopp]; lia).
    rewrite <- Hval.
    destruct total as [|p|p]; cbn [binary_normalize].
    + split; reflexivity.
    + destruct (binary_round_ok false p ez) as (_ & Hnn & Hs).
      split; [exact Hnn |]. rewrite Hs by lia. cbn [cond_Zopp].
      symmetry. apply round_scaled_pos. lia.
    + destruct (binary_round_ok true p ez) as (_ & Hnn & Hs).
      split; [exact Hnn |]. rewrite Hs by lia.
      rewrite round_scaled_signed by lia. f_equal. cbn [cond_Zopp]. lia.
Qed.

(** *** Clamp and round *)

Lemma of_int_constants :
  F64.of_int 0 = S754_zero false /\ F64.of_int 12 = twelve /\
  F64.of_int 50 = fifty /\ F64.of_int 100 = hundred.
Proof. repeat split; vm_compute; reflexivity. Qed.

Lemma hundred_below_big : 100 * 2 ^ K < big K.
Proof.
  unfold big. assert (0 < 2 ^ K) by (apply pow2_pos; lia).
  assert (2 ^ (7 + K) <= 2 ^ (1024 + K)) by (apply pow2_le; lia).
  rewrite (pow2_split 7 K) in * by lia. change (2 ^ 7) with 128 in *. lia.
Qed.

Lemma py_round_positive (m : positive) (e : Z) :
  -1074 <= e ->
  py_round (PyFloat (S754_finite false m e)) = OK (rhe (Zpos m * 2 ^ (e + K)) K).
Proof.
  intros He. cbn [py_round]. f_equal.
  destruct (Z.leb_spec 0 e) as [Hpos|Hneg].
  - rewrite Z.shiftl_mul_pow2 by lia.
    rewrite (pow2_split e K), Z.mul_assoc by lia. now rewrite rhe_exact by lia.
  - rewrite rhe_shift by lia.
    replace K with (- e + (e + K)) at 2 by lia. now rewrite rhe_scale by lia.
Qed.

(** [round(max(0, min(100, y)))] on the value of [y]; NaN is not below 100,
    so it clamps to 100. *)
Lemma clamp_round_spec (y : float) :
  F64.valid y = true ->
  clamp_round py_round y =
  OK (if F64.is_nan y then 100 else final_sem K (sval K y)).
Proof.
  intros Hv. destruct of_int_constants as (H0 & _ & _ & H100).
  pose proof hundred_below_big as Hhb. pose proof big_pos as Hbig.
  assert (Hp : 0 < 2 ^ K) by (apply pow2_pos; lia).
  destruct (F64.is_nan y) eqn:Hn.
  { destruct y; try discriminate. vm_compute. reflexivity. }
  unfold clamp_round, py_min, py_max.
  assert (Hlt100 : num_lt (PyFloat y) (PyInt 100) = (sval K y <? 100 * 2 ^ K)).
  { cbn [num_lt num_to_float]. rewrite H100, <- sval_hundred.
    apply ltb_sval; try assumption; reflexivity. }
  assert (Hgt0 : num_lt (PyInt 0) (PyFloat y) = (0 <? sval K y)).
  { cbn [num_lt num_to_float]. rewrite H0.
    change 0 with (sval K (S754_zero false)) at 1.
    apply ltb_sval; try assumption; reflexivity. }
  rewrite Hlt100. unfold final_sem.
  destruct (Z.ltb_spec (sval K y) (100 * 2 ^ K)) as [Hlt|Hge].
  - rewrite Hgt0. destruct (Z.ltb_spec 0 (sval K y)) as [Hpos|Hnp].
    + destruct (Z.leb_spec (sval K y) 0); [lia |].
      destruct (Z.leb_spec (100 * 2 ^ K) (sval K y)); [lia |].
      destruct y as [s0|s0| |sx m e]; cbn [sval] in *; try lia; try discriminate.
      * destruct s0; cbn [cond_Zopp] in *; lia.
      * destruct (valid_finite _ _ _ Hv) as [Hc _].
        destruct (canonical_digits m e Hc) as (Hlo & _).
        destruct sx; cbn [cond_Zopp] in *; [lia |].
        now apply py_round_positive.
    + destruct (Z.leb_spec (sval K y) 0); [reflexivity | lia].
  - cbn [num_lt]. change (0 <? 100) with true. cbn [py_round].
    destruct (Z.leb_spec (sval K y) 0); [lia |].
    destruct (Z.leb_spec (100 * 2 ^ K) (sval K y)); [reflexivity | lia].
Qed.

Lemma calculate_score_value (s : float) :
  F64.valid s = true -> F64.is_nan s = false ->
  calculate_score s = OK (final_sem K (add_sem K (mul_sem K (sval K s)))).
Proof.
  intros Hv Hn. destruct of_int_constants as (_ & H12 & H50 & _).
  unfold calculate_score. rewrite H12, H50.
  fold (clamp_round py_round (F64.add (F64.mul s twelve) fifty)).
  destruct (mul12_spec s Hv Hn) as (Hvx & Hnx & Hsx).
  destruct (add50_spec (F64.mul s twelve) Hvx Hnx) as (Hny & Hsy).
  rewrite clamp_round_spec by apply add50_valid.
  now rewrite Hny, Hsy, Hsx.
Qed.

Lemma calculate_score_range (s : float) :
  exists k, calculate_score s = OK k /\ 0 <= k <= 100.
Proof.
  destruct of_int_constants as (_ & H12 & H50 & _).
  unfold calculate_score. rewrite H50.
  fold (clamp_round py_round (F64.add (F64.mul s (F64.of_int 12)) fifty)).
  rewrite clamp_round_spec by apply add50_valid.
  eexists; split; [reflexivity |].
  destruct (F64.is_nan _); [lia | apply final_sem_bounds].
Qed.

Lemma leb_not_nan (s1 s2 : float) :
  F64.leb s1 s2 = true -> F64.is_nan s1 = false /\ F64.is_nan s2 = false.
Proof. destruct s1, s2; try discriminate; split; reflexivity. Qed.

Lemma calculate_score_mono (s1 s2 : float) (k1 k2 : Z) :
  F64.valid s1 = true -> F64.valid s2 = true -> F64.leb s1 s2 = true ->
  calculate_score s1 = OK k1 -> calculate_score s2 = OK k2 -> k1 <= k2.
Proof.
  intros Hv1 Hv2 Hle. destruct (leb_not_nan s1 s2 Hle) as [Hn1 Hn2].
  rewrite (calculate_score_value s1 Hv1 Hn1), (calculate_score_value s2 Hv2 Hn2).
  intros [= <-] [= <-].
  apply final_sem_mono, add_sem_mono, mul_sem_mono. now apply leb_sval.
Qed.

End Scaled.

(** ** TrendClassifier: score *)

(** C7. [calculate_score] is [round] of the clamp to [0, 100] of the float
    [slope * 12 + 50], the clamp coming first, so that it returns for every
    float (100 for +infinity and NaN, 0 for -infinity); on the values scaled by
    [2 ^ scale] it is the clamp and the ties-to-even rounding of the correctly
    rounded sum of the correctly rounded product; the result is an integer
    between 0 and 100; it is non-decreasing in the slope; and the scores of
    0, 10 and -10 are 50, 100 (from 170) and 0 (from -70). *)
Theorem calculate_score_clamped :
  (forall s : float,
      calculate_score s =
      clamp_round py_round (F64.add (F64.mul s (F64.of_int 12)) (F64.of_int 50))) /\
  (forall s : float,
      F64.valid s = true -> F64.is_nan s = false ->
      calculate_score s =
      OK (final_sem scale (add_sem scale (mul_sem scale (sval scale s))))) /\
  (forall s : float, exists k, calculate_score s = OK k /\ 0 <= k <= 100) /\
  (forall (s1 s2 : float) (k1 k2 : Z),
      F64.valid s1 = true -> F64.valid s2 = true -> F64.leb s1 s2 = true ->
      calculate_score s1 = OK k1 -> calculate_score s2 = OK k2 -> k1 <= k2) /\
  (calculate_score (F64.of_int 0) = OK 50 /\
   calculate_score (F64.of_int 10) = OK 100 /\
   calculate_score (F64.of_int (-10)) = OK 0) /\
  (F64.add (F64.mul (F64.of_int 10) (F64.of_int 12)) (F64.of_int 50) = F64.of_int 170 /\
   F64.add (F64.mul (F64.of_int (-10)) (F64.of_int 12)) (F64.of_int 50)
   = F64.of_int (-70)) /\
  (calculate_score (S754_infinity false) = OK 100 /\
   calculate_score (S754_infinity true) = OK 0 /\
   calculate_score S754_nan = OK 100).
Proof.
  assert (HK : 1123 <= scale) by (unfold scale; lia).
  split; [reflexivity |].
  split; [intros s; now apply calculate_score_value |].
  split; [intros s; now apply (calculate_score_range scale) |].
  split; [intros s1 s2 k1 k2; now apply (calculate_score_mono scale) |].
  repeat split; vm_compute; reflexivity.
Qed.

Lemma calculate_score_clamped_witness :
  F64.valid (F64.of_int 0) = true /\ F64.valid f0_375 = true /\
  F64.leb (F64.of_int 0) f0_375 = true /\
  calculate_score (F64.of_int 0) = OK 50 /\ calculate_score f0_375 = OK 54 /\
  50 <= 54.
Proof.
  assert (H0 : calculate_score (F64.of_int 0) = OK 50) by (vm_compute; reflexivity).
  assert (H1 : calculate_score f0_375 = OK 54) by (vm_compute; reflexivity).
  repeat split; try exact H0; try exact H1; try (vm_compute; reflexivity).
  destruct calculate_score_clamped as (_ & _ & _ & Hmono & _).
  apply (Hmono (F64.of_int 0) f0_375 50 54); try exact H0; try exact H1;
    vm_compute; reflexivity.
Defined.

(** * Further properties *)

(** ** TrendClassifier: symmetry and bands *)


Lemma compare_cont_antisym (m1 m2 : positive) :
  Pos.compare_cont Eq m2 m1 = CompOpp (Pos.compare_cont Eq m1 m2).
Proof. rewrite !Pos.compare_cont_spec. cbn [Pos.switch_Eq].
  rewrite (Pos.compare_antisym m1 m2). now destruct (m1 ?= m2)%positive. Qed.

Lemma ltb_neg (a b : float) : F64.ltb (F64.neg a) (F64.neg b) = F64.ltb b a.
Proof.
  unfold F64.ltb, SFltb, F64.neg.
  destruct a as [[]|[]| |[] m1 e1], b as [[]|[]| |[] m2 e2]; try reflexivity;
    cbn [SFopp negb SFcompare]; rewrite (Z.compare_antisym e1 e2);
    destruct (e1 ?= e2); cbn [CompOpp]; try reflexivity;
    rewrite (compare_cont_antisym m1 m2);
    destruct (Pos.compare_cont Eq m1 m2); reflexivity.
Qed.

Lemma neg_involutive (a : float) : F64.neg (F64.neg a) = a.
Proof. destruct a as [[]|[]| |[] m e]; reflexivity. Qed.

Lemma abs_neg (a : float) : F64.abs (F64.neg a) = F64.abs a.
Proof. destruct a as [[]|[]| |[] m e]; reflexivity. Qed.

(** X1. Negating the slope swaps Rising and Declining, keeps Stable, and keeps
    the confidence. *)
Theorem negation_mirrors_trend (s : float) :
  classify_trend (F64.neg s) = mirror (classify_trend s) /\
  determine_confidence (F64.neg s) = determine_confidence s.
Proof.
  split.
  - unfold classify_trend.
    assert (H1 : F64.ltb F64.f0_8 (F64.neg s) = F64.ltb s (F64.neg F64.f0_8)).
    { rewrite <- (ltb_neg (F64.neg F64.f0_8) s). now rewrite neg_involutive. }
    rewrite H1, (ltb_neg s F64.f0_8).
    destruct (F64.ltb F64.f0_8 s) eqn:Hup.
    + rewrite (above_not_below s Hup). reflexivity.
    + destruct (F64.ltb s (F64.neg F64.f0_8)); reflexivity.
  - unfold determine_confidence. now rewrite abs_neg.
Qed.

Lemma high_confidence_directed (s : float) :
  F64.ltb F64.f1_2 (F64.abs s) = true ->
  F64.ltb F64.f0_8 s = true \/ F64.ltb s (F64.neg F64.f0_8) = true.
Proof.
  destruct s as [[]|[]| |[] m e];
    try (unfold F64.ltb, SFltb, SFcompare, F64.f1_2, F64.abs, SFabs;
         lazy beta iota; discriminate);
    try (intros _; left; reflexivity); try (intros _; right; reflexivity).
  - unfold F64.f1_2, F64.f0_8, F64.neg, F64.abs, SFabs, SFopp, negb.
    rewrite ltb_pos_pos, ltb_neg_neg. intros H. right. lia.
  - unfold F64.f1_2, F64.f0_8, F64.abs, SFabs.
    rewrite !ltb_pos_pos. intros H. left. lia.
Qed.

(** X2. High confidence is never given to a Stable trend: a slope beyond 1.2
    in size is beyond 0.8. *)
Theorem high_confidence_never_stable (s : float) :
  determine_confidence s = "High" -> classify_trend s <> "Stable".
Proof.
  unfold determine_confidence.
  destruct (F64.ltb F64.f1_2 (F64.abs s)) eqn:Hhigh.
  - intros _. unfold classify_trend.
    destruct (high_confidence_directed s Hhigh) as [-> | Hd]; [discriminate |].
    destruct (F64.ltb F64.f0_8 s); [discriminate |]. rewrite Hd. discriminate.
  - destruct (F64.ltb F64.f0_6 (F64.abs s)); discriminate.
Qed.

Lemma high_confidence_never_stable_witness :
  determine_confidence (F64.of_int 3) = "High" /\
  classify_trend (F64.of_int 3) <> "Stable".
Proof.
  assert (Hhigh : determine_confidence (F64.of_int 3) = "High")
    by (vm_compute; reflexivity).
  split; [exact Hhigh |].
  exact (high_confidence_never_stable (F64.of_int 3) Hhigh).
Defined.

Lemma rank_high : confidence_rank "High" = 2.
Proof. reflexivity. Qed.
Lemma rank_medium : confidence_rank "Medium" = 1.
Proof. reflexivity. Qed.
Lemma rank_low : confidence_rank "Low" = 0.
Proof. reflexivity. Qed.

Section Bands.
Variable K : Z.
Hypothesis HK : 1123 <= K.

Lemma ltb_not_nan (a b : float) :
  F64.ltb a b = true -> F64.is_nan a = false /\ F64.is_nan b = false.
Proof. destruct a, b; try discriminate; split; reflexivity. Qed.

Lemma ltb_leb (a b : float) : F64.ltb a b = true -> F64.leb a b = true.
Proof.
  unfold F64.ltb, F64.leb, SFltb, SFleb.
  destruct (SFcompare a b) as [[]|]; try discriminate; reflexivity.
Qed.

Lemma leb_sval_iff (a b : float) :
  F64.valid a = true -> F64.valid b = true ->
  F64.is_nan a = false -> F64.is_nan b = false ->
  F64.leb a b = (sval K a <=? sval K b).
Proof.
  intros Hva Hvb Hna Hnb. unfold F64.leb, SFleb.
  rewrite (compare_sval K HK a b Hva Hvb), Hna, Hnb. cbn [orb].
  unfold Z.leb. destruct (sval K a ?= sval K b); reflexivity.
Qed.

Lemma ltb_leb_trans (c a b : float) :
  F64.valid c = true -> F64.valid a = true -> F64.valid b = true ->
  F64.ltb c a = true -> F64.leb a b = true -> F64.ltb c b = true.
Proof.
  intros Hvc Hva Hvb Hlt Hle.
  destruct (ltb_not_nan c a Hlt) as [Hnc Hna].
  destruct (leb_not_nan a b Hle) as [_ Hnb].
  rewrite (ltb_sval K HK) in * by assumption.
  rewrite leb_sval_iff in Hle by assumption.
  apply Z.ltb_lt in Hlt. apply Z.leb_le in Hle. apply Z.ltb_lt. lia.
Qed.

Lemma abs_valid (s : float) : F64.valid s = true -> F64.valid (F64.abs s) = true.
Proof. destruct s; intros H; exact H. Qed.

Lemma literals_valid :
  F64.valid F64.f0_8 = true /\ F64.valid (F64.neg F64.f0_8) = true /\
  F64.valid F64.f0_6 = true /\ F64.valid F64.f1_2 = true.
Proof. repeat split; vm_compute; reflexivity. Qed.

Lemma confidence_monotone_scaled (s1 s2 : float) :
  F64.valid s1 = true -> F64.valid s2 = true ->
  F64.leb (F64.abs s1) (F64.abs s2) = true ->
  confidence_rank (determine_confidence s1) <= confidence_rank (determine_confidence s2).
Proof.
  intros Hv1 Hv2 Hle. destruct literals_valid as (_ & _ & H6 & H12).
  apply abs_valid in Hv1, Hv2. unfold determine_confidence.
  destruct (F64.ltb F64.f1_2 (F64.abs s1)) eqn:Ha.
  - rewrite (ltb_leb_trans _ _ _ H12 Hv1 Hv2 Ha Hle). reflexivity.
  - destruct (F64.ltb F64.f0_6 (F64.abs s1)) eqn:Hb.
    + rewrite (ltb_leb_trans _ _ _ H6 Hv1 Hv2 Hb Hle).
      destruct (F64.ltb F64.f1_2 (F64.abs s2)); rewrite ?rank_high, ?rank_medium; lia.
    + destruct (F64.ltb F64.f1_2 (F64.abs s2)); [rewrite rank_high, rank_low; lia |].
      destruct (F64.ltb F64.f0_6 (F64.abs s2)); rewrite ?rank_medium, ?rank_low; lia.
Qed.

Lemma score_follows_trend_scaled (s : float) :
  F64.valid s = true -> F64.is_nan s = false ->
  exists k,
    calculate_score s = OK k /\
    (classify_trend s = "Rising" -> 60 <= k <= 100) /\
    (classify_trend s = "Stable" -> 40 <= k <= 60) /\
    (classify_trend s = "Declining" -> 0 <= k <= 40).
Proof.
  intros Hv Hn. destruct literals_valid as (Hv8 & Hvm8 & _ & _).
  destruct (calculate_score_range K HK s) as (k & Hk & Hrange).
  exists k. split; [exact Hk |].
  assert (H60 : calculate_score F64.f0_8 = OK 60) by (vm_compute; reflexivity).
  assert (H40 : calculate_score (F64.neg F64.f0_8) = OK 40) by (vm_compute; reflexivity).
  assert (Hup : F64.leb F64.f0_8 s = true -> 60 <= k).
  { intros Hle. exact (calculate_score_mono K HK _ _ _ _ Hv8 Hv Hle H60 Hk). }
  assert (Hdown : F64.leb s (F64.neg F64.f0_8) = true -> k <= 40).
  { intros Hle. exact (calculate_score_mono K HK _ _ _ _ Hv Hvm8 Hle Hk H40). }
  assert (Hmid1 : F64.ltb F64.f0_8 s = false -> k <= 60).
  { intros Hlt. rewrite (ltb_sval K HK) in Hlt by (assumption || reflexivity).
    apply Z.ltb_ge in Hlt.
    assert (Hle : F64.leb s F64.f0_8 = true).
    { rewrite leb_sval_iff by (assumption || reflexivity). now apply Z.leb_le. }
    exact (calculate_score_mono K HK _ _ _ _ Hv Hv8 Hle Hk H60). }
  assert (Hmid2 : F64.ltb s (F64.neg F64.f0_8) = false -> 40 <= k).
  { intros Hlt. rewrite (ltb_sval K HK) in Hlt by (assumption || reflexivity).
    apply Z.ltb_ge in Hlt.
    assert (Hle : F64.leb (F64.neg F64.f0_8) s = true).
    { rewrite leb_sval_iff by (assumption || reflexivity). now apply Z.leb_le. }
    exact (calculate_score_mono K HK _ _ _ _ Hvm8 Hv Hle H40 Hk). }
  unfold classify_trend.
  destruct (F64.ltb F64.f0_8 s) eqn:H8.
  - clear H60 H40 Hk.
    split; [| split]; intros Hlabel; try discriminate Hlabel.
    split; [apply Hup, ltb_leb, H8 | lia].
  - clear H60 H40 Hk.
    destruct (F64.ltb s (F64.neg F64.f0_8)) eqn:Hm8;
      (split; [| split]); intros Hlabel; try discriminate Hlabel.
    + split; [lia | apply Hdown, ltb_leb, Hm8].
    + split; [now apply Hmid2 | now apply Hmid1].
Qed.

End Bands.

Lemma scale_ok : 1123 <= scale.
Proof. unfold scale. lia. Qed.

(** X3. The confidence never drops when the size of the slope grows, in the
    order Low, Medium, High. *)
Theorem confidence_monotone (s1 s2 : float) :
  F64.valid s1 = true -> F64.valid s2 = true ->
  F64.leb (F64.abs s1) (F64.abs s2) = true ->
  confidence_rank (determine_confidence s1) <= confidence_rank (determine_confidence s2).
Proof.
  exact (confidence_monotone_scaled scale scale_ok s1 s2).
Qed.

Lemma confidence_monotone_witness :
  F64.leb (F64.abs F64.f0_8) (F64.abs (F64.neg F64.f1_2)) = true /\
  confidence_rank (determine_confidence F64.f0_8) <=
  confidence_rank (determine_confidence (F64.neg F64.f1_2)).
Proof.
  assert (Hle : F64.leb (F64.abs F64.f0_8) (F64.abs (F64.neg F64.f1_2)) = true)
    by (vm_compute; reflexivity).
  split; [exact Hle |].
  apply (confidence_monotone F64.f0_8 (F64.neg F64.f1_2));
    [vm_compute; reflexivity | vm_compute; reflexivity | exact Hle].
Defined.

(** X4. The score lies in the band of the trend: 60 to 100 when Rising, 40 to
    60 when Stable, 0 to 40 when Declining. *)
Theorem score_follows_trend (s : float) :
  F64.valid s = true -> F64.is_nan s = false ->
  exists k,
    calculate_score s = OK k /\
    (classify_trend s = "Rising" -> 60 <= k <= 100) /\
    (classify_trend s = "Stable" -> 40 <= k <= 60) /\
    (classify_trend s = "Declining" -> 0 <= k <= 40).
Proof.
  exact (score_follows_trend_scaled scale scale_ok s).
Qed.


(** ** PostingAdvisor *)

Lemma get_best_posting_time_cases (trend : string) :
  get_best_posting_time trend =
  if bool_decide (trend = "Rising") then "7 PM – 10 PM"
  else if bool_decide (trend = "Declining") then "9 AM – 12 PM"
  else "12 PM – 3 PM".
Proof.
  unfold get_best_posting_time.
  destruct (decide (trend = "Rising")) as [-> | Hr]; [reflexivity |].
  rewrite (bool_decide_eq_false_2 _ Hr), lookup_insert_ne by congruence.
  destruct (decide (trend = "Stable")) as [-> | Hs]; [reflexivity |].
  rewrite lookup_insert_ne by congruence.
  destruct (decide (trend = "Declining")) as [-> | Hd]; [reflexivity |].
  rewrite (bool_decide_eq_false_2 _ Hd), lookup_insert_ne by congruence.
  reflexivity.
Qed.

Lemma score_follows_trend_witness :
  F64.valid f0_8_succ = true /\ F64.is_nan f0_8_succ = false /\
  exists k, calculate_score f0_8_succ = OK k /\ 60 <= k <= 100.
Proof.
  assert (Hv : F64.valid f0_8_succ = true) by (vm_compute; reflexivity).
  split; [exact Hv |]. split; [reflexivity |].
  destruct (score_follows_trend f0_8_succ Hv eq_refl) as (k & Hk & Hup & _).
  exists k. split; [exact Hk |]. apply Hup. vm_compute. reflexivity.
Defined.


(** X5. The posting window follows the direction of the slope: evening when
    above 0.8, morning when below -0.8, midday otherwise, and a label that is
    none of the three gets the midday window. *)
Theorem posting_time_follows_slope :
  (forall s : float,
      get_best_posting_time (classify_trend s) =
      if F64.ltb F64.f0_8 s then "7 PM – 10 PM"
      else if F64.ltb s (F64.neg F64.f0_8) then "9 AM – 12 PM"
      else "12 PM – 3 PM") /\
  (forall trend : string,
      trend <> "Rising" -> trend <> "Declining" ->
      get_best_posting_time trend = "12 PM – 3 PM") /\
  (forall s1 s2 : float,
      get_best_posting_time (classify_trend s1) =
      get_best_posting_time (classify_trend s2) ->
      classify_trend s1 = classify_trend s2).
Proof.
  split; [| split].
  - intros s. unfold classify_trend.
    destruct (F64.ltb F64.f0_8 s); [reflexivity |].
    destruct (F64.ltb s (F64.neg F64.f0_8)); reflexivity.
  - intros trend Hr Hd. rewrite get_best_posting_time_cases.
    now rewrite (bool_decide_eq_false_2 _ Hr), (bool_decide_eq_false_2 _ Hd).
  - intros s1 s2. unfold classify_trend.
    destruct (F64.ltb F64.f0_8 s1), (F64.ltb F64.f0_8 s2),
      (F64.ltb s1 (F64.neg F64.f0_8)), (F64.ltb s2 (F64.neg F64.f0_8));
      intros H; try reflexivity;
      (vm_compute in H; discriminate H).
Qed.

Lemma posting_time_follows_slope_witness :
  "Surging" <> "Rising" /\ "Surging" <> "Declining" /\
  get_best_posting_time "Surging" = "12 PM – 3 PM".
Proof.
  assert (Hr : "Surging" <> "Rising") by discriminate.
  assert (Hd : "Surging" <> "Declining") by discriminate.
  split; [exact Hr |]. split; [exact Hd |].
  exact (proj1 (proj2 posting_time_follows_slope) "Surging" Hr Hd).
Defined.


(** ** RelatedTermsFetcher and SeriesFetcher: effects *)

Lemma titles_omap (l : list (gmap string string)) :
  titles l = omap (fun suggestion => suggestion !! "title") l.
Proof.
  induction l as [|s l IH]; [reflexivity |].
  cbn [titles omap list_omap]. rewrite IH.
  destruct (s !! "title"); reflexivity.
Qed.

Lemma titles_length (l : list (gmap string string)) :
  (length (titles l) <= length l)%nat.
Proof.
  induction l as [|s l IH]; [reflexivity |].
  cbn [titles length]. destruct (s !! "title"); cbn [length]; lia.
Qed.

(** X6. [fetch_related_keywords] never raises: it sleeps one second, asks the
    provider once, and returns the titles of the first [limit] suggestions
    that have one, in the provider's order, or nothing when the provider
    fails; it touches neither the cache nor the client handle. *)
Theorem fetch_related_keywords_absorbs (P : Provider) (keyword : string)
    (limit : nat) (w : World) :
  exists related,
    fetch_related_keywords P keyword limit w =
      (OK related, logged w [Sleep 1; Suggestions (pytrend w) keyword]) /\
    (length related <= limit)%nat /\
    related =
      match suggestions P (log w ++ [Sleep 1]) (pytrend w) keyword with
      | inl _ => []
      | inr l => omap (fun suggestion => suggestion !! "title") (firstn limit l)
      end.
Proof.
  unfold fetch_related_keywords, try_except, bind, sleep, emit, query_suggestions, ret.
  cbn [log pytrend cache].
  destruct (suggestions P (log w ++ [Sleep 1]) (pytrend w) keyword) as [msg|l];
    cbn [of_provider]; eexists; (split; [| split]).
  - unfold logged. rewrite <- app_assoc. reflexivity.
  - cbn [length]. lia.
  - reflexivity.
  - unfold logged. rewrite <- app_assoc. reflexivity.
  - pose proof (titles_length (firstn limit l)). pose proof (length_firstn limit l).
    pose proof (firstn_le_length limit l). lia.
  - apply titles_omap.
Qed.

Lemma total_sleep_app (a b : list event) :
  total_sleep (a ++ b) = (total_sleep a + total_sleep b)%nat.
Proof.
  induction a as [|ev a IH]; [reflexivity |].
  destruct ev; cbn [total_sleep app]; rewrite IH; lia.
Qed.

Lemma count_suggestions_app (a b : list event) :
  count_suggestions (a ++ b) = (count_suggestions a + count_suggestions b)%nat.
Proof.
  induction a as [|ev a IH]; [reflexivity |].
  destruct ev; cbn [count_suggestions app]; rewrite IH; lia.
Qed.

Lemma fetch_attempts_budget (P : Provider) (keyword : string) (max_retries : nat)
    (n : nat) :
  forall (attempt : nat) (w w' : World) (r : result (option DataFrame)),
    (attempt + S n = max_retries)%nat ->
    fetch_attempts P keyword max_retries (seq attempt (S n)) w = (r, w') ->
    (count_interest (log w) < count_interest (log w'))%nat /\
    (pytrend w <= pytrend w' <= pytrend w + n)%nat /\
    (total_sleep (log w') <= total_sleep (log w) + sleep_budget attempt n)%nat /\
    count_suggestions (log w') = count_suggestions (log w).
Proof.
  induction n as [|n IH]; intros attempt w w' r Hmax Hrun.
  - change (seq attempt 1) with [attempt] in Hrun.
    rewrite fetch_attempts_step in Hrun.
    assert (Hlast : (attempt <? max_retries - 1)%nat = false) by (apply Nat.ltb_ge; lia).
    rewrite Hlast in Hrun.
    assert (Hw : w' = logged w [Sleep 2; InterestOverTime (pytrend w) keyword]).
    { destruct (attempt_answer P keyword w) as [msg|data];
        [rewrite andb_false_r in Hrun |]; now injection Hrun as _ <-. }
    subst w'. cbn [logged log pytrend].
    rewrite count_interest_app, total_sleep_app, count_suggestions_app.
    cbn [count_interest total_sleep count_suggestions sleep_budget]. lia.
  - change (seq attempt (S (S n))) with (attempt :: seq (S attempt) (S n)) in Hrun.
    rewrite fetch_attempts_step in Hrun.
    destruct (attempt_answer P keyword w) as [msg|data].
    + destruct (contains "429" msg && (attempt <? max_retries - 1)%nat).
      * apply IH in Hrun; [| lia]. cbn [with_client logged log pytrend] in Hrun.
        rewrite !count_interest_app, !total_sleep_app, !count_suggestions_app in Hrun.
        cbn [count_interest total_sleep count_suggestions] in Hrun.
        cbn [sleep_budget]. lia.
      * injection Hrun as _ <-. cbn [logged log pytrend].
        rewrite count_interest_app, total_sleep_app, count_suggestions_app.
        cbn [count_interest total_sleep count_suggestions sleep_budget]. lia.
    + injection Hrun as _ <-. cbn [logged log pytrend].
      rewrite count_interest_app, total_sleep_app, count_suggestions_app.
      cbn [count_interest total_sleep count_suggestions sleep_budget]. lia.
Qed.

(** X7. For any number of retries, [fetch_trends_data] leaves the cache alone,
    raises plain exceptions only, queries the provider at least once and at
    most [max_retries] times, replaces the client at most [max_retries - 1]
    times, never asks for suggestions and sleeps no longer than its budget;
    with no retries allowed it returns [None] and does nothing. *)
Theorem fetch_trends_data_bounded (P : Provider) (keyword : string)
    (max_retries : nat) (w w' : World) (r : result (option DataFrame)) :
  fetch_trends_data P keyword max_retries w = (r, w') ->
  cache w' = cache w /\ plain r /\
  (count_interest (log w') <= count_interest (log w) + max_retries)%nat /\
  (pytrend w <= pytrend w' <= pytrend w + (max_retries - 1))%nat /\
  count_suggestions (log w') = count_suggestions (log w) /\
  (max_retries = 0%nat -> r = OK None /\ w' = w) /\
  ((0 < max_retries)%nat ->
   (count_interest (log w) < count_interest (log w'))%nat /\
   (total_sleep (log w') <=
    total_sleep (log w) + sleep_budget 0 (max_retries - 1))%nat).
Proof.
  intros Hrun. unfold fetch_trends_data, range in Hrun.
  destruct (fetch_attempts_facts P keyword max_retries _ w r w' Hrun) as (Hc & Hp & Hn).
  rewrite length_seq in Hn.
  split; [exact Hc |]. split; [exact Hp |]. split; [exact Hn |].
  destruct max_retries as [|n].
  - cbn in Hrun. injection Hrun as <- <-. repeat split; try lia; reflexivity.
  - destruct (fetch_attempts_budget P keyword (S n) n 0 w w' r eq_refl Hrun)
      as (Hq & Hh & Hs & Hg).
    replace (S n - 1)%nat with n by lia.
    repeat split; try lia; try discriminate.
Qed.

Lemma fetch_trends_data_bounded_witness :
  exists r w',
    fetch_trends_data limited_twice "coffee" 3 initial_world = (r, w') /\
    cache w' = cache initial_world /\
    (count_interest (log w') <= count_interest (log initial_world) + 3)%nat.
Proof.
  destruct (fetch_trends_data limited_twice "coffee" 3 initial_world)
    as [r w'] eqn:Hrun.
  exists r, w'. split; [reflexivity |].
  destruct (fetch_trends_data_bounded limited_twice "coffee" 3 initial_world w' r Hrun)
    as (Hc & _ & Hn & _).
  split; [exact Hc | exact Hn].
Defined.


(** *** Rounding of an inexact operand: the result is a float *)

Lemma shr_m_iter (M : Z) (p : positive) (mrs : shr_record) :
  0 <= M -> shr_m mrs = M ->
  shr_m (SpecFloat.iter_pos shr_1 p mrs) = M / 2 ^ Zpos p.
Proof.
  intros HM Hm. change (Zpos p) with (0 + Zpos p).
  apply (iter_pos_invariant shr_1 (fun j x => shr_m x = M / 2 ^ j)).
  - intros j [m r s] Hj Hx. cbn [shr_m] in Hx.
    pose proof (pow2_pos j Hj).
    assert (0 <= m) by (subst m; apply Z.div_pos; lia).
    rewrite shr_1_nonneg by assumption. cbn [shr_m].
    rewrite Hx, Z.div_div, pow2_succ by lia. f_equal. lia.
  - lia.
  - now rewrite Z.pow_0_r, Z.div_1_r.
Qed.

Lemma shr_fexp_quotient (mx ex : Z) (lx : location) :
  let e1 := fexp64 (Zdigits2 mx + ex) in
  0 <= mx -> 0 <= e1 - ex ->
  exists mrs, shr_fexp F64.prec F64.emax mx ex lx = (mrs, e1) /\
              shr_m mrs = mx / 2 ^ (e1 - ex).
Proof.
  intros e1 Hm Hj. unfold shr_fexp, shr. fold e1.
  assert (Hs : shr_m (shr_record_of_loc mx lx) = mx) by (destruct lx as [|[]]; reflexivity).
  destruct (e1 - ex) as [|p|p] eqn:Hd; try lia.
  - eexists; split; [f_equal; lia |]. now rewrite Z.pow_0_r, Z.div_1_r.
  - eexists; split; [f_equal; lia |]. now apply shr_m_iter.
Qed.

Lemma round_nearest_even_near (m : Z) (l : location) :
  m <= round_nearest_even m l <= m + 1.
Proof.
  destruct l as [|[]]; cbn [round_nearest_even]; try destruct (Z.even m); lia.
Qed.

Lemma Zdigits2_bounds (m : Z) :
  0 <= m -> 0 <= Zdigits2 m /\ m < 2 ^ Zdigits2 m /\ (0 < m -> 2 ^ (Zdigits2 m - 1) <= m).
Proof.
  intros Hm. destruct m as [|p|p]; try lia.
  - cbn [Zdigits2]. repeat split; lia.
  - cbn [Zdigits2]. pose proof (digits2_bounds p). repeat split; lia.
Qed.

Lemma binary_round_aux_float (sx : bool) (mx ex : Z) (lx : location) :
  0 <= mx -> 0 <= fexp64 (Zdigits2 mx + ex) - ex ->
  F64.valid (binary_round_aux F64.prec F64.emax sx mx ex lx) = true /\
  F64.is_nan (binary_round_aux F64.prec F64.emax sx mx ex lx) = false.
Proof.
  intros Hm Hj.
  destruct (shr_fexp_quotient mx ex lx Hm Hj) as (mrs & Hshr & Hq).
  set (x := Zdigits2 mx + ex) in *. set (e1 := fexp64 x) in *. set (j := e1 - ex) in *.
  unfold binary_round_aux. rewrite Hshr.
  pose proof (round_nearest_even_near (shr_m mrs) (loc_of_shr_record mrs)) as Hnear.
  set (q := round_nearest_even (shr_m mrs) (loc_of_shr_record mrs)) in *.
  fold (finish sx q e1).
  destruct (Zdigits2_bounds mx Hm) as (Hd0 & Hhi & Hlo).
  set (d := Zdigits2 mx) in *.
  pose proof (pow2_pos j Hj) as Ht.
  assert (Hw : x - e1 = d - j) by (unfold x, j; lia).
  assert (Hq0 : 0 <= mx / 2 ^ j) by (apply Z.div_pos; lia).
  assert (Hup : mx < 2 ^ Z.max (d - j) 0 * 2 ^ j).
  { rewrite <- pow2_split by lia.
    assert (2 ^ d <= 2 ^ (Z.max (d - j) 0 + j)) by (apply pow2_le; lia). lia. }
  assert (Hqup : mx / 2 ^ j < 2 ^ Z.max (d - j) 0).
  { apply Z.div_lt_upper_bound; [lia |]. lia. }
  assert (Hqlo : 1 <= d - j -> 2 ^ (d - j - 1) <= mx / 2 ^ j).
  { intros Hge. apply Z.div_le_lower_bound; [lia |].
    assert (0 < mx).
    { destruct (Z.eq_dec mx 0) as [E|E]; [| lia]. exfalso.
      revert Hge. unfold d. rewrite E. cbn [Zdigits2]. lia. }
    specialize (Hlo H). rewrite Z.mul_comm, <- pow2_split by lia.
    replace (d - j - 1 + j) with (d - 1) by lia. exact Hlo. }
  pose proof (finish_spec sx q x) as Hfin. cbv zeta in Hfin.
  change (fexp64 x) with e1 in Hfin. rewrite Hw in Hfin.
  destruct Hfin as [[_ Hz] | [_ (m & e2 & Hf & Hc & _)]].
  - lia.
  - lia.
  - intros Hge. specialize (Hqlo Hge). lia.
  - rewrite Hz. split; reflexivity.
  - rewrite Hf.
    destruct (Z.leb_spec e2 971) as [He|He]; [| split; reflexivity].
    split; [| reflexivity]. unfold F64.valid, valid_binary, bounded. rewrite Hc.
    apply andb_true_iff; split; [reflexivity |]. apply Z.leb_le. exact He.
Qed.

(** *** The quotient of two integers *)

Lemma shifted_numerator (m s : Z) :
  0 <= s ->
  match s with Zpos _ => Z.shiftl m s | Z0 => m | Zneg _ => 0 end = m * 2 ^ s.
Proof.
  intros Hs. destruct s as [|p|p]; [| | lia].
  - rewrite Z.pow_0_r. lia.
  - now rewrite Z.shiftl_mul_pow2 by lia.
Qed.

Lemma div_core_digits (m1 m2 : positive) :
  let '(q, e', _) := SFdiv_core_binary F64.prec F64.emax (Zpos m1) 0 (Zpos m2) 0 in
  0 <= q /\ 0 <= fexp64 (Zdigits2 q + e') - e'.
Proof.
  unfold SFdiv_core_binary.
  pose proof (digits2_bounds m1) as [Hlo1 Hhi1].
  pose proof (digits2_bounds m2) as [Hlo2 Hhi2].
  cbn [Zdigits2].
  set (d1 := Zpos (digits2_pos m1)) in *. set (d2 := Zpos (digits2_pos m2)) in *.
  assert (Hd1 : 1 <= d1) by (unfold d1; lia). assert (Hd2 : 1 <= d2) by (unfold d2; lia).
  rewrite !Z.add_0_r, Z.sub_0_r.
  set (e' := Z.min (fexp64 (d1 - d2)) 0). set (s := 0 - e').
  assert (Hs : 0 <= s) by (unfold s, e'; lia).
  set (m' := match s with Zpos _ => Z.shiftl (Zpos m1) s | Z0 => Zpos m1 | Zneg _ => 0 end).
  assert (Hm' : m' = Zpos m1 * 2 ^ s) by (apply shifted_numerator; exact Hs).
  clearbody m'.
  pose proof (Z.div_eucl_eq m' (Zpos m2) ltac:(lia)) as Heq.
  pose proof (Z.mod_pos_bound m' (Zpos m2) ltac:(lia)) as Hr.
  unfold Z.modulo in Hr.
  destruct (Z.div_eucl m' (Z.pos m2)) as [q r].
  pose proof (pow2_pos s Hs) as Hps.
  assert (Hq : 0 <= q) by nia.
  split; [exact Hq |].
  rewrite fexp64_eq. unfold e' at 1.
  destruct (Z.eq_dec q 0) as [-> | Hne].
  - cbn [Zdigits2].
    (* the shifted numerator is below the divisor *)
    assert (Hlt : Zpos m1 * 2 ^ s < 2 ^ d2) by lia.
    assert (Hge : 2 ^ (d1 - 1 + s) <= Zpos m1 * 2 ^ s).
    { rewrite pow2_split by lia. nia. }
    assert (Hds : d1 - 1 + s < d2).
    { destruct (Z.lt_ge_cases (d1 - 1 + s) d2) as [|Hc]; [assumption |].
      assert (2 ^ d2 <= 2 ^ (d1 - 1 + s)) by (apply pow2_le; lia). lia. }
    rewrite fexp64_eq in *. unfold s, e' in *. rewrite fexp64_eq in *. lia.
  - assert (Hqpos : 0 < q) by lia.
    destruct (Zdigits2_bounds q Hq) as (Hdq0 & Hqhi & Hqlo). specialize (Hqlo Hqpos).
    set (dq := Zdigits2 q) in *.
    assert (Hdq1 : 1 <= dq).
    { destruct (Z.lt_ge_cases dq 1) as [Hc|]; [| assumption].
      assert (dq = 0) by lia. rewrite H in Hqhi. cbn in Hqhi. lia. }
    assert (Hdq : d1 + s - d2 <= dq).
    { destruct (Z.lt_ge_cases dq (d1 + s - d2)) as [Hc|]; [| lia]. exfalso.
      (* q < 2^dq and m2 < 2^d2 give m' < 2^(dq+d2) <= 2^(d1+s-1) <= m' *)
      assert (Hm'lt : m' < 2 ^ dq * 2 ^ d2) by nia.
      rewrite <- pow2_split in Hm'lt by lia.
      assert (2 ^ (dq + d2) <= 2 ^ (d1 - 1 + s)) by (apply pow2_le; lia).
      assert (2 ^ (d1 - 1 + s) <= Zpos m1 * 2 ^ s).
      { rewrite pow2_split by lia. nia. }
      lia. }
    unfold s, e' in *. rewrite fexp64_eq in *. lia.
Qed.

Lemma py_truediv_float (a b : Z) (q : float) :
  py_truediv a b = OK q -> F64.valid q = true /\ F64.is_nan q = false.
Proof.
  unfold py_truediv. destruct (Z.eqb_spec b 0) as [|Hb]; [discriminate |].
  assert (Hq : F64.valid (F64.div (F64.exact_int a) (F64.exact_int b)) = true /\
               F64.is_nan (F64.div (F64.exact_int a) (F64.exact_int b)) = false).
  { unfold F64.div. destruct a as [|pa|pa], b as [|pb|pb]; try lia;
      cbn [F64.exact_int SFdiv]; try (split; reflexivity).
    all: pose proof (div_core_digits pa pb) as Hd;
      destruct (SFdiv_core_binary F64.prec F64.emax (Zpos pa) 0 (Zpos pb) 0) as [[mz ez] lz];
      destruct Hd as [Hm Hj]; now apply binary_round_aux_float. }
  destruct (F64.div (F64.exact_int a) (F64.exact_int b)); try discriminate;
    intros [= <-]; exact Hq.
Qed.

Lemma calculate_slope_float (data_points : list Z) (slope : float) :
  calculate_slope data_points = OK slope ->
  F64.valid slope = true /\ F64.is_nan slope = false.
Proof.
  unfold calculate_slope. destruct (_ <? _)%nat; [intros [= <-]; split; reflexivity |].
  destruct (_ =? 0); [intros [= <-]; split; reflexivity |].
  apply py_truediv_float.
Qed.


(** ** AnalysisService: shape of a run *)

Lemma clean_data_at_most_seven `{StrOps} (data : option DataFrame) (keyword : string)
    (ints : list Z) :
  clean_data data keyword = OK ints -> (length ints <= 7)%nat.
Proof.
  unfold clean_data. destruct data as [data|]; [| intros [= <-]; cbn; lia].
  destruct (df_empty data); [intros [= <-]; cbn; lia |].
  set (d := if bool_decide _ then _ else _). clearbody d.
  destruct (df_getitem d keyword) as [values|e]; cbn [rbind]; [| discriminate].
  intros Hmap%rmap_list_length. rewrite Hmap.
  destruct (Nat.leb_spec 7 (length values)); [rewrite length_skipn |]; lia.
Qed.

Lemma fetch_related_keywords_short (P : Provider) (keyword : string) (limit : nat)
    (w : World) :
  exists related,
    fetch_related_keywords P keyword limit w =
      (OK related, logged w [Sleep 1; Suggestions (pytrend w) keyword]) /\
    (length related <= limit)%nat.
Proof.
  unfold fetch_related_keywords, try_except, bind, sleep, emit, query_suggestions, ret.
  cbn [log pytrend cache].
  destruct (suggestions P (log w ++ [Sleep 1]) (pytrend w) keyword) as [msg|l];
    cbn [of_provider]; eexists; (split; [unfold logged; rewrite <- app_assoc; reflexivity |]).
  - cbn [length]. lia.
  - assert (Ht : forall l0, (length (titles l0) <= length l0)%nat).
    { induction l0 as [|s l0 IH]; [reflexivity |].
      cbn [titles length]. destruct (s !! "title"); cbn [length]; lia. }
    pose proof (Ht (firstn limit l)). pose proof (firstn_le_length limit l).
    rewrite length_firstn in *. lia.
Qed.

(** The shape of a run of the [try] block. *)
Lemma analyze_try_shape `{StrOps} (P : Provider) (keyword : string) (w w' : World)
    (r : result AnalyzeResponse) :
  analyze_try P keyword w = (r, w') ->
  exists raw w1,
    fetch_trends_data P keyword 3 w = (raw, w1) /\
    match r with
    | Raise e => w' = w1
    | OK response =>
        coherent response /\
        clean_data (match raw with OK d => d | Raise _ => None end) keyword =
          OK (graph_data response) /\
        w' = {| cache := <[keyword := response]> (cache w1); pytrend := pytrend w1;
                log := log w1 ++ [Sleep 1; Suggestions (pytrend w1) keyword] |}
    end.
Proof.
  unfold analyze_try, bind at 1.
  destruct (fetch_trends_data P keyword 3 w) as [[raw|e] w1] eqn:Hf.
  2:{ intros [= <- <-]. exists (Raise e), w1. split; reflexivity. }
  intros Hrun. exists (OK raw), w1. split; [reflexivity |]. revert Hrun.
  destruct (match raw with None => true | Some d => df_empty d end).
  { intros [= <- <-]. reflexivity. }
  unfold bind at 1, lift at 1.
  destruct (clean_data raw keyword) as [graph|e] eqn:Hclean.
  2:{ intros [= <- <-]. reflexivity. }
  destruct (Nat.ltb_spec (length graph) 2) as [Hlt|Hge].
  { intros [= <- <-]. reflexivity. }
  unfold bind at 1, lift at 1.
  destruct (calculate_slope graph) as [slope|e] eqn:Hslope.
  2:{ intros [= <- <-]. reflexivity. }
  unfold bind at 1, lift at 1.
  destruct (calculate_score slope) as [sc|e] eqn:Hscore.
  2:{ intros [= <- <-]. reflexivity. }
  unfold bind at 1.
  destruct (fetch_related_keywords_short P keyword 3 w1) as (related & -> & Hlen).
  unfold bind, cache_put, ret. cbn [logged cache pytrend log].
  intros [= <- <-]. cbn [graph_data].
  split; [| split; reflexivity].
  exists slope. cbn [graph_data trend score confidence best_posting_time related_keywords].
  pose proof (clean_data_at_most_seven raw keyword graph Hclean).
  repeat split; try assumption; lia.
Qed.

(** The shape of a run of [analyze]. *)
Lemma analyze_shape `{StrOps} (P : Provider) (request_keyword : string) (w w' : World)
    (r : result AnalyzeResponse) :
  analyze P request_keyword w = (r, w') ->
  let keyword := normalize request_keyword in
  (w' = w /\
   (r = Raise InvalidInput \/
    exists cached, cache w !! keyword = Some cached /\ r = OK cached)) \/
  (keyword <> "" /\ cache w !! keyword = None /\
   exists raw w1,
     fetch_trends_data P keyword 3 w = (raw, w1) /\
     match r with
     | Raise e => w' = w1
     | OK response =>
         coherent response /\
         w' = {| cache := <[keyword := response]> (cache w1); pytrend := pytrend w1;
                 log := log w1 ++ [Sleep 1; Suggestions (pytrend w1) keyword] |}
     end).
Proof.
  intros Hrun keyword. subst keyword.
  destruct (decide (normalize request_keyword = "")) as [Hk|Hk].
  { rewrite (analyze_empty P _ w Hk) in Hrun. injection Hrun as <- <-.
    left. split; [reflexivity | now left]. }
  destruct (cache w !! normalize request_keyword) as [cached|] eqn:Hlook.
  { rewrite (analyze_hit P _ w cached Hk Hlook) in Hrun. injection Hrun as <- <-.
    left. split; [reflexivity |]. right. now exists cached. }
  right. split; [exact Hk |]. split; [reflexivity |].
  rewrite (analyze_miss P _ w Hk Hlook) in Hrun. unfold try_except in Hrun.
  destruct (analyze_try P (normalize request_keyword) w) as [[resp|e0] w2] eqn:Htry;
    apply analyze_try_shape in Htry as (raw & w1 & Hf & Hshape); exists raw, w1;
    (split; [exact Hf |]).
  - injection Hrun as <- <-. tauto.
  - assert (Hw : exists e1, r = Raise e1 /\ w' = w2).
    { destruct e0 as [c d|msg]; cbn in Hrun.
      - injection Hrun as <- <-. eauto.
      - destruct (contains "429" msg); injection Hrun as <- <-; eauto. }
    destruct Hw as (e1 & -> & ->). exact Hshape.
Qed.

(** ** SeriesFetcher: exhaustion *)

Lemma fetch_attempts_exhaust (P : Provider) (keyword : string) (max_retries : nat)
    (n : nat) :
  always_rate_limited P ->
  forall (attempt : nat) (w : World),
    (attempt + S n = max_retries)%nat ->
    exists msg w',
      fetch_attempts P keyword max_retries (seq attempt (S n)) w =
        (Raise (Exception msg), w') /\
      contains "429" msg = true /\
      cache w' = cache w /\
      count_interest (log w') = (count_interest (log w) + S n)%nat /\
      pytrend w' = (pytrend w + n)%nat /\
      total_sleep (log w') = (total_sleep (log w) + sleep_budget attempt n)%nat /\
      count_suggestions (log w') = count_suggestions (log w).
Proof.
  intros HP. induction n as [|n IH]; intros attempt w Hmax.
  - change (seq attempt 1) with [attempt]. rewrite fetch_attempts_step.
    destruct (HP (log w ++ [Sleep 2]) (pytrend w) keyword) as (msg & Ha & H429).
    unfold attempt_answer. rewrite Ha, H429.
    assert (Hlast : (attempt <? max_retries - 1)%nat = false) by (apply Nat.ltb_ge; lia).
    rewrite Hlast. cbn [andb].
    exists msg. eexists. split; [reflexivity |]. split; [exact H429 |].
    cbn [logged log pytrend cache].
    rewrite count_interest_app, total_sleep_app, count_suggestions_app.
    cbn [count_interest total_sleep count_suggestions sleep_budget].
    repeat split; lia.
  - change (seq attempt (S (S n))) with (attempt :: seq (S attempt) (S n)).
    rewrite fetch_attempts_step.
    destruct (HP (log w ++ [Sleep 2]) (pytrend w) keyword) as (msg0 & Ha & H429).
    unfold attempt_answer. rewrite Ha, H429.
    assert (Hmore : (attempt <? max_retries - 1)%nat = true) by (apply Nat.ltb_lt; lia).
    rewrite Hmore. cbn [andb].
    match goal with
    | |- context [fetch_attempts _ _ _ _ ?w0] =>
        destruct (IH (S attempt) w0 ltac:(lia))
          as (msg & w' & Hrun & Hm & Hc & Hq & Hh & Hs & Hg)
    end.
    exists msg, w'. split; [exact Hrun |]. split; [exact Hm |].
    cbn [with_client logged log pytrend cache] in Hc, Hq, Hh, Hs, Hg.
    rewrite !count_interest_app, !total_sleep_app, !count_suggestions_app in *.
    cbn [count_interest total_sleep count_suggestions] in *.
    cbn [sleep_budget]. repeat split; try assumption; lia.
Qed.

Lemma throttled_limited : always_rate_limited throttled.
Proof. intros h c k. eexists. split; [reflexivity | vm_compute; reflexivity]. Qed.

(** X8. If every series query is rate-limited, [fetch_trends_data] gives up with
    the provider's last message after exactly [max_retries] queries and
    [max_retries - 1] fresh clients, having slept its whole budget. *)
Theorem fetch_trends_data_exhausts (P : Provider) (keyword : string)
    (max_retries : nat) (w : World) :
  always_rate_limited P -> (0 < max_retries)%nat ->
  exists msg w',
    fetch_trends_data P keyword max_retries w = (Raise (Exception msg), w') /\
    contains "429" msg = true /\
    count_interest (log w') = (count_interest (log w) + max_retries)%nat /\
    pytrend w' = (pytrend w + (max_retries - 1))%nat /\
    total_sleep (log w') =
      (total_sleep (log w) + sleep_budget 0 (max_retries - 1))%nat.
Proof.
  intros HP Hpos. destruct max_retries as [|n]; [lia |].
  destruct (fetch_attempts_exhaust P keyword (S n) n HP 0%nat w eq_refl)
    as (msg & w' & Hrun & Hm & _ & Hq & Hh & Hs & _).
  exists msg, w'. unfold fetch_trends_data, range.
  replace (S n - 1)%nat with n by lia. repeat split; assumption.
Qed.

Lemma fetch_trends_data_exhausts_witness :
  always_rate_limited throttled /\ (0 < 3)%nat /\
  exists msg w',
    fetch_trends_data throttled "coffee" 3 initial_world = (Raise (Exception msg), w') /\
    contains "429" msg = true /\
    count_interest (log w') = 3%nat /\ pytrend w' = 2%nat /\
    total_sleep (log w') = 36%nat.
Proof.
  split; [exact throttled_limited |]. split; [lia |].
  exact (fetch_trends_data_exhausts throttled "coffee" 3 initial_world
           throttled_limited ltac:(lia)).
Defined.

(** ** AnalysisService: effects, cache and responses *)

Lemma fetch_three_effects (P : Provider) (keyword : string) (w w1 : World)
    (r : result (option DataFrame)) :
  fetch_trends_data P keyword 3 w = (r, w1) ->
  cache w1 = cache w /\
  (count_interest (log w1) <= count_interest (log w) + 3)%nat /\
  (pytrend w <= pytrend w1 <= pytrend w + 2)%nat /\
  (total_sleep (log w1) <= total_sleep (log w) + 36)%nat /\
  count_suggestions (log w1) = count_suggestions (log w).
Proof.
  intros Hf. unfold fetch_trends_data, range in Hf.
  destruct (fetch_attempts_facts P keyword 3 _ w r w1 Hf) as (Hc & _ & Hn).
  destruct (fetch_attempts_budget P keyword 3 2 0 w w1 r eq_refl Hf) as (_ & Hh & Hs & Hg).
  rewrite length_seq in Hn. cbn [sleep_budget] in Hs.
  repeat split; try assumption; lia.
Qed.

(** X9. One call of [analyze] sleeps at most 37 seconds, queries the series at
    most three times and the suggestions at most once, and replaces the
    client at most twice; a call that fails has not asked for suggestions. *)
Theorem analyze_effect_budget `{StrOps} (P : Provider) (request_keyword : string)
    (w w' : World) (r : result AnalyzeResponse) :
  analyze P request_keyword w = (r, w') ->
  (total_sleep (log w') <= total_sleep (log w) + 37)%nat /\
  (count_interest (log w') <= count_interest (log w) + 3)%nat /\
  (count_suggestions (log w') <= count_suggestions (log w) + 1)%nat /\
  (pytrend w <= pytrend w' <= pytrend w + 2)%nat /\
  (forall e, r = Raise e -> count_suggestions (log w') = count_suggestions (log w)).
Proof.
  intros Hrun.
  destruct (analyze_shape P request_keyword w w' r Hrun)
    as [[-> _] | (_ & _ & raw & w1 & Hf & Hshape)].
  { repeat split; lia. }
  apply fetch_three_effects in Hf as (_ & Hn & Hh & Hs & Hg).
  destruct r as [response|e].
  - destruct Hshape as (_ & ->). cbn [log pytrend].
    rewrite total_sleep_app, count_interest_app, count_suggestions_app.
    cbn [total_sleep count_interest count_suggestions].
    repeat split; try lia. intros e [=].
  - subst w'. repeat split; lia.
Qed.

Lemma analyze_effect_budget_witness :
  exists r w',
    analyze limited_twice "Coffee" initial_world = (r, w') /\
    total_sleep (log w') = 37%nat /\
    (total_sleep (log w') <= total_sleep (log initial_world) + 37)%nat.
Proof.
  destruct (analyze limited_twice "Coffee" initial_world) as [r w'] eqn:Hrun.
  exists r, w'. split; [reflexivity |].
  split; [vm_compute in Hrun; injection Hrun as _ <-; reflexivity |].
  exact (proj1 (analyze_effect_budget limited_twice "Coffee" initial_world w' r Hrun)).
Defined.

(** X10. If every series query is rate-limited, a call of [analyze] for a keyword
    that is not cached fails with RateLimited after three queries, two fresh
    clients and 36 seconds of sleep, and leaves the cache as it was. *)
Theorem analyze_rate_limited `{StrOps} (P : Provider) (request_keyword : string) (w : World) :
  always_rate_limited P ->
  normalize request_keyword <> "" ->
  cache w !! normalize request_keyword = None ->
  exists w',
    analyze P request_keyword w = (Raise RateLimited, w') /\
    cache w' = cache w /\
    count_interest (log w') = (count_interest (log w) + 3)%nat /\
    pytrend w' = (pytrend w + 2)%nat /\
    total_sleep (log w') = (total_sleep (log w) + 36)%nat /\
    count_suggestions (log w') = count_suggestions (log w).
Proof.
  intros HP Hk Hmiss.
  destruct (fetch_attempts_exhaust P (normalize request_keyword) 3 2 HP 0%nat w eq_refl)
    as (msg & w' & Hrun & Hm & Hc & Hq & Hh & Hs & Hg).
  exists w'. rewrite (analyze_miss P _ w Hk Hmiss).
  unfold try_except, analyze_try, bind at 1, fetch_trends_data, range.
  change (seq 0 3) with (seq 0 (S 2)). rewrite Hrun.
  cbn [analyze_except]. rewrite Hm. unfold raise.
  cbn [sleep_budget] in Hs. repeat split; try assumption; lia.
Qed.

Lemma analyze_rate_limited_witness :
  always_rate_limited throttled /\
  normalize " Coffee " <> "" /\
  cache initial_world !! normalize " Coffee " = None /\
  exists w',
    analyze throttled " Coffee " initial_world = (Raise RateLimited, w') /\
    total_sleep (log w') = 36%nat.
Proof.
  split; [exact throttled_limited |].
  assert (Hk : normalize " Coffee " <> "") by (vm_compute; discriminate).
  assert (Hmiss : cache initial_world !! normalize " Coffee " = None) by reflexivity.
  split; [exact Hk |]. split; [exact Hmiss |].
  destruct (analyze_rate_limited throttled " Coffee " initial_world
              throttled_limited Hk Hmiss) as (w' & Hrun & _ & _ & _ & Hs & _).
  exists w'. split; [exact Hrun | exact Hs].
Defined.

(** X11. [analyze] never evicts or overwrites: every entry of the cache is still
    there afterwards with the same response, and the only key that can be
    new is the normalized keyword. *)
Theorem analyze_cache_grows `{StrOps} (P : Provider) (request_keyword : string)
    (w w' : World) (r : result AnalyzeResponse) :
  analyze P request_keyword w = (r, w') ->
  cache w ⊆ cache w' /\
  (forall k, k <> normalize request_keyword -> cache w' !! k = cache w !! k) /\
  (forall k v, cache w !! k = Some v -> cache w' !! k = Some v).
Proof.
  intros Hrun.
  assert (Hsub : cache w ⊆ cache w' /\
                 forall k, k <> normalize request_keyword ->
                           cache w' !! k = cache w !! k).
  { destruct (analyze_shape P request_keyword w w' r Hrun)
      as [[-> _] | (_ & Hmiss & raw & w1 & Hf & Hshape)].
    { split; [reflexivity | intros; reflexivity]. }
    apply fetch_three_effects in Hf as (Hc & _).
    destruct r as [response|e].
    - destruct Hshape as (_ & ->). cbn [cache]. rewrite Hc. split.
      + now apply insert_subseteq.
      + intros k Hne. now rewrite lookup_insert_ne by congruence.
    - subst w'. rewrite Hc. split; [reflexivity | intros; reflexivity]. }
  destruct Hsub as [Hsub Hframe]. split; [exact Hsub |]. split; [exact Hframe |].
  intros k v Hkv. now apply (lookup_weaken _ _ _ _ Hkv Hsub).
Qed.

Lemma analyze_cache_grows_witness :
  exists r w1 w2 r2,
    analyze limited_once "Coffee" initial_world = (OK r, w1) /\
    analyze no_data "tea" w1 = (r2, w2) /\
    cache w1 !! "coffee" = Some r /\
    cache w2 !! "coffee" = Some r.
Proof.
  destruct (analyze limited_once "Coffee" initial_world) as [[r|e] w1] eqn:Hrun;
    [| vm_compute in Hrun; discriminate].
  destruct (analyze no_data "tea" w1) as [r2 w2] eqn:Hrun2.
  exists r, w1, w2, r2. split; [reflexivity |]. split; [exact Hrun2 |].
  assert (Hhit : cache w1 !! "coffee" = Some r).
  { exact (proj1 (proj2 (analyze_ok_cached limited_once "Coffee" initial_world w1 r Hrun))). }
  split; [exact Hhit |].
  exact (proj2 (proj2 (analyze_cache_grows no_data "tea" w1 w2 r2 Hrun2))
           "coffee" r Hhit).
Defined.

(** X12. [analyze] keeps the cache coherent: if every cached response is
    computed from its own series, so is every response cached afterwards and
    the response returned, whether fresh or served from the cache. *)
Theorem analyze_preserves_coherence `{StrOps} (P : Provider) (request_keyword : string)
    (w w' : World) (r : result AnalyzeResponse) :
  map_Forall (fun _ cached => coherent cached) (cache w) ->
  analyze P request_keyword w = (r, w') ->
  map_Forall (fun _ cached => coherent cached) (cache w') /\
  (forall response, r = OK response -> coherent response).
Proof.
  intros Hinv Hrun.
  destruct (analyze_shape P request_keyword w w' r Hrun)
    as [[-> Hr] | (_ & Hmiss & raw & w1 & Hf & Hshape)].
  { split; [exact Hinv |]. intros response ->.
    destruct Hr as [[=] | (cached & Hlook & [= <-])].
    exact (map_Forall_lookup_1 _ _ _ _ Hinv Hlook). }
  apply fetch_three_effects in Hf as (Hc & _).
  destruct r as [response|e].
  - destruct Hshape as (Hco & ->). cbn [cache]. rewrite Hc. split.
    + now apply map_Forall_insert_2.
    + now intros ? [= <-].
  - subst w'. rewrite Hc. split; [exact Hinv | intros ? [=]].
Qed.

Lemma analyze_preserves_coherence_witness :
  map_Forall (fun _ cached => coherent cached) (cache initial_world) /\
  exists r w',
    analyze limited_once "Coffee" initial_world = (OK r, w') /\
    coherent r /\
    map_Forall (fun _ cached => coherent cached) (cache w').
Proof.
  assert (Hinv : map_Forall (fun _ cached => coherent cached) (cache initial_world))
    by apply map_Forall_empty.
  split; [exact Hinv |].
  destruct (analyze limited_once "Coffee" initial_world) as [[r|e] w'] eqn:Hrun;
    [| vm_compute in Hrun; discriminate].
  exists r, w'. split; [reflexivity |].
  destruct (analyze_preserves_coherence limited_once "Coffee" initial_world w' (OK r)
              Hinv Hrun) as [Hcache Hresp].
  split; [exact (Hresp r eq_refl) | exact Hcache].
Defined.

(** X13. A coherent response is one of three kinds: Rising with a score of 60 to
    100 and the evening window, Stable with a score of 40 to 60 and the
    midday window, Declining with a score of 0 to 40 and the morning
    window; a directed trend never has Low confidence and a Stable one never
    High. *)
Theorem coherent_response_bands (r : AnalyzeResponse) :
  coherent r ->
  (trend r = "Rising" /\ 60 <= score r <= 100 /\
   confidence r <> "Low" /\ best_posting_time r = "7 PM – 10 PM") \/
  (trend r = "Stable" /\ 40 <= score r <= 60 /\
   confidence r <> "High" /\ best_posting_time r = "12 PM – 3 PM") \/
  (trend r = "Declining" /\ 0 <= score r <= 40 /\
   confidence r <> "Low" /\ best_posting_time r = "9 AM – 12 PM").
Proof.
  intros (slope & Hslope & Ht & Hs & Hc & Hb & _ & _).
  destruct (calculate_slope_float _ _ Hslope) as [Hv Hn].
  destruct (score_follows_trend_scaled scale scale_ok slope Hv Hn)
    as (k & Hk & Hup & Hmid & Hdown).
  assert (k = score r) by congruence. subst k. clear Hk Hs Hslope.
  rewrite Hb, Ht, Hc. clear Hb Ht Hc.
  unfold classify_trend in *. unfold determine_confidence.
  destruct (F64.ltb F64.f0_8 slope) eqn:H8.
  - left. split; [reflexivity |]. split; [now apply Hup |].
    split; [| reflexivity].
    rewrite (rising_confident slope H8).
    destruct (F64.ltb F64.f1_2 (F64.abs slope)); discriminate.
  - destruct (F64.ltb slope (F64.neg F64.f0_8)) eqn:Hm8.
    + right; right. split; [reflexivity |]. split; [now apply Hdown |].
      split; [| reflexivity].
      rewrite (declining_confident slope Hm8).
      destruct (F64.ltb F64.f1_2 (F64.abs slope)); discriminate.
    + right; left. split; [reflexivity |]. split; [now apply Hmid |].
      split; [| reflexivity].
      destruct (F64.ltb F64.f1_2 (F64.abs slope)) eqn:H12.
      * destruct (high_confidence_directed slope H12); congruence.
      * destruct (F64.ltb F64.f0_6 (F64.abs slope)); discriminate.
Qed.

Lemma coherent_response_bands_witness :
  let r := {| trend := "Rising"; score := 100; confidence := "High";
              related_keywords := ["Coffee bean"];
              best_posting_time := "7 PM – 10 PM";
              graph_data := [10; 20; 30; 40; 50; 60; 70] |} in
  coherent r /\ 60 <= score r <= 100.
Proof.
  intros r.
  assert (Hco : coherent r).
  { exists (F64.of_int 10). unfold r.
    cbn [graph_data trend score confidence best_posting_time related_keywords].
    split; [vm_compute; reflexivity |]. split; [vm_compute; reflexivity |].
    split; [vm_compute; reflexivity |]. split; [vm_compute; reflexivity |].
    split; [vm_compute; reflexivity |]. cbn [length]. lia. }
  split; [exact Hco |].
  destruct (coherent_response_bands r Hco) as [(_ & Hs & _) | [(Ht & _) | (Ht & _)]];
    [exact Hs | discriminate Ht | discriminate Ht].
Defined.

(** ** TrendClassifier: slope of shifted, flat and monotone series *)

Lemma big_sum_linear (f g : nat -> Z) (c : Z) (n : nat) :
  big_sum (fun i => f i + c * g i) n = big_sum f n + c * big_sum g n.
Proof. induction n as [|n IH]; [cbn [big_sum]; lia |]. cbn [big_sum]. rewrite IH. lia. Qed.

Lemma big_sum_indexed (f : nat -> Z) (c : Z) (n : nat) :
  big_sum (fun i => f i + c * Z.of_nat i) n =
  big_sum f n + c * big_sum (fun i => Z.of_nat i) n.
Proof. induction n as [|n IH]; [cbn [big_sum]; lia |]. cbn [big_sum]. rewrite IH. lia. Qed.

Lemma big_sum_ones (n : nat) : big_sum (fun _ => 1) n = Z.of_nat n.
Proof. induction n as [|n IH]; [reflexivity |]. cbn [big_sum]. lia. Qed.

Lemma big_sum_nonneg (g : nat -> Z) (n : nat) :
  (forall i, (i < n)%nat -> 0 <= g i) -> 0 <= big_sum g n.
Proof.
  induction n as [|n IH]; intros Hg; [reflexivity |]. cbn [big_sum].
  assert (0 <= big_sum g n) by (apply IH; intros; apply Hg; lia).
  assert (0 <= g n) by (apply Hg; lia). lia.
Qed.

Lemma nth_shifted (c : Z) (y : list Z) (i : nat) :
  (i < length y)%nat -> nth i (map (Z.add c) y) 0 = nth i y 0 + c * 1.
Proof.
  intros Hi. rewrite (nth_indep _ 0 (Z.add c 0)) by (now rewrite length_map).
  rewrite map_nth. lia.
Qed.

Lemma ols_numerator_shift (c : Z) (y : list Z) :
  ols_numerator (map (Z.add c) y) = ols_numerator y.
Proof.
  unfold ols_numerator. rewrite length_map. set (n := length y).
  rewrite (big_sum_ext (fun i => Z.of_nat i * nth i (map (Z.add c) y) 0)
             (fun i => Z.of_nat i * nth i y 0 + c * Z.of_nat i)).
  2:{ intros i Hi. rewrite nth_shifted by exact Hi. ring. }
  rewrite (big_sum_ext (fun i => nth i (map (Z.add c) y) 0)
             (fun i => nth i y 0 + c * 1)).
  2:{ intros i Hi. now apply nth_shifted. }
  rewrite big_sum_indexed, big_sum_linear, big_sum_ones. ring.
Qed.

(** X14. Adding the same integer to every value leaves the slope, bit for bit,
    as it was: the trend of a series does not depend on its level. *)
Theorem calculate_slope_shift_invariant (c : Z) (y : list Z) :
  calculate_slope (map (Z.add c) y) = calculate_slope y.
Proof.
  destruct (le_lt_dec 2 (length y)) as [Hn|Hn].
  - rewrite !calculate_slope_sums by (rewrite ?length_map; exact Hn).
    now rewrite ols_numerator_shift, length_map.
  - unfold calculate_slope. rewrite length_map.
    destruct (Nat.ltb_spec (length y) 2); [reflexivity | lia].
Qed.

Lemma big_sum_zero (g : nat -> Z) (n : nat) :
  (forall i, (i < n)%nat -> g i = 0) -> big_sum g n = 0.
Proof.
  induction n as [|n IH]; intros Hg; [reflexivity |]. cbn [big_sum].
  rewrite IH, Hg by (intros; try apply Hg; lia). reflexivity.
Qed.

Lemma ols_numerator_flat (c : Z) (n : nat) : ols_numerator (repeat c n) = 0.
Proof.
  replace (repeat c n) with (map (Z.add c) (repeat 0 n))
    by (rewrite map_repeat; f_equal; lia).
  rewrite ols_numerator_shift. unfold ols_numerator. rewrite repeat_length.
  rewrite (big_sum_zero (fun i => Z.of_nat i * nth i (repeat 0 n) 0))
    by (intros i _; rewrite nth_repeat; lia).
  rewrite (big_sum_zero (fun i => nth i (repeat 0 n) 0))
    by (intros i _; now rewrite nth_repeat).
  lia.
Qed.

Lemma py_truediv_zero (b : Z) : 0 < b -> py_truediv 0 b = OK F64.zero.
Proof.
  intros Hb. unfold py_truediv. destruct (Z.eqb_spec b 0); [lia |].
  destruct b as [|p|p]; try lia. reflexivity.
Qed.

(** X15. A flat series, of any length and at any level, has slope exactly 0.0:
    it is Stable, scores 50 and has Low confidence. *)
Theorem flat_series_neutral (c : Z) (n : nat) :
  calculate_slope (repeat c n) = OK F64.zero /\
  classify_trend F64.zero = "Stable" /\
  calculate_score F64.zero = OK 50 /\
  determine_confidence F64.zero = "Low".
Proof.
  split; [| repeat split; vm_compute; reflexivity].
  destruct (le_lt_dec 2 n) as [Hn|Hn].
  - rewrite calculate_slope_sums by (now rewrite repeat_length).
    rewrite ols_numerator_flat, repeat_length.
    apply py_truediv_zero. now apply ols_denominator_pos.
  - unfold calculate_slope. rewrite repeat_length.
    destruct (Nat.ltb_spec n 2); [reflexivity | lia].
Qed.

Lemma big_sum_cross (f : nat -> Z) (n fn : Z) (m : nat) :
  big_sum (fun i => (n - Z.of_nat i) * (fn - f i)) m =
  n * fn * Z.of_nat m - fn * big_sum (fun i => Z.of_nat i) m
  - n * big_sum f m + big_sum (fun i => Z.of_nat i * f i) m.
Proof. induction m as [|m IH]; [cbn [big_sum]; lia |]. cbn [big_sum]. rewrite IH. lia. Qed.

(** The numerator grows by the cross terms of the new point with the old. *)
Lemma numerator_step (f : nat -> Z) (n : nat) :
  Z.of_nat (S n) * big_sum (fun i => Z.of_nat i * f i) (S n)
  - big_sum (fun i => Z.of_nat i) (S n) * big_sum f (S n) =
  (Z.of_nat n * big_sum (fun i => Z.of_nat i * f i) n
   - big_sum (fun i => Z.of_nat i) n * big_sum f n)
  + big_sum (fun i => (Z.of_nat n - Z.of_nat i) * (f n - f i)) n.
Proof.
  rewrite big_sum_cross. cbn [big_sum]. rewrite Nat2Z.inj_succ. ring.
Qed.

Lemma numerator_sign (s : Z) (f : nat -> Z) (n : nat) :
  (forall i j, (i <= j < n)%nat -> 0 <= s * (f j - f i)) ->
  0 <= s * (Z.of_nat n * big_sum (fun i => Z.of_nat i * f i) n
            - big_sum (fun i => Z.of_nat i) n * big_sum f n).
Proof.
  induction n as [|n IH]; intros Hf; [cbn [big_sum]; lia |].
  rewrite numerator_step, Z.mul_add_distr_l.
  assert (0 <= s * (Z.of_nat n * big_sum (fun i => Z.of_nat i * f i) n
                    - big_sum (fun i => Z.of_nat i) n * big_sum f n))
    by (apply IH; intros; apply Hf; lia).
  assert (0 <= s * big_sum (fun i => (Z.of_nat n - Z.of_nat i) * (f n - f i)) n).
  { replace (s * big_sum (fun i => (Z.of_nat n - Z.of_nat i) * (f n - f i)) n)
      with (big_sum (fun i => 0 + s * ((Z.of_nat n - Z.of_nat i) * (f n - f i))) n)
      by (rewrite big_sum_linear, (big_sum_zero (fun _ => 0)) by reflexivity; lia).
    apply big_sum_nonneg. intros i Hi.
    assert (0 <= s * (f n - f i)) by (apply Hf; lia). nia. }
  lia.
Qed.

Lemma ols_numerator_nonneg (y : list Z) : non_decreasing y -> 0 <= ols_numerator y.
Proof.
  intros Hy. pose proof (numerator_sign 1 (fun i => nth i y 0) (length y)) as Hs.
  unfold ols_numerator. rewrite Z.mul_1_l in Hs. apply Hs.
  intros i j Hij. specialize (Hy i j Hij). lia.
Qed.

Lemma ols_numerator_nonpos (y : list Z) : non_increasing y -> ols_numerator y <= 0.
Proof.
  intros Hy. pose proof (numerator_sign (-1) (fun i => nth i y 0) (length y)) as Hs.
  unfold ols_numerator.
  assert (0 <= -1 * (Z.of_nat (length y) *
                       big_sum (fun i => Z.of_nat i * nth i y 0) (length y)
                     - big_sum (fun i => Z.of_nat i) (length y) *
                       big_sum (fun i => nth i y 0) (length y))); [| lia].
  apply Hs. intros i j Hij. specialize (Hy i j Hij). lia.
Qed.

(** The sign of a rounded result is the sign it was given. *)
Lemma binary_round_aux_sign (sx : bool) (mx ex : Z) (lx : location) :
  match binary_round_aux F64.prec F64.emax sx mx ex lx with
  | S754_zero s | S754_infinity s | S754_finite s _ _ => s = sx
  | S754_nan => True
  end.
Proof.
  unfold binary_round_aux.
  destruct (shr_fexp F64.prec F64.emax mx ex lx) as [mrs' e'].
  destruct (shr_fexp F64.prec F64.emax _ e' loc_Exact) as [mrs'' e''].
  destruct (shr_m mrs''); [reflexivity | | exact I].
  destruct (e'' <=? F64.emax - F64.prec); reflexivity.
Qed.

Lemma py_truediv_sign (a b : Z) (q : float) :
  0 < b -> py_truediv a b = OK q ->
  (0 <= a -> F64.leb F64.zero q = true /\ F64.ltb q (F64.neg F64.f0_8) = false) /\
  (a <= 0 -> F64.leb q F64.zero = true /\ F64.ltb F64.f0_8 q = false).
Proof.
  intros Hb Hq. destruct (py_truediv_float a b q Hq) as [_ Hn]. revert Hq.
  unfold py_truediv. destruct (Z.eqb_spec b 0); [lia |].
  destruct b as [|pb|pb]; try lia.
  assert (Hsign : match F64.div (F64.exact_int a) (F64.exact_int (Zpos pb)) with
                  | S754_zero s => s = false \/ a < 0
                  | S754_infinity s | S754_finite s _ _ =>
                      if s then a < 0 else 0 < a
                  | S754_nan => True
                  end).
  { unfold F64.div. destruct a as [|pa|pa]; cbn [F64.exact_int SFdiv xorb];
      [now left | |];
      destruct (SFdiv_core_binary F64.prec F64.emax _ 0 (Zpos pb) 0) as [[mz ez] lz];
      pose proof (binary_round_aux_sign false mz ez lz) as Hf;
      pose proof (binary_round_aux_sign true mz ez lz) as Ht.
    - destruct (binary_round_aux F64.prec F64.emax false mz ez lz);
        try subst; try exact I; try lia; now left.
    - destruct (binary_round_aux F64.prec F64.emax true mz ez lz);
        try subst; try exact I; try lia; right; lia. }
  destruct (F64.div (F64.exact_int a) (F64.exact_int (Zpos pb))) as [s|s| |s m e];
    try discriminate; intros [= <-].
  - split; intros _; split; destruct s; reflexivity.
  - discriminate Hn.
  - destruct s; split; intros Ha; try lia; split; reflexivity.
Qed.

Lemma calculate_slope_sign (y : list Z) (slope : float) :
  calculate_slope y = OK slope ->
  (0 <= ols_numerator y ->
   F64.leb F64.zero slope = true /\ F64.ltb slope (F64.neg F64.f0_8) = false) /\
  (ols_numerator y <= 0 ->
   F64.leb slope F64.zero = true /\ F64.ltb F64.f0_8 slope = false).
Proof.
  destruct (le_lt_dec 2 (length y)) as [Hn|Hn].
  - rewrite calculate_slope_sums by exact Hn.
    apply py_truediv_sign. now apply ols_denominator_pos.
  - unfold calculate_slope. destruct (Nat.ltb_spec (length y) 2); [| lia].
    intros [= <-]. split; intros _; split; reflexivity.
Qed.

Lemma score_of_zero : calculate_score F64.zero = OK 50.
Proof. vm_compute. reflexivity. Qed.

(** X16. A series that never falls is never classified Declining and never
    scores below 50. *)
Theorem non_decreasing_never_declining (y : list Z) (slope : float) :
  non_decreasing y ->
  calculate_slope y = OK slope ->
  classify_trend slope <> "Declining" /\
  exists k, calculate_score slope = OK k /\ 50 <= k <= 100.
Proof.
  intros Hy Hslope.
  destruct (calculate_slope_float y slope Hslope) as [Hv _].
  destruct (proj1 (calculate_slope_sign y slope Hslope) (ols_numerator_nonneg y Hy))
    as [Hle Hlt].
  split.
  - unfold classify_trend. destruct (F64.ltb F64.f0_8 slope); [discriminate |].
    rewrite Hlt. discriminate.
  - destruct (calculate_score_range scale scale_ok slope) as (k & Hk & Hrange).
    exists k. split; [exact Hk |].
    pose proof (calculate_score_mono scale scale_ok F64.zero slope 50 k
                  eq_refl Hv Hle score_of_zero Hk).
    lia.
Qed.

Lemma non_decreasing_never_declining_witness :
  non_decreasing [10; 20; 30; 40; 50; 60; 70] /\
  exists slope,
    calculate_slope [10; 20; 30; 40; 50; 60; 70] = OK slope /\
    classify_trend slope <> "Declining".
Proof.
  assert (Hy : non_decreasing [10; 20; 30; 40; 50; 60; 70]).
  { intros i j [Hij Hj]. cbn [length] in Hj.
    do 7 (destruct j as [|j]; [do 7 (destruct i as [|i]; [cbn; lia |]); lia |]). lia. }
  split; [exact Hy |].
  destruct (calculate_slope [10; 20; 30; 40; 50; 60; 70]) as [slope|e] eqn:Hslope;
    [| vm_compute in Hslope; discriminate Hslope].
  exists slope. split; [reflexivity |].
  exact (proj1 (non_decreasing_never_declining _ slope Hy Hslope)).
Defined.

(** X17. A series that never rises is never classified Rising and never scores
    above 50. *)
Theorem non_increasing_never_rising (y : list Z) (slope : float) :
  non_increasing y ->
  calculate_slope y = OK slope ->
  classify_trend slope <> "Rising" /\
  exists k, calculate_score slope = OK k /\ 0 <= k <= 50.
Proof.
  intros Hy Hslope.
  destruct (calculate_slope_float y slope Hslope) as [Hv _].
  destruct (proj2 (calculate_slope_sign y slope Hslope) (ols_numerator_nonpos y Hy))
    as [Hle Hlt].
  split.
  - unfold classify_trend. rewrite Hlt.
    destruct (F64.ltb slope (F64.neg F64.f0_8)); discriminate.
  - destruct (calculate_score_range scale scale_ok slope) as (k & Hk & Hrange).
    exists k. split; [exact Hk |].
    pose proof (calculate_score_mono scale scale_ok slope F64.zero k 50
                  Hv eq_refl Hle Hk score_of_zero).
    lia.
Qed.

Lemma non_increasing_never_rising_witness :
  non_increasing [90; 70; 70; 40; 10] /\
  exists slope,
    calculate_slope [90; 70; 70; 40; 10] = OK slope /\
    classify_trend slope <> "Rising".
Proof.
  assert (Hy : non_increasing [90; 70; 70; 40; 10]).
  { intros i j [Hij Hj]. cbn [length] in Hj.
    do 5 (destruct j as [|j]; [do 5 (destruct i as [|i]; [cbn; lia |]); lia |]). lia. }
  split; [exact Hy |].
  destruct (calculate_slope [90; 70; 70; 40; 10]) as [slope|e] eqn:Hslope;
    [| vm_compute in Hslope; discriminate Hslope].
  exists slope. split; [reflexivity |].
  exact (proj1 (non_increasing_never_rising _ slope Hy Hslope)).
Defined.

(** X18. On success the slope is a finite binary64 number: never NaN, never an
    infinity, always in canonical form. *)
Theorem calculate_slope_finite (y : list Z) (slope : float) :
  calculate_slope y = OK slope ->
  F64.valid slope = true /\
  match slope with
  | S754_zero _ | S754_finite _ _ _ => True
  | S754_infinity _ | S754_nan => False
  end.
Proof.
  intros Hslope. destruct (calculate_slope_float y slope Hslope) as [Hv Hn].
  split; [exact Hv |]. revert Hslope. unfold calculate_slope.
  destruct (_ <? _)%nat; [intros [= <-]; exact I |].
  destruct (_ =? 0); [intros [= <-]; exact I |].
  unfold py_truediv. destruct (_ =? 0); [discriminate |].
  destruct (F64.div _ _); try discriminate; intros [= <-]; try exact I.
  discriminate Hn.
Qed.

Lemma calculate_slope_finite_witness :
  exists slope,
    calculate_slope [3; 1; 4; 1; 5; 9; 2] = OK slope /\ F64.valid slope = true.
Proof.
  destruct (calculate_slope [3; 1; 4; 1; 5; 9; 2]) as [slope|e] eqn:Hslope;
    [| vm_compute in Hslope; discriminate Hslope].
  exists slope. split; [reflexivity |].
  exact (proj1 (calculate_slope_finite _ slope Hslope)).
Defined.

(** ** SeriesCleaner: the window *)

Lemma last_seven_recent {A : Type} (old recent : list A) :
  length recent = 7%nat -> last_seven (old ++ recent) = recent.
Proof.
  intros Hlen. unfold last_seven. rewrite length_app, Hlen.
  replace (length old + 7 - 7)%nat with (length old + 0)%nat by lia.
  rewrite skipn_app, Nat.add_comm, Nat.add_sub.
  rewrite skipn_all2 by lia. reflexivity.
Qed.

(** X19. [clean_data] never returns more than seven values, and looks at nothing
    but the last seven cells of the keyword's column: two tables whose
    columns end in the same seven cells are cleaned alike, whatever came
    before, even cells that [int] would reject. *)
Theorem clean_data_window `{StrOps} :
  (forall data keyword ints,
      clean_data data keyword = OK ints -> (length ints <= 7)%nat) /\
  (forall data1 data2 keyword old1 old2 recent,
      df_empty data1 = false -> df_empty data2 = false ->
      keyword <> "isPartial" ->
      columns data1 !! keyword = Some (old1 ++ recent) ->
      columns data2 !! keyword = Some (old2 ++ recent) ->
      length recent = 7%nat ->
      clean_data (Some data1) keyword = rmap_list py_int recent /\
      clean_data (Some data2) keyword = clean_data (Some data1) keyword).
Proof.
  split; [exact clean_data_at_most_seven |].
  intros data1 data2 keyword old1 old2 recent He1 He2 Hkw Hc1 Hc2 Hlen.
  rewrite (clean_data_column data1 keyword _ He1 Hkw Hc1).
  rewrite (clean_data_column data2 keyword _ He2 Hkw Hc2).
  rewrite !last_seven_recent by exact Hlen. split; reflexivity.
Qed.

Lemma clean_data_window_witness :
  let gappy :=
    {| index := [1; 2; 3; 4; 5; 6; 7; 8];
       columns := <["coffee" := CFloat S754_nan ::
                                map CInt [10; 20; 30; 40; 50; 60; 70]]> ∅ |} in
  df_empty coffee_frame = false /\ df_empty gappy = false /\
  clean_data (Some gappy) "coffee" = clean_data (Some coffee_frame) "coffee" /\
  clean_data (Some gappy) "coffee" = OK [10; 20; 30; 40; 50; 60; 70].
Proof.
  intros gappy.
  assert (He1 : df_empty coffee_frame = false) by (vm_compute; reflexivity).
  assert (He2 : df_empty gappy = false) by (vm_compute; reflexivity).
  split; [exact He1 |]. split; [exact He2 |].
  destruct (proj2 clean_data_window coffee_frame gappy "coffee"
              (map CInt [1; 2; 3]) [CFloat S754_nan]
              (map CInt [10; 20; 30; 40; 50; 60; 70]) He1 He2
              ltac:(discriminate) eq_refl eq_refl eq_refl) as [H1 H2].
  split; [exact H2 |]. rewrite H2, H1. reflexivity.
Defined.

(** ** AnalysisService: a table without the keyword's column *)

Lemma prefix_quote (s : string) :
  String.prefix "429" (String.append s "'") = String.prefix "429" s.
Proof.
  destruct s as [|c [|c1 [|c2 s]]]; cbv [String.append]; cbn [String.prefix];
    repeat (destruct (ascii_dec _ _); try reflexivity; try discriminate).
  destruct s; reflexivity.
Qed.

Lemma contains_quote (s : string) :
  contains "429" (String.append s "'") = contains "429" s.
Proof.
  induction s as [|c s IH]; [reflexivity |].
  change (String.append (String c s) "'") with (String c (String.append s "'")).
  cbn [contains]. rewrite IH. f_equal.
  exact (prefix_quote (String c s)).
Qed.

(** Between quotes, a text has "429" exactly when it has it itself. *)
Lemma contains_quoted (s : string) : contains "429" (ascii_repr s) = contains "429" s.
Proof.
  unfold ascii_repr.
  change (String.append "'" (String.append s "'")) with (String "'" (String.append s "'")).
  cbn [contains]. rewrite contains_quote.
  cbn [String.prefix]. destruct (ascii_dec _ _); [discriminate | reflexivity].
Qed.

(** X20. When the first answer is a non-empty table that lacks the keyword's
    column, [analyze] fails after that single query without asking for
    suggestions or touching the cache. The failure is decided by the text of
    the [KeyError], the [repr] of the keyword: a rate limit when that text
    contains "429", an internal error with that text otherwise. So, for a
    [repr] that keeps a "429" of the text it prints, a keyword that contains
    "429" is reported as rate-limited. *)
Theorem analyze_missing_column `{StrOps} (P : Provider) (request_keyword : string)
    (w : World) (data : DataFrame) :
  let keyword := normalize request_keyword in
  keyword <> "" ->
  cache w !! keyword = None ->
  attempt_answer P keyword w = inr (Some data) ->
  df_empty data = false ->
  columns data !! keyword = None ->
  exists e,
    analyze P request_keyword w =
      (Raise e, logged w [Sleep 2; InterestOverTime (pytrend w) keyword]) /\
    e = (if contains "429" (repr keyword) then RateLimited
         else Internal (repr keyword)) /\
    ((forall s, contains "429" s = true -> contains "429" (repr s) = true) ->
     contains "429" keyword = true -> e = RateLimited).
Proof.
  intros keyword Hk Hmiss Ha He Hcol. subst keyword.
  rewrite (analyze_miss P _ w Hk Hmiss).
  unfold try_except, analyze_try, bind at 1, fetch_trends_data.
  change (range 3) with [0%nat; 1%nat; 2%nat].
  rewrite (fetch_attempt_success P _ 3 0 _ w (Some data) Ha). rewrite He.
  unfold bind at 1, lift at 1.
  assert (Hclean : clean_data (Some data) (normalize request_keyword) =
                   Raise (Exception (repr (normalize request_keyword)))).
  { rewrite (clean_data_dropped data _ He).
    destruct (decide (normalize request_keyword = "isPartial")) as [-> | Hne].
    - now rewrite lookup_delete_eq.
    - rewrite lookup_delete_ne by congruence. now rewrite Hcol. }
  rewrite Hclean. cbn [analyze_except].
  destruct (contains "429" (repr (normalize request_keyword))) eqn:H429;
    eexists; (split; [reflexivity |]); (split; [reflexivity |]).
  - reflexivity.
  - intros Hkeep Hkw. rewrite (Hkeep _ Hkw) in H429. discriminate H429.
Qed.

Lemma analyze_missing_column_witness :
  let P := scripted [inr (Some coffee_frame)] (inr []) in
  normalize " Tea 429 " = "tea 429" /\
  columns coffee_frame !! "tea 429" = None /\
  (forall s, contains "429" s = true -> contains "429" (repr s) = true) /\
  exists w',
    analyze P " Tea 429 " initial_world = (Raise RateLimited, w') /\
    count_interest (log w') = 1%nat.
Proof.
  intros P.
  assert (Hn : normalize " Tea 429 " = "tea 429") by (vm_compute; reflexivity).
  assert (Hcol : columns coffee_frame !! "tea 429" = None) by (vm_compute; reflexivity).
  assert (Hkeep : forall s, contains "429" s = true -> contains "429" (repr s) = true).
  { intros s Hs. change (repr s) with (ascii_repr s). now rewrite contains_quoted. }
  split; [exact Hn |]. split; [exact Hcol |]. split; [exact Hkeep |].
  destruct (analyze_missing_column P " Tea 429 " initial_world coffee_frame)
    as (e & Hrun & _ & He).
  - rewrite Hn. discriminate.
  - reflexivity.
  - rewrite Hn. reflexivity.
  - vm_compute. reflexivity.
  - rewrite Hn. exact Hcol.
  - rewrite (He Hkeep) in Hrun by (rewrite Hn; vm_compute; reflexivity).
    eexists. split; [exact Hrun | reflexivity].
Defined.

(** ** Builtins: [in] on strings *)

Lemma prefix_app (sub s : string) :
  String.prefix sub s = true <-> exists post, s = String.append sub post.
Proof.
  revert s. induction sub as [|a sub IH]; intros s.
  - split; [intros _; exists s; reflexivity |]. intros _. destruct s; reflexivity.
  - destruct s as [|b s].
    + split; [discriminate | intros [post Hs]; discriminate Hs].
    + cbn [String.prefix]. destruct (ascii_dec a b) as [-> | Hne].
      * rewrite IH. split; intros [post Hs]; exists post.
        -- cbv [String.append]. fold String.append. now rewrite Hs.
        -- cbv [String.append] in Hs. fold String.append in Hs. now injection Hs.
      * split; [discriminate |]. intros [post Hs].
        cbv [String.append] in Hs. fold String.append in Hs. congruence.
Qed.

(** X22. [sub in s] holds exactly when [s] is some text, then [sub], then some
    text. *)
Theorem contains_iff_substring (sub s : string) :
  contains sub s = true <->
  exists pre post, s = String.append pre (String.append sub post).
Proof.
  induction s as [|c s IH].
  - cbn [contains]. rewrite orb_false_r, prefix_app. split.
    + intros [post Hs]. exists "", post. exact Hs.
    + intros (pre & post & Hs). destruct pre as [|x pre]; [now exists post |].
      cbv [String.append] in Hs. fold String.append in Hs. discriminate Hs.
  - cbn [contains]. rewrite orb_true_iff, prefix_app, IH. split.
    + intros [[post Hs] | (pre & post & Hs)].
      * exists "", post. exact Hs.
      * exists (String c pre), post. cbv [String.append]. fold String.append.
        now rewrite Hs.
    + intros (pre & post & Hs). destruct pre as [|x pre].
      * left. now exists post.
      * right. exists pre, post. cbv [String.append] in Hs. fold String.append in Hs.
        now injection Hs.
Qed.
